(** * Convention sales dashboard (dashboard.py): model and properties

    The dashboard is one Python script on top of pandas, plotly and
    streamlit.  The development below follows the script function by
    function.  Library calls are given the meaning the script relies on:

    - a categorical cell is a Python [str] or the missing value [nan]:
      the tables are those whose seven categorical columns have dtype
      [object].  A column of a CSV file that [pd.read_csv] reads as
      numbers or booleans is outside the tables of this development;
    - the quantity column is an [int64] column, sums wrap around;
    - a DataFrame of sales records is an object in a store, names are
      references to it; [df.copy()] and boolean indexing make new objects;
    - an aggregate (a grouped series, a pivot) lives inside the function
      that makes it and no other name refers to it: it is a plain value,
      and its in-place updates ([char_sales['full_name'] = ...],
      [regional_stats.columns = ...]) are rebindings;
    - a float64 result (mean, std, rounding) is kept as the computation
      that yields it; [real_of] gives the real number it stands for;
    - every [st.*] call appends one element to the rendered page, the
      placement in columns and expanders is not kept;
    - [st.stop()] and a raised exception end the run of the script;
    - [main] is written in the sections its comments divide it into.

    Pictographs in labels and titles are left out of the string literals,
    and so is the white space of the HTML markup. *)

From Stdlib Require Import List ZArith String Ascii Bool Lia Permutation Sorted.
From Stdlib Require Import DecimalString Reals Lra.
Import ListNotations.
Local Open Scope Z_scope.

Set Implicit Arguments.

(* ===================================================================== *)
(** ** Cells, rows and tables *)
(* ===================================================================== *)

(** A value of a categorical column: text, or pandas' missing value. *)
Inductive cell : Type :=
| Str (s : string)
| NaN.

(** Python's [==] on two cells; [nan] is equal to nothing, itself included. *)
Definition py_eqb (a b : cell) : bool :=
  match a, b with
  | Str x, Str y => String.eqb x y
  | _, _ => false
  end.

(** Python's [!=]. *)
Definition py_neqb (a b : cell) : bool := negb (py_eqb a b).

(** Structural equality of cells (object identity of [nan] included). *)
Definition cell_eqb (a b : cell) : bool :=
  match a, b with
  | Str x, Str y => String.eqb x y
  | NaN, NaN => true
  | _, _ => false
  end.

Definition is_nan (c : cell) : bool :=
  match c with NaN => true | Str _ => false end.

Definition is_str (c : cell) : bool :=
  match c with NaN => false | Str _ => true end.

(** One record of the sales table. *)
Record Row : Type := mkRow {
  sheet_name : cell;
  location : cell;
  day : cell;
  event_type : cell;
  series_character : cell;
  character_variant : cell;
  product_type : cell;
  quantity : Z
}.

Definition table : Type := list Row.

(** The categorical column labels, as used in [df['...']]. *)
Inductive column : Type :=
| Sheet_name | Location | Day | Event_type
| Series_character | Character_variant | Product_type.

Definition get (c : column) (r : Row) : cell :=
  match c with
  | Sheet_name => sheet_name r
  | Location => location r
  | Day => day r
  | Event_type => event_type r
  | Series_character => series_character r
  | Character_variant => character_variant r
  | Product_type => product_type r
  end.

Definition label (c : column) : string :=
  match c with
  | Sheet_name => "sheet_name"
  | Location => "location"
  | Day => "day"
  | Event_type => "event_type"
  | Series_character => "series_character"
  | Character_variant => "character_variant"
  | Product_type => "product_type"
  end.

(** [df[c]] as a list of cells. *)
Definition col (c : column) (df : table) : list cell := map (get c) df.

(** [df[df[c] == v]]: boolean indexing, rows kept in order. *)
Definition select_eq (c : column) (v : cell) (df : table) : table :=
  filter (fun r => py_eqb (get c r) v) df.

(* ===================================================================== *)
(** ** int64 arithmetic of the quantity column *)
(* ===================================================================== *)

Definition wrap64 (z : Z) : Z := (z + 2 ^ 63) mod 2 ^ 64 - 2 ^ 63.

Definition add64 (a b : Z) : Z := wrap64 (a + b).

(** [Series.sum()] of an int64 column. *)
Definition sum64 (l : list Z) : Z := fold_left add64 l 0.

(** The exact sum, used to state what [sum64] computes. *)
Definition total (l : list Z) : Z := fold_right Z.add 0 l.

(** [Series.min()] and [Series.max()] of a non-empty column. *)
Definition min_of (l : list Z) : Z :=
  match l with
  | [] => 0
  | x :: l' => fold_left Z.min l' x
  end.

Definition max_of (l : list Z) : Z :=
  match l with
  | [] => 0
  | x :: l' => fold_left Z.max l' x
  end.

(* ===================================================================== *)
(** ** Python and pandas helpers on lists *)
(* ===================================================================== *)

(** [Series.unique()]: distinct values in order of first appearance;
    a missing value is kept, once. *)
Fixpoint unique_aux (seen : list cell) (l : list cell) : list cell :=
  match l with
  | [] => []
  | c :: l' =>
      if existsb (cell_eqb c) seen then unique_aux seen l'
      else c :: unique_aux (c :: seen) l'
  end.

Definition unique (l : list cell) : list cell := unique_aux [] l.

(** [Series.nunique()]: number of distinct values, missing ones not counted. *)
Definition nunique (l : list cell) : nat :=
  List.length (filter is_str (unique l)).

(** Stable insertion sort, the order being given by [le]. *)
Fixpoint insert_by (A : Type) (le : A -> A -> bool) (x : A) (l : list A) : list A :=
  match l with
  | [] => [x]
  | y :: l' => if le x y then x :: l else y :: insert_by le x l'
  end.

Definition sort_by (A : Type) (le : A -> A -> bool) (l : list A) : list A :=
  fold_right (insert_by le) [] l.

(** Order of two cells when both are text (code point order). *)
Definition cell_leb (a b : cell) : bool :=
  match a, b with
  | Str x, Str y => String.leb x y
  | _, _ => true
  end.

(** What a run of the script can end with besides a value. *)
Inductive exn : Type :=
| TypeError
| FileNotFoundError
| InvalidReference
| OtherError (name : string).   (* any class that is none of the above *)

Inductive outcome (A : Type) : Type :=
| Ok (a : A)
| Stop
| Raise (e : exn).

Arguments Ok {A} a.
Arguments Stop {A}.
Arguments Raise {A} e.

(** Python's [sorted] on a list of cells.  [str < float] is not defined:
    as soon as the list holds both a text and a missing value some
    comparison of the two is made and [TypeError] is raised. *)
Definition sorted (l : list cell) : outcome (list cell) :=
  if existsb is_nan l && existsb is_str l then Raise TypeError
  else Ok (sort_by cell_leb l).

(** What the comprehension [[x for x in values if x and str(x) != 'nan']]
    of lines 371, 377 and 379 asks of a value: its truth value [bool(x)]
    and its text [str(x)]. *)
Class PyValue (A : Type) : Type := {
  truthy : A -> bool;
  str : A -> string
}.

(** A text is true unless it is empty; [nan] is a float other than 0. *)
#[export] Instance cell_value : PyValue cell := {|
  truthy c := match c with Str s => negb (String.eqb s "") | NaN => true end;
  str c := match c with Str s => s | NaN => "nan"%string end
|}.

(** The values of a column that [pd.read_csv] reads as [int64]. *)
#[export] Instance int_value : PyValue Z := {|
  truthy z := negb (z =? 0);
  str z := NilZero.string_of_int (Z.to_int z)
|}.

Definition present_values (A : Type) `{PyValue A} (values : list A) : list A :=
  filter (fun x => truthy x && negb (String.eqb (str x) "nan")) values.

(** The test [x and str(x) != 'nan'] on a cell: the empty text is
    falsy, [str(nan)] is ['nan']. *)
Definition truthy_not_nan (c : cell) : bool :=
  match c with
  | NaN => false
  | Str s => negb (String.eqb s "") && negb (String.eqb s "nan")
  end.

(* ===================================================================== *)
(** ** groupby *)
(* ===================================================================== *)

(** A group key: the tuple of the key columns' texts. *)
Definition key : Type := list string.

Fixpoint key_eqb (a b : key) : bool :=
  match a, b with
  | [], [] => true
  | x :: a', y :: b' => String.eqb x y && key_eqb a' b'
  | _, _ => false
  end.

(** Tuple order: lexicographic. *)
Fixpoint key_leb (a b : key) : bool :=
  match a, b with
  | [], _ => true
  | _ :: _, [] => false
  | x :: a', y :: b' =>
      match String.compare x y with
      | Lt => true
      | Gt => false
      | Eq => key_leb a' b'
      end
  end.

(** The key of a row; a row with a missing key cell has none
    ([dropna=True], the default). *)
Fixpoint key_of (by_ : list column) (r : Row) : option key :=
  match by_ with
  | [] => Some []
  | c :: cs =>
      match get c r, key_of cs r with
      | Str s, Some k => Some (s :: k)
      | _, _ => None
      end
  end.

Definition groups : Type := list (key * table).

(** Put a row in the group of its key, opening a group at the end when
    the key is new. *)
Fixpoint add_row (k : key) (r : Row) (gs : groups) : groups :=
  match gs with
  | [] => [(k, [r])]
  | (k', rows) :: gs' =>
      if key_eqb k k' then (k', rows ++ [r]) :: gs'
      else (k', rows) :: add_row k r gs'
  end.

(** One pass over the table: groups in order of first appearance. *)
Definition split (by_ : list column) (df : table) : groups :=
  fold_left
    (fun gs r => match key_of by_ r with
                 | Some k => add_row k r gs
                 | None => gs
                 end)
    df [].

(** [df.groupby(by)]: the groups, sorted by key ([sort=True]). *)
Definition groupby (by_ : list column) (df : table) : groups :=
  sort_by (fun a b => key_leb (fst a) (fst b)) (split by_ df).

(** [df.groupby(by)['quantity'].sum()]: key and total of each group. *)
Definition groupby_sum (by_ : list column) (df : table) : list (key * Z) :=
  map (fun g => (fst g, sum64 (map quantity (snd g)))) (groupby by_ df).

(** Label lookup in a grouped series. *)
Fixpoint loc (A : Type) (k : key) (s : list (key * A)) : option A :=
  match s with
  | [] => None
  | (k', v) :: s' => if key_eqb k k' then Some v else loc k s'
  end.

(** Position and value of the first largest entry ([idxmax], [max]). *)
Definition idxmax (s : list (key * Z)) : option (key * Z) :=
  match s with
  | [] => None
  | kv :: s' =>
      Some (fold_left (fun best x => if snd best <? snd x then x else best) s' kv)
  end.

(* ===================================================================== *)
(** ** Aggregated frames, figures and page elements *)
(* ===================================================================== *)

(** A float64 result, kept as the computation that yields it. *)
Inductive float_expr : Type :=
| mean_of (l : list Z)
| std_of (l : list Z)
| of_int (z : Z)
| round2 (f : float_expr).

Inductive value : Type :=
| VStr (s : string)
| VInt (z : Z)
| VFloat (f : float_expr).

(** An aggregated DataFrame: index levels first, then the value columns. *)
Record frame : Type := mkFrame {
  columns : list string;
  records : list (list value)
}.

(** [reset_index()] of a grouped quantity total. *)
Definition reset_index (by_ : list column) (s : list (key * Z)) : frame :=
  {| columns := map label by_ ++ ["quantity"%string];
     records := map (fun kv => map VStr (fst kv) ++ [VInt (snd kv)]) s |}.

(** Position of a column label. *)
Fixpoint index_of (name : string) (cols : list string) : nat :=
  match cols with
  | [] => O
  | c :: cs => if String.eqb name c then O else S (index_of name cs)
  end.

Definition int_at (i : nat) (r : list value) : Z :=
  match nth_error r i with
  | Some (VInt z) => z
  | _ => 0
  end.

(** [sort_values(by, ascending=...)] on an integer column.  pandas does
    not promise an order for ties; here they keep their order. *)
Definition sort_values (by_ : string) (ascending : bool) (f : frame) : frame :=
  let i := index_of by_ (columns f) in
  {| columns := columns f;
     records :=
       sort_by (fun a b => if ascending then int_at i a <=? int_at i b
                           else int_at i b <=? int_at i a)
               (records f) |}.

(** [head(n)]. *)
Definition head (n : nat) (f : frame) : frame :=
  {| columns := columns f; records := firstn n (records f) |}.

(** [nlargest(n, by)]: the [n] largest, the first ones on ties. *)
Definition nlargest (n : nat) (by_ : string) (f : frame) : frame :=
  head n (sort_values by_ false f).

Inductive chart : Type := bar | treemap | imshow | pie | sunburst.

(** A plotly figure: the constructor called, the frame handed to it, its
    keyword arguments and the layout and trace updates. *)
Record figure : Type := mkFigure {
  kind : chart;
  data : frame;
  args : list (string * string);
  layout : list (string * string)
}.

Definition update_layout (upd : list (string * string)) (fig : figure) : figure :=
  {| kind := kind fig; data := data fig; args := args fig;
     layout := layout fig ++ upd |}.

(** A piece of an f-string: literal text, or a value with its format. *)
Inductive piece : Type :=
| Lit (s : string)
| Fmt (v : value) (spec : string)
| FmtCell (c : cell).

(** A CSV document, one list of fields per line. *)
Definition csv : Type := list (list value).

Inductive element : Type :=
| set_page_config (title layout_ sidebar : string)
| markdown (text : list piece)
| st_columns (n : nat)
| sidebar_header (s : string)
| sidebar_selectbox (label_ : string) (options : list cell)
| info (text : list piece)
| success (s : string)
| warning (s : string)
| error (s : string)
| dataframe (f : frame)
| dataframe_rows (t : table)
| plotly_chart (fig : figure)
| metric (label_ : string) (v : Z)
| expander (label_ : string)
| download_button (label_ : string) (data_ : csv) (file_name : list piece) (mime : string).

(* ===================================================================== *)
(** ** The world of a run, and the script monad *)
(* ===================================================================== *)

(** A line of a CSV file of sales records, after tokenisation: seven
    texts and an integer quantity.  The files of this development are
    those that [pd.read_csv] reads as a table of such records: the eight
    columns are there, the categorical ones are read as text and the
    quantity as [int64]. *)
Record RawRecord : Type := mkRaw {
  raw_sheet_name : string;
  raw_location : string;
  raw_day : string;
  raw_event_type : string;
  raw_series_character : string;
  raw_character_variant : string;
  raw_product_type : string;
  raw_quantity : Z
}.

Definition ref : Type := nat.

Record World : Type := mkWorld {
  file : option (list RawRecord);        (* the CSV file, [None] when absent *)
  random : nat -> Z;                     (* numpy's generator, as a stream *)
  drawn : nat;                           (* numbers drawn so far *)
  cache : option (table * list element); (* st.cache_data entry of load_data *)
  store : list table;                    (* the DataFrame objects *)
  page : list element                    (* what has been rendered *)
}.

Definition M (A : Type) : Type := World -> outcome A * World.

Definition ret (A : Type) (a : A) : M A := fun w => (Ok a, w).

Definition bind (A B : Type) (m : M A) (f : A -> M B) : M B :=
  fun w =>
    match m w with
    | (Ok a, w') => f a w'
    | (Stop, w') => (Stop, w')
    | (Raise e, w') => (Raise e, w')
    end.

Declare Scope script_scope.
Delimit Scope script_scope with script.
Notation "x <- m ;; k" := (bind m (fun x => k))
  (at level 100, m at next level, right associativity) : script_scope.
Notation "m ;; k" := (bind m (fun _ => k))
  (at level 100, right associativity) : script_scope.
Local Open Scope script_scope.

Definition raise (A : Type) (e : exn) : M A := fun w => (Raise e, w).

(** [st.stop()]. *)
Definition stop (A : Type) : M A := fun w => (Stop, w).

Definition lift (A : Type) (o : outcome A) : M A := fun w => (o, w).

Definition exn_eqb (a b : exn) : bool :=
  match a, b with
  | TypeError, TypeError => true
  | InvalidReference, InvalidReference => true
  | FileNotFoundError, FileNotFoundError => true
  | OtherError a, OtherError b => String.eqb a b
  | _, _ => false
  end.

(** [try: body except e: handler]. *)
Definition try_except (A : Type) (body : M A) (e : exn) (handler : M A) : M A :=
  fun w =>
    match body w with
    | (Raise e', w') => if exn_eqb e e' then handler w' else (Raise e', w')
    | r => r
    end.

(** Render one element. *)
Definition emit (e : element) : M unit :=
  fun w =>
    (Ok tt,
     {| file := file w; random := random w; drawn := drawn w; cache := cache w;
        store := store w; page := page w ++ [e] |}).

(** A new DataFrame object. *)
Definition new_frame (t : table) : M ref :=
  fun w =>
    (Ok (List.length (store w)),
     {| file := file w; random := random w; drawn := drawn w; cache := cache w;
        store := store w ++ [t]; page := page w |}).

(** The rows of the DataFrame a name refers to. *)
Definition rows_of (df : ref) : M table :=
  fun w =>
    match nth_error (store w) df with
    | Some t => (Ok t, w)
    | None => (Raise InvalidReference, w)
    end.

(** [df.copy()]. *)
Definition copy (df : ref) : M ref :=
  t <- rows_of df ;; new_frame t.

(** [df[df[c] == v]]. *)
Definition getitem_eq (df : ref) (c : column) (v : cell) : M ref :=
  t <- rows_of df ;; new_frame (select_eq c v t).

(** [np.random.randint(low, high, n)]: [n] draws reduced to [low..high-1]. *)
Definition randint (low high : Z) (n : nat) : M (list Z) :=
  fun w =>
    (Ok (map (fun i => low + random w (drawn w + i)%nat mod (high - low)) (seq 0 n)),
     {| file := file w; random := random w; drawn := (drawn w + n)%nat;
        cache := cache w; store := store w; page := page w |}).

(* ===================================================================== *)
(** ** load_data *)
(* ===================================================================== *)

(** The texts [pd.read_csv] turns into a missing value by default. *)
Definition na_values : list string :=
  [""; "#N/A"; "#N/A N/A"; "#NA"; "-1.#IND"; "-1.#QNAN"; "-NaN"; "-nan";
   "1.#IND"; "1.#QNAN"; "<NA>"; "N/A"; "NA"; "NULL"; "NaN"; "None"; "n/a";
   "nan"; "null"]%string.

Definition read_cell (s : string) : cell :=
  if existsb (String.eqb s) na_values then NaN else Str s.

Definition read_record (r : RawRecord) : Row :=
  {| sheet_name := read_cell (raw_sheet_name r);
     location := read_cell (raw_location r);
     day := read_cell (raw_day r);
     event_type := read_cell (raw_event_type r);
     series_character := read_cell (raw_series_character r);
     character_variant := read_cell (raw_character_variant r);
     product_type := read_cell (raw_product_type r);
     quantity := raw_quantity r |}.

(** [pd.read_csv('cleaned_convention_sales_data.csv')] in a world whose
    file, when there is one, is a file of sales records.  What
    [load_data] does when the call ends in another way is stated for
    [load_data_from]. *)
Definition read_csv : M ref :=
  fun w =>
    match file w with
    | Some lines => new_frame (map read_record lines) w
    | None => (Raise FileNotFoundError, w)
    end.

(** [l * n] on Python lists. *)
Definition times (A : Type) (l : list A) (n : nat) : list A := List.concat (repeat l n).

(** [pd.DataFrame(data)] for the eight columns of the sample. *)
Definition DataFrame (sheets locs days events series variants products : list string)
    (quantities : list Z) : table :=
  map (fun i =>
         {| sheet_name := Str (nth i sheets ""%string);
            location := Str (nth i locs ""%string);
            day := Str (nth i days ""%string);
            event_type := Str (nth i events ""%string);
            series_character := Str (nth i series ""%string);
            character_variant := Str (nth i variants ""%string);
            product_type := Str (nth i products ""%string);
            quantity := nth i quantities 0 |})
      (seq 0 (List.length sheets)).

Definition sample_data (quantities : list Z) : table :=
  DataFrame
    (times ["MEGA LDN SAT"; "MEGA LDN SUN"; "AL LDN SAT"]%string 50)
    (times ["London"; "London"; "London"]%string 50)
    (times ["Saturday"; "Sunday"; "Saturday"]%string 50)
    (times ["Mega"; "Mega"; "AL"]%string 50)
    (times ["JJK"; "Frieren"; "ACNH"]%string 50)
    (times ["Fish"; "Frieren"; "Blathers"]%string 50)
    (times ["Bag"; "Keyring"; "Pin"]%string 50)
    quantities.

Definition file_not_found_text : string :=
  "CSV file not found! Please make sure 'cleaned_convention_sales_data.csv' is in the same directory as this script.".

Definition sample_data_text : string :=
  "Using sample data for demonstration. Please upload your actual CSV file.".

(** The body of [load_data] (lines 44-65), for any behaviour [read] of
    the call of [pd.read_csv]: only [FileNotFoundError] is handled. *)
Definition load_data_from (read : M ref) : M ref :=
  try_except
    (df <- read ;;
     ret df)
    FileNotFoundError
    (emit (error file_not_found_text) ;;
     quantities <- randint 1 20 150 ;;
     df <- new_frame (sample_data quantities) ;;
     emit (warning sample_data_text) ;;
     ret df).

Definition load_data_body : M ref := load_data_from read_csv.

(** [@st.cache_data]: the first call runs the body and keeps a pickled
    copy of its result together with the elements it rendered; a later
    call replays the elements and returns a fresh copy of the result. *)
Definition cache_data (body : M ref) : M ref :=
  fun w =>
    match cache w with
    | Some (t, shown) =>
        new_frame t
          {| file := file w; random := random w; drawn := drawn w;
             cache := cache w; store := store w; page := page w ++ shown |}
    | None =>
        match body w with
        | (Ok df, w') =>
            match nth_error (store w') df with
            | Some t =>
                (Ok df,
                 {| file := file w'; random := random w'; drawn := drawn w';
                    cache := Some (t, skipn (List.length (page w)) (page w'));
                    store := store w'; page := page w' |})
            | None => (Raise InvalidReference, w')
            end
        | r => r
        end
    end.

Definition load_data : M ref := cache_data load_data_body.

(* ===================================================================== *)
(** ** create_overview_metrics *)
(* ===================================================================== *)

(** A metric card of the first row: heading, then the formatted figure.
    White space of the markup is left out. *)
Definition card (heading : string) (shown : list piece) : list piece :=
  [Lit "<div class='metric-card'><h3>"; Lit heading; Lit "</h3><h2>"]
  ++ shown ++ [Lit "</h2></div>"].

(** [f"{idx[0]} - {idx[1]}" if idx[1] else idx[0]]. *)
Definition char_name (idx : key) : string :=
  match idx with
  | [s; v] => if String.eqb v "" then s else (s ++ " - " ++ v)%string
  | _ => ""%string
  end.

(** A byte that continues a character of a UTF-8 text. *)
Definition is_continuation (c : ascii) : bool :=
  (128 <=? nat_of_ascii c)%nat && (nat_of_ascii c <? 192)%nat.

(** [len(s)]: the number of characters. *)
Fixpoint py_len (s : string) : nat :=
  match s with
  | EmptyString => O
  | String c s' => ((if is_continuation c then 0 else 1) + py_len s')%nat
  end.

(** [s[:n]]: the first [n] characters. *)
Fixpoint py_take (n : nat) (s : string) : string :=
  match s with
  | EmptyString => EmptyString
  | String c s' =>
      if is_continuation c then String c (py_take n s')
      else match n with
           | O => EmptyString
           | S n' => String c (py_take n' s')
           end
  end.

(** [name[:20]] followed by ['...'] when the name is longer. *)
Definition shorten (name : string) : list piece :=
  [Lit (py_take 20 name);
   Lit (if (20 <? py_len name)%nat then "..." else "")%string].

(** The card of the best entry of a grouped total, when there is one
    ([if not s.empty: ...]). *)
Definition top_card (gradient heading : string) (name : key -> list piece)
    (s : list (key * Z)) : M unit :=
  match idxmax s with
  | Some (k, v) =>
      emit (markdown
              ([Lit "<div class='metric-card' style='background: linear-gradient(";
                Lit gradient; Lit ");'><h4>"; Lit heading; Lit "</h4><h3>"]
               ++ name k
               ++ [Lit "</h3><p>"; Fmt (VInt v) ","; Lit " items</p></div>"]))
  | None => ret tt
  end.

Definition stats_columns : list string :=
  ["Total Sales"; "Avg per Item"; "Total Items"; "Product Types"; "Series Count"]%string.

(** [df.groupby('location').agg({...}).round(2)], renamed and sorted. *)
Definition regional_stats (t : table) : frame :=
  sort_values "Total Sales" false
    {| columns := "location"%string :: stats_columns;
       records :=
         map (fun g =>
                let q := map quantity (snd g) in
                map VStr (fst g) ++
                [VInt (sum64 q); VFloat (round2 (mean_of q));
                 VInt (Z.of_nat (List.length q));
                 VInt (Z.of_nat (nunique (col Product_type (snd g))));
                 VInt (Z.of_nat (nunique (col Series_character (snd g))))])
             (groupby [Location] t) |}.

Definition create_overview_metrics (df : ref) : M unit :=
  t <- rows_of df ;;
  emit (st_columns 5) ;;
  emit (markdown (card "Total Sales" [Fmt (VInt (sum64 (map quantity t))) ","])) ;;
  emit (markdown (card "Events"
          [Fmt (VInt (Z.of_nat (nunique (col Sheet_name t)))) ""])) ;;
  emit (markdown (card "Series"
          [Fmt (VInt (Z.of_nat (nunique (col Series_character t)))) ""])) ;;
  emit (markdown (card "Avg per Item"
          [Fmt (VFloat (mean_of (map quantity t))) ".1f"])) ;;
  emit (markdown (card "Product Types"
          [Fmt (VInt (Z.of_nat (nunique (col Product_type t)))) ""])) ;;
  emit (markdown [Lit "### Performance Breakdown"]) ;;
  emit (st_columns 3) ;;
  top_card "135deg, #11998e 0%, #38ef7d 100%" "Top Location"
    (fun k => map Lit k) (groupby_sum [Location] t) ;;
  top_card "135deg, #ff9a9e 0%, #fecfef 100%" "Top Character"
    (fun k => shorten (char_name k))
    (groupby_sum [Series_character; Character_variant] t) ;;
  top_card "135deg, #a8edea 0%, #fed6e3 100%" "Top Product"
    (fun k => map Lit k) (groupby_sum [Product_type] t) ;;
  emit (markdown [Lit "### Regional Performance"]) ;;
  emit (dataframe (regional_stats t)).

(* ===================================================================== *)
(** ** The chart functions *)
(* ===================================================================== *)

Definition px (k : chart) (d : frame) (kw : list (string * string)) : figure :=
  {| kind := k; data := d; args := kw; layout := [] |}.

Definition create_sales_by_location (df : ref) : M figure :=
  t <- rows_of df ;;
  let location_sales := reset_index [Location] (groupby_sum [Location] t) in
  let fig :=
    px bar location_sales
      [("x", "location"); ("y", "quantity"); ("title", "Sales by Location");
       ("color", "quantity"); ("color_continuous_scale", "viridis")]%string in
  ret (update_layout
         [("height", "400"); ("title_font_size", "20");
          ("xaxis_title", "Location"); ("yaxis_title", "Total Quantity Sold")]%string
         fig).

Definition create_event_comparison (df : ref) : M figure :=
  t <- rows_of df ;;
  let event_sales :=
    reset_index [Event_type; Location] (groupby_sum [Event_type; Location] t) in
  let fig :=
    px bar event_sales
      [("x", "location"); ("y", "quantity"); ("color", "event_type");
       ("title", "Event Type Performance by Location"); ("barmode", "group")]%string in
  ret (update_layout [("height", "400"); ("title_font_size", "20")]%string fig).

Definition create_product_performance (df : ref) : M figure :=
  t <- rows_of df ;;
  let product_sales :=
    sort_values "quantity" true
      (reset_index [Product_type] (groupby_sum [Product_type] t)) in
  let fig :=
    px bar product_sales
      [("x", "quantity"); ("y", "product_type"); ("orientation", "h");
       ("title", "Product Performance"); ("color", "quantity");
       ("color_continuous_scale", "plasma")]%string in
  ret (update_layout [("height", "400"); ("title_font_size", "20")]%string fig).

(** [char_sales['full_name'] = ...]: one more column on the aggregate. *)
Definition add_full_name (f : frame) : frame :=
  {| columns := columns f ++ ["full_name"%string];
     records :=
       map (fun r =>
              match r with
              | [VStr s; VStr v; q] => r ++ [VStr (s ++ " - " ++ v)%string]
              | _ => r
              end)
           (records f) |}.

Definition create_top_characters (df : ref) : M figure :=
  t <- rows_of df ;;
  let char_sales :=
    nlargest 15 "quantity"
      (add_full_name
         (reset_index [Series_character; Character_variant]
            (groupby_sum [Series_character; Character_variant] t))) in
  let fig :=
    px treemap char_sales
      [("path", "['series_character', 'character_variant']"); ("values", "quantity");
       ("title", "Top Characters by Sales"); ("color", "quantity");
       ("color_continuous_scale", "blues")]%string in
  ret (update_layout [("height", "500"); ("title_font_size", "20")]%string fig).

Definition create_daily_performance (df : ref) : M figure :=
  t <- rows_of df ;;
  let day_sales := reset_index [Day; Event_type] (groupby_sum [Day; Event_type] t) in
  let fig :=
    px pie day_sales
      [("values", "quantity"); ("names", "day");
       ("title", "Sales Distribution by Day");
       ("color_discrete_sequence", "px.colors.qualitative.Set3")]%string in
  ret (update_layout [("height", "400"); ("title_font_size", "20")]%string fig).

(* ===================================================================== *)
(** ** create_character_analysis and create_detailed_analysis *)
(* ===================================================================== *)

Definition texts (l : list cell) : list string :=
  flat_map (fun c => match c with Str s => [s] | NaN => [] end) l.

(** [', '.join(x.unique())]: joining fails on a missing value. *)
Definition join_unique (x : list cell) : outcome string :=
  if existsb is_nan (unique x) then Raise TypeError
  else Ok (String.concat ", " (texts (unique x))).

Fixpoint traverse (A B : Type) (f : A -> outcome B) (l : list A) : outcome (list B) :=
  match l with
  | [] => Ok []
  | a :: l' =>
      match f a with
      | Ok b =>
          match traverse f l' with
          | Ok bs => Ok (b :: bs)
          | Stop => Stop
          | Raise e => Raise e
          end
      | Stop => Stop
      | Raise e => Raise e
      end
  end.

Definition analysis_columns : list string :=
  ["series_character"; "character_variant"; "Total Sales"; "Avg per Event";
   "Events Count"; "Locations"; "Products"]%string.

(** The character summary (lines 251-258). *)
Definition char_analysis (t : table) : outcome frame :=
  match
    traverse
      (fun g : key * table =>
         let q := map quantity (snd g) in
         match join_unique (col Location (snd g)) with
         | Ok locations =>
             match join_unique (col Product_type (snd g)) with
             | Ok products =>
                 Ok (map VStr (fst g) ++
                     [VInt (sum64 q); VFloat (round2 (mean_of q));
                      VInt (Z.of_nat (List.length q)); VStr locations; VStr products])
             | Stop => Stop
             | Raise e => Raise e
             end
         | Stop => Stop
         | Raise e => Raise e
         end)
      (groupby [Series_character; Character_variant] t)
  with
  | Ok rows =>
      Ok (sort_values "Total Sales" false
            {| columns := analysis_columns; records := rows |})
  | Stop => Stop
  | Raise e => Raise e
  end.

(** Distinct labels in increasing order. *)
Definition sorted_labels (l : list string) : list string :=
  texts (sort_by cell_leb (unique (map Str l))).

(** [pivot(index='series_character', columns='location',
    values='quantity').fillna(0)] and its [.values]: one gap makes the
    whole matrix a float matrix. *)
Definition pivot_fillna (char_location : list (key * Z)) : frame :=
  let locations := sorted_labels (map (fun kv => nth 0 (fst kv) ""%string) char_location) in
  let series := sorted_labels (map (fun kv => nth 1 (fst kv) ""%string) char_location) in
  let gap :=
    existsb (fun s => existsb (fun l =>
               match loc [l; s] char_location with Some _ => false | None => true end)
             locations) series in
  {| columns := "series_character"%string :: locations;
     records :=
       map (fun s =>
              VStr s ::
              map (fun l =>
                     match loc [l; s] char_location with
                     | Some q => if gap then VFloat (of_int q) else VInt q
                     | None => VFloat (of_int 0)
                     end)
                  locations)
           series |}.

(** [char_analysis.head(8).index.get_level_values(0).unique()]. *)
Definition top_chars_list (analysis : frame) : list cell :=
  unique (map (fun r => match r with VStr s :: _ => Str s | _ => NaN end)
              (records (head 8 analysis))).

(** [df[df[c].isin(l)]]. *)
Definition getitem_isin (df : ref) (c : column) (l : list cell) : M ref :=
  t <- rows_of df ;;
  new_frame (filter (fun r => existsb (py_eqb (get c r)) l) t).

Definition create_character_analysis (df : ref) : M unit :=
  emit (markdown [Lit "<h2 class='section-header'>Character Performance Analysis</h2>"]) ;;
  t <- rows_of df ;;
  analysis <- lift (char_analysis t) ;;
  emit (markdown [Lit "### Top Character Performance"]) ;;
  emit (dataframe (head 15 analysis)) ;;
  emit (st_columns 2) ;;
  let char_location := groupby_sum [Location; Series_character] t in
  let fig :=
    px imshow (pivot_fillna char_location)
      [("title", "Character Performance Heatmap by Location");
       ("color_continuous_scale", "viridis"); ("aspect", "auto")]%string in
  emit (plotly_chart (update_layout [("height", "400")]%string fig)) ;;
  char_product <- getitem_isin df Series_character (top_chars_list analysis) ;;
  cp <- rows_of char_product ;;
  let char_product_summary :=
    reset_index [Series_character; Product_type]
      (groupby_sum [Series_character; Product_type] cp) in
  let fig :=
    px bar char_product_summary
      [("x", "series_character"); ("y", "quantity"); ("color", "product_type");
       ("title", "Product Type Distribution - Top Characters");
       ("barmode", "stack")]%string in
  emit (plotly_chart
          (update_layout [("height", "400"); ("xaxis_tickangle", "45")]%string fig)).

Definition create_detailed_analysis (df : ref) : M unit :=
  emit (markdown [Lit "<h2 class='section-header'>Detailed Analysis</h2>"]) ;;
  emit (st_columns 2) ;;
  t <- rows_of df ;;
  let series_sales :=
    head 10 (sort_values "quantity" false
               (reset_index [Series_character] (groupby_sum [Series_character] t))) in
  let fig :=
    px pie series_sales
      [("values", "quantity"); ("names", "series_character");
       ("title", "Top 10 Series by Sales"); ("hole", "0.4")]%string in
  emit (plotly_chart
          (update_layout
             [("textposition", "inside"); ("textinfo", "percent+label")]%string fig)) ;;
  let product_dist :=
    reset_index [Product_type; Event_type] (groupby_sum [Product_type; Event_type] t) in
  let fig :=
    px sunburst product_dist
      [("path", "['event_type', 'product_type']"); ("values", "quantity");
       ("title", "Product Distribution by Event Type")]%string in
  emit (plotly_chart fig).

(* ===================================================================== *)
(** ** main *)
(* ===================================================================== *)

Definition All : cell := Str "All".

(** What the user picks in the six dropdowns, as positions in the lists
    of options. *)
Record Picks : Type := mkPicks {
  pick_location : nat;
  pick_event : nat;
  pick_day : nat;
  pick_anime : nat;
  pick_character : nat;
  pick_product : nat
}.

(** The six values the dropdowns return. *)
Record Selection : Type := mkSelection {
  selected_location : cell;
  selected_event : cell;
  selected_day : cell;
  selected_anime : cell;
  selected_character : cell;
  selected_product : cell
}.

(** [st.sidebar.selectbox(label, options)]: the widget is rendered and the
    picked option returned (the first one when nothing else is picked). *)
Definition selectbox (label_ : string) (options : list cell) (pick : nat) : M cell :=
  emit (sidebar_selectbox label_ options) ;;
  ret (nth pick options (List.hd NaN options)).

(** [['All'] + sorted(list(df[c].unique()))]. *)
Definition options_of (df : ref) (c : column) : M (list cell) :=
  t <- rows_of df ;;
  l <- lift (sorted (unique (col c t))) ;;
  ret (All :: l).

(** [['All'] + sorted([x for x in values if x and str(x) != 'nan'])]. *)
Definition present_options (values : list cell) : M (list cell) :=
  l <- lift (sorted (present_values values)) ;;
  ret (All :: l).

(** The options of the character dropdown (lines 375-379). *)
Definition character_options (df : ref) (selected_anime_ : cell) : M (list cell) :=
  if py_neqb selected_anime_ All then
    of_series <- getitem_eq df Series_character selected_anime_ ;;
    t <- rows_of of_series ;;
    let available_variants := unique (col Character_variant t) in
    present_options available_variants
  else
    t <- rows_of df ;;
    present_options (unique (col Character_variant t)).

(** One of the six [if selected != 'All': ...] blocks. *)
Definition apply_filter (c : column) (selected : cell) (caption : string)
    (st : ref * list (list piece)) : M (ref * list (list piece)) :=
  if py_neqb selected All then
    filtered_df <- getitem_eq (fst st) c selected ;;
    ret (filtered_df, snd st ++ [[Lit caption; FmtCell selected]])
  else ret st.

(** [sep.join(l)] on f-string pieces. *)
Fixpoint join (sep : string) (l : list (list piece)) : list piece :=
  match l with
  | [] => []
  | [x] => x
  | x :: l' => x ++ Lit sep :: join sep l'
  end.

(** Lines 355-384: the six dropdowns of the sidebar. *)
Definition sidebar (df : ref) (u : Picks) : M Selection :=
  emit (sidebar_header "Filters") ;;
  locations <- options_of df Location ;;
  selected_location_ <- selectbox "Select Location" locations (pick_location u) ;;
  event_types <- options_of df Event_type ;;
  selected_event_ <- selectbox "Select Event Type" event_types (pick_event u) ;;
  days <- options_of df Day ;;
  selected_day_ <- selectbox "Select Day" days (pick_day u) ;;
  t <- rows_of df ;;
  anime_series <- present_options (unique (col Series_character t)) ;;
  selected_anime_ <- selectbox "Select Anime/Series" anime_series (pick_anime u) ;;
  character_variants <- character_options df selected_anime_ ;;
  selected_character_ <-
    selectbox "Select Character" character_variants (pick_character u) ;;
  products <- options_of df Product_type ;;
  selected_product_ <- selectbox "Select Product Type" products (pick_product u) ;;
  ret {| selected_location := selected_location_;
         selected_event := selected_event_;
         selected_day := selected_day_;
         selected_anime := selected_anime_;
         selected_character := selected_character_;
         selected_product := selected_product_ |}.

(** Lines 386-407: the filtered view and the captions of the filters in
    force. *)
Definition apply_filters (df : ref) (sel : Selection) : M (ref * list (list piece)) :=
  filtered_df <- copy df ;;
  st <- apply_filter Location (selected_location sel) "Location: " (filtered_df, []) ;;
  st <- apply_filter Event_type (selected_event sel) "Event: " st ;;
  st <- apply_filter Day (selected_day sel) "Day: " st ;;
  st <- apply_filter Series_character (selected_anime sel) "Series: " st ;;
  st <- apply_filter Character_variant (selected_character sel) "Character: " st ;;
  apply_filter Product_type (selected_product sel) "Product: " st.

(** Lines 409-415. *)
Definition show_active_filters (active_filters : list (list piece)) : M unit :=
  match active_filters with
  | [] => emit (success "Showing all data - no filters applied")
  | _ :: _ =>
      emit (markdown [Lit "### Active Filters"]) ;;
      emit (info (join " | " active_filters))
  end.

(** Lines 349-415 of [main]: header, load, sidebar, filters.  Returns the
    filtered view and the selections. *)
Definition filtered_view (u : Picks) : M (ref * Selection) :=
  emit (markdown [Lit "<h1 class='main-header'>Convention Sales Dashboard</h1>"]) ;;
  df <- load_data ;;
  sel <- sidebar df u ;;
  st <- apply_filters df sel ;;
  show_active_filters (snd st) ;;
  ret (fst st, sel).

Definition field (c : cell) : value :=
  match c with
  | Str s => VStr s
  | NaN => VStr ""
  end.

Definition csv_header : list value :=
  map VStr (map label [Sheet_name; Location; Day; Event_type; Series_character;
                       Character_variant; Product_type] ++ ["quantity"%string]).

Definition csv_line (r : Row) : list value :=
  map (fun c => field (get c r))
      [Sheet_name; Location; Day; Event_type; Series_character;
       Character_variant; Product_type]
  ++ [VInt (quantity r)].

(** [filtered_df.to_csv(index=False)]: the header, then a line per row;
    a missing value is written as an empty field. *)
Definition to_csv (t : table) : csv := csv_header :: map csv_line t.

(** [groupby(['location', 'event_type'])['quantity'].agg(['sum', 'mean',
    'std', 'min', 'max']).round(2)]. *)
Definition summary_stats (t : table) : frame :=
  {| columns := ["location"; "event_type"; "sum"; "mean"; "std"; "min"; "max"]%string;
     records :=
       map (fun g =>
              let q := map quantity (snd g) in
              map VStr (fst g) ++
              [VInt (sum64 q); VFloat (round2 (mean_of q));
               VFloat (round2 (std_of q)); VInt (min_of q); VInt (max_of q)])
           (groupby [Location; Event_type] t) |}.

(** [frame.to_csv()]: index and value columns, a line per record. *)
Definition frame_to_csv (f : frame) : csv := map VStr (columns f) :: records f.

Definition count (A : Type) (p : A -> bool) (l : list A) : Z :=
  Z.of_nat (List.length (filter p l)).

Definition no_match_text : string :=
  "No data matches your current filter selection. Please adjust your filters.".

(** Lines 417-420: the check for an empty view. *)
Definition check_not_empty (filtered_df : ref) : M unit :=
  t <- rows_of filtered_df ;;
  match t with
  | [] => emit (warning no_match_text) ;; stop unit
  | _ :: _ => ret tt
  end.

(** Lines 422-456: the metrics, the charts and the two analyses. *)
Definition visualizations (filtered_df : ref) : M unit :=
  create_overview_metrics filtered_df ;;
  emit (markdown [Lit "<h2 class='section-header'>Sales Overview</h2>"]) ;;
  emit (st_columns 2) ;;
  fig1 <- create_sales_by_location filtered_df ;;
  emit (plotly_chart fig1) ;;
  fig2 <- create_daily_performance filtered_df ;;
  emit (plotly_chart fig2) ;;
  emit (st_columns 2) ;;
  fig3 <- create_event_comparison filtered_df ;;
  emit (plotly_chart fig3) ;;
  fig4 <- create_product_performance filtered_df ;;
  emit (plotly_chart fig4) ;;
  emit (markdown [Lit "<h2 class='section-header'>Character Sales Overview</h2>"]) ;;
  fig5 <- create_top_characters filtered_df ;;
  emit (plotly_chart fig5) ;;
  create_character_analysis filtered_df ;;
  create_detailed_analysis filtered_df.

Definition insights_text : string :=
  "### Current Data Overview Your dashboard is currently showing **quantity-based metrics**. ### Adding Pricing Data To enable revenue analysis and price-per-character metrics, you can: 1. Add a `price` column to your CSV with item prices 2. Add a `revenue` column with total revenue per row 3. The dashboard will automatically calculate: - Revenue by location/character/product - Average selling price per item - Profit margins (if cost data included) ### Suggested CSV Enhancements ``` sheet_name,location,day,event_type,series_character,character_variant,product_type,quantity,price,revenue ```".

(** Lines 458-494: the data quality figures and the raw rows.  The
    'Unique Items' figure is given as the number of groups with a text
    in every key column, as for the aggregates; pandas versions differ
    on whether [len] of a grouping also counts keys with a missing
    value. *)
Definition data_insights (filtered_df : ref) : M unit :=
  emit (expander "Data Insights & Pricing Information") ;;
  emit (markdown [Lit insights_text]) ;;
  emit (markdown [Lit "### Current Data Quality"]) ;;
  emit (st_columns 3) ;;
  t <- rows_of filtered_df ;;
  emit (metric "Missing Character Names" (count is_nan (col Character_variant t))) ;;
  emit (metric "Zero Quantity Records" (count (Z.eqb 0) (map quantity t))) ;;
  emit (metric "Unique Items"
          (Z.of_nat (List.length
             (groupby [Series_character; Character_variant; Product_type] t)))) ;;
  emit (expander "View Raw Data") ;;
  emit (dataframe_rows t).

(** Lines 496-521: the two downloads. *)
Definition export_options (filtered_df : ref) (sel : Selection) : M unit :=
  emit (markdown [Lit "<h2 class='section-header'>Export Options</h2>"]) ;;
  emit (st_columns 2) ;;
  t <- rows_of filtered_df ;;
  let csv_ := to_csv t in
  emit (download_button "Download Filtered Data as CSV" csv_
          [Lit "convention_sales_filtered_"; FmtCell (selected_location sel);
           Lit "_"; FmtCell (selected_event sel); Lit ".csv"]
          "text/csv") ;;
  let summary_csv := frame_to_csv (summary_stats t) in
  emit (download_button "Download Summary Statistics" summary_csv
          [Lit "sales_summary_statistics.csv"] "text/csv").

(** Lines 417-521: the empty check and everything rendered after it. *)
Definition render (filtered_df : ref) (sel : Selection) : M unit :=
  check_not_empty filtered_df ;;
  visualizations filtered_df ;;
  data_insights filtered_df ;;
  export_options filtered_df sel.

Definition main (u : Picks) : M unit :=
  r <- filtered_view u ;;
  render (fst r) (snd r).

(** Lines 9-41 and 523-524: the page set-up, then [main]. *)
Definition script (u : Picks) : M unit :=
  emit (set_page_config "Convention Sales Dashboard" "wide" "expanded") ;;
  emit (markdown [Lit "<style> .main-header .metric-card .section-header </style>"]) ;;
  main u.

(* ===================================================================== *)
(** ** Vocabulary of the statements *)
(* ===================================================================== *)

(** The row belongs to the group of key [k]. *)
Definition has_key (by_ : list column) (k : key) (r : Row) : bool :=
  match key_of by_ r with
  | Some k' => key_eqb k k'
  | None => false
  end.

(** The groups built from a prefix of the table: distinct keys, and the
    group of a key holds exactly the rows of that key, in order. *)
Definition groups_of (by_ : list column) (seen : table) (gs : groups) : Prop :=
  NoDup (map fst gs) /\
  forall k rows,
    In (k, rows) gs <-> rows <> [] /\ rows = filter (has_key by_ k) seen.

(** The records of an aggregated frame whose first index level is [g]. *)
Definition records_of (g : string) (f : frame) : list (list value) :=
  filter (fun rec => match rec with
                     | VStr l :: _ => String.eqb g l
                     | _ => false
                     end)
         (records f).

(** A small table and a world holding it, for concrete runs. *)
Definition demo_rows : table :=
  [ mkRow (Str "MEGA LDN SAT") (Str "London") (Str "Saturday") (Str "Mega")
          (Str "JJK") (Str "Fish") (Str "Bag") 4;
    mkRow (Str "AL MCR SUN") (Str "Manchester") (Str "Sunday") (Str "AL")
          (Str "ACNH") NaN (Str "Pin") 0;
    mkRow (Str "MEGA LDN SUN") (Str "London") (Str "Sunday") (Str "Mega")
          (Str "Frieren") (Str "Frieren") (Str "Keyring") 7 ].

Definition demo_world : World :=
  {| file := None; random := fun n => Z.of_nat n; drawn := 0%nat;
     cache := None; store := [demo_rows]; page := [] |}.

(** [w'] is [w] with more objects in the store and more elements on the
    page, the new elements all passing the test [p]; the file, the
    generator and the cache are those of [w]. *)
Definition evolves (p : element -> bool) (w w' : World) : Prop :=
  file w' = file w /\ random w' = random w /\ drawn w' = drawn w /\
  cache w' = cache w /\
  (exists l, store w' = store w ++ l) /\
  (exists es, page w' = page w ++ es /\ forallb p es = true).

(** Whatever its outcome, the computation only evolves the world. *)
Definition keeps (A : Type) (p : element -> bool) (m : M A) : Prop :=
  forall w o w', m w = (o, w') -> evolves p w w'.

Definition any_element (e : element) : bool := true.

Definition is_fmt (x : piece) : bool :=
  match x with
  | Fmt _ _ => true
  | Lit _ | FmtCell _ => false
  end.

(** Elements that show data of the table: metric cards (markdown with a
    formatted figure), metrics, tables, charts and download buttons. *)
Definition renders_data (e : element) : bool :=
  match e with
  | markdown text => existsb is_fmt text
  | dataframe _ | dataframe_rows _ | plotly_chart _ | metric _ _
  | download_button _ _ _ _ => true
  | _ => false
  end.

Definition quiet (e : element) : bool := negb (renders_data e).

Definition is_download (e : element) : bool :=
  match e with
  | download_button _ _ _ _ => true
  | _ => false
  end.

Definition no_download (e : element) : bool := negb (is_download e).

(** A table as [load_data] makes it: read from some file, or the sample. *)
Definition loaded (t : table) : Prop :=
  (exists lines, t = map read_record lines) \/
  (exists quantities, t = sample_data quantities).

(** The cache entry, when there is one, was made by [load_data]. *)
Definition consistent (w : World) : Prop :=
  match cache w with
  | None => True
  | Some (t, shown) =>
      loaded t /\
      (shown = [] \/ shown = [error file_not_found_text; warning sample_data_text])
  end.

(** The seven categorical cells of a row. *)
Definition categories (r : Row) : list cell :=
  map (fun c => get c r)
      [Sheet_name; Location; Day; Event_type; Series_character;
       Character_variant; Product_type].

(** The three fixed combinations the sample table cycles through. *)
Definition sample_categories : list (list cell) :=
  [ [Str "MEGA LDN SAT"; Str "London"; Str "Saturday"; Str "Mega";
     Str "JJK"; Str "Fish"; Str "Bag"];
    [Str "MEGA LDN SUN"; Str "London"; Str "Sunday"; Str "Mega";
     Str "Frieren"; Str "Frieren"; Str "Keyring"];
    [Str "AL LDN SAT"; Str "London"; Str "Saturday"; Str "AL";
     Str "ACNH"; Str "Blathers"; Str "Pin"] ].

(** The numbers [np.random.randint(1, 20, 150)] returns in world [w]. *)
Definition sample_quantities (w : World) : list Z :=
  map (fun i => 1 + random w (drawn w + i)%nat mod (20 - 1)) (seq 0 150).

(** The six filter columns with what is selected for each. *)
Definition choices (sel : Selection) : list (column * cell) :=
  [(Location, selected_location sel); (Event_type, selected_event sel);
   (Day, selected_day sel); (Series_character, selected_anime sel);
   (Character_variant, selected_character sel);
   (Product_type, selected_product sel)].

(** The row agrees with every selection that is not 'All'. *)
Definition matches (sel : Selection) (r : Row) : bool :=
  forallb (fun cs => cell_eqb (snd cs) All || py_eqb (get (fst cs) r) (snd cs))
          (choices sel).

Definition demo_selection : Selection :=
  {| selected_location := Str "London"; selected_event := All;
     selected_day := All; selected_anime := All; selected_character := All;
     selected_product := Str "Bag" |}.

(** The world [w] with the elements [es] rendered after its page. *)
Definition rendering (es : list element) (w : World) : World :=
  {| file := file w; random := random w; drawn := drawn w; cache := cache w;
     store := store w; page := page w ++ es |}.

(** A world whose CSV file has three lines, nothing loaded yet. *)
Definition demo_file : list RawRecord :=
  [ mkRaw "MEGA LDN SAT" "London" "Saturday" "Mega" "JJK" "Fish" "Bag" 4;
    mkRaw "AL MCR SUN" "Manchester" "Sunday" "AL" "ACNH" "" "Pin" 0;
    mkRaw "MEGA LDN SUN" "London" "Sunday" "Mega" "Frieren" "Frieren" "Keyring" 7 ].

Definition demo_file_world : World :=
  {| file := Some demo_file; random := fun n => Z.of_nat n; drawn := 0%nat;
     cache := None; store := []; page := [] |}.

(** London and Pin: no row has both. *)
Definition demo_picks_nothing : Picks :=
  {| pick_location := 1; pick_event := 0; pick_day := 0; pick_anime := 0;
     pick_character := 0; pick_product := 3 |}.

(** London. *)
Definition demo_picks_london : Picks :=
  {| pick_location := 1; pick_event := 0; pick_day := 0; pick_anime := 0;
     pick_character := 0; pick_product := 0 |}.

(** The five chart functions. *)
Definition chart_functions : list (ref -> M figure) :=
  [create_sales_by_location; create_event_comparison; create_product_performance;
   create_top_characters; create_daily_performance].

(** Another world that holds the demo table: as second object of the
    store, with a cache entry, a file, a page and another generator. *)
Definition demo_other_world : World :=
  {| file := Some demo_file; random := fun n => 5; drawn := 12%nat;
     cache := Some ([], []); store := [[]; demo_rows];
     page := [warning no_match_text] |}.

(** The first element [main] renders. *)
Definition main_header : element :=
  markdown [Lit "<h1 class='main-header'>Convention Sales Dashboard</h1>"].

(** A file whose first line has no location, and a world holding it. *)
Definition gap_file : list RawRecord :=
  [ mkRaw "MEGA LDN SAT" "" "Saturday" "Mega" "JJK" "Fish" "Bag" 3;
    mkRaw "MEGA LDN SAT" "London" "Saturday" "Mega" "JJK" "Fish" "Bag" 3 ].

Definition gap_world : World :=
  {| file := Some gap_file; random := fun n => Z.of_nat n; drawn := 0%nat;
     cache := None; store := []; page := [] |}.

(** Nothing picked: every dropdown at its first option. *)
Definition demo_picks_all : Picks :=
  {| pick_location := 0; pick_event := 0; pick_day := 0; pick_anime := 0;
     pick_character := 0; pick_product := 0 |}.

(** The two download buttons of the export section, for a view [t]. *)
Definition filtered_download (t : table) (sel : Selection) : element :=
  download_button "Download Filtered Data as CSV" (to_csv t)
    [Lit "convention_sales_filtered_"; FmtCell (selected_location sel);
     Lit "_"; FmtCell (selected_event sel); Lit ".csv"]
    "text/csv".

Definition summary_download (t : table) : element :=
  download_button "Download Summary Statistics" (frame_to_csv (summary_stats t))
    [Lit "sales_summary_statistics.csv"] "text/csv".

(** The rows of the (location, event type) group [(l, e)]. *)
Definition group_rows (l e : string) (t : table) : table :=
  filter (fun r => py_eqb (location r) (Str l) && py_eqb (event_type r) (Str e)) t.

(** The lines of a CSV document that start with the fields [l] and [e]. *)
Definition lines_of (l e : string) (c : csv) : list (list value) :=
  filter (fun line => match line with
                      | VStr l' :: VStr e' :: _ => String.eqb l l' && String.eqb e e'
                      | _ => false
                      end)
         c.

(** Reading a downloaded CSV document back, the way [load_data] reads
    its file: the header is skipped, each line gives a record. *)
Definition parse_line (line : list value) : option RawRecord :=
  match line with
  | [VStr a; VStr b; VStr c; VStr d; VStr e; VStr f; VStr g; VInt q] =>
      Some (mkRaw a b c d e f g q)
  | _ => None
  end.

Fixpoint parse_lines (lines : list (list value)) : option (list RawRecord) :=
  match lines with
  | [] => Some []
  | line :: lines' =>
      match parse_line line, parse_lines lines' with
      | Some r, Some rs => Some (r :: rs)
      | _, _ => None
      end
  end.

Definition read_back (c : csv) : option table :=
  match c with
  | [] => None
  | _ :: lines => option_map (map read_record) (parse_lines lines)
  end.

(** A cell that [read_csv] can produce: its text is not one of the
    texts that stand for a missing value. *)
Definition clean_cell (c : cell) : Prop :=
  match c with
  | NaN => True
  | Str s => existsb (String.eqb s) na_values = false
  end.

(** A file with a negative quantity, and a world holding it. *)
Definition negative_file : list RawRecord :=
  [ mkRaw "MEGA LDN SAT" "London" "Saturday" "Mega" "JJK" "Fish" "Bag" (-5) ].

Definition negative_world : World :=
  {| file := Some negative_file; random := fun n => Z.of_nat n; drawn := 0%nat;
     cache := None; store := []; page := [] |}.

(** The row has a text in every key column, so [groupby] keeps it. *)
Definition complete (by_ : list column) (r : Row) : bool :=
  match key_of by_ r with
  | Some _ => true
  | None => false
  end.

(** The rows with the texts [a] and [b] in the columns [c1] and [c2]. *)
Definition pair_rows (c1 c2 : column) (a b : string) (t : table) : table :=
  filter (fun r => py_eqb (get c1 r) (Str a) && py_eqb (get c2 r) (Str b)) t.

(** The six selections with the captions of their filters, in the order
    the filters are applied. *)
Definition captioned (sel : Selection) : list (string * cell) :=
  [("Location: ", selected_location sel); ("Event: ", selected_event sel);
   ("Day: ", selected_day sel); ("Series: ", selected_anime sel);
   ("Character: ", selected_character sel);
   ("Product: ", selected_product sel)]%string.

(** The captions of the selections other than 'All'. *)
Definition captions (sel : Selection) : list (list piece) :=
  map (fun cs => [Lit (fst cs); FmtCell (snd cs)])
      (filter (fun cs => negb (cell_eqb (snd cs) All)) (captioned sel)).

(** 'All' in each of the six dropdowns. *)
Definition all_selected : Selection :=
  {| selected_location := All; selected_event := All; selected_day := All;
     selected_anime := All; selected_character := All; selected_product := All |}.

(** One dropdown set to [s], the others left at 'All'.  The sheet name
    has no dropdown. *)
Definition select_only (c : column) (s : cell) : Selection :=
  {| selected_location := match c with Location => s | _ => All end;
     selected_event := match c with Event_type => s | _ => All end;
     selected_day := match c with Day => s | _ => All end;
     selected_anime := match c with Series_character => s | _ => All end;
     selected_character := match c with Character_variant => s | _ => All end;
     selected_product := match c with Product_type => s | _ => All end |}.

(** A series and one of its characters selected, the rest at 'All'. *)
Definition select_character (series variant : cell) : Selection :=
  {| selected_location := All; selected_event := All; selected_day := All;
     selected_anime := series; selected_character := variant;
     selected_product := All |}.

(** The world [w] after the CSV file was replaced by [f] (written,
    changed or removed between two runs). *)
Definition with_file (f : option (list RawRecord)) (w : World) : World :=
  {| file := f; random := random w; drawn := drawn w; cache := cache w;
     store := store w; page := page w |}.

(** The world [w] with the objects [objs] added to its store and the
    elements [es] rendered after its page. *)
Definition extend (objs : list table) (es : list element) (w : World) : World :=
  {| file := file w; random := random w; drawn := drawn w; cache := cache w;
     store := store w ++ objs; page := page w ++ es |}.

(** Run on two names of tables with equal rows, in any two worlds, the
    function has one outcome and adds the same objects and elements. *)
Definition alike (A : Type) (f : ref -> M A) : Prop :=
  forall w1 w2 d1 d2 t,
    nth_error (store w1) d1 = Some t ->
    nth_error (store w2) d2 = Some t ->
    exists o objs es,
      f d1 w1 = (o, extend objs es w1) /\ f d2 w2 = (o, extend objs es w2).

(** The exceptions a run is allowed to end with: all, or none. *)
Definition any_exception (e : exn) : bool := true.

Definition no_exception (e : exn) : bool := false.

(** An outcome that is neither [st.stop()] nor an exception outside
    [allowed]. *)
Definition gentle (allowed : exn -> bool) (A : Type) (o : outcome A) : Prop :=
  match o with
  | Ok _ => True
  | Stop => False
  | Raise e => allowed e = true
  end.

(** Started where [df] names the table [t], the computation has a gentle
    outcome and leaves the table of [df] in place. *)
Definition careful (allowed : exn -> bool) (A : Type) (df : ref) (t : table)
    (m : M A) : Prop :=
  forall w o w',
    nth_error (store w) df = Some t ->
    m w = (o, w') ->
    gentle allowed o /\ nth_error (store w') df = Some t.

(** No row misses its location, event type, day or product type. *)
Definition filled (t : table) : Prop :=
  forall r c, In r t -> In c [Location; Event_type; Day; Product_type] ->
    get c r <> NaN.

(** Every element but the page configuration. *)
Definition not_config (e : element) : bool :=
  match e with
  | set_page_config _ _ _ => false
  | _ => true
  end.



(** The third series of the demo table picked, the rest left alone. *)
Definition demo_picks_series : Picks :=
  {| pick_location := 0; pick_event := 0; pick_day := 0; pick_anime := 3;
     pick_character := 1; pick_product := 0 |}.

(** The real number a float64 result stands for; [None] is [nan].  The
    float64 computation rounds it, and rounding keeps its sign. *)
Definition sum_R (l : list R) : R := fold_right Rplus 0%R l.

Definition mean_R (l : list Z) : R :=
  (IZR (total l) / INR (List.length l))%R.

(** The sample variance ([ddof=1]). *)
Definition var_R (l : list Z) : R :=
  (sum_R (map (fun x => (IZR x - mean_R l) * (IZR x - mean_R l)) l)
   / (INR (List.length l) - 1))%R.

(** Rounding to the nearest integer, halves to the even one. *)
Definition rint (x : R) : Z :=
  if Rlt_dec (frac_part x) (1 / 2) then Int_part x
  else if Rlt_dec (1 / 2) (frac_part x) then Int_part x + 1
  else if Z.even (Int_part x) then Int_part x else Int_part x + 1.

Fixpoint real_of (f : float_expr) : option R :=
  match f with
  | mean_of l =>
      match l with
      | [] => None
      | _ :: _ => Some (mean_R l)
      end
  | std_of l =>
      if (List.length l <? 2)%nat then None else Some (sqrt (var_R l))
  | of_int z => Some (IZR z)
  | round2 f' => option_map (fun x => (IZR (rint (x * 100)) / 100)%R) (real_of f')
  end.

(** A float64 result that is a number, and at least 0. *)
Definition nonnegative (f : float_expr) : Prop :=
  exists x, real_of f = Some x /\ (0 <= x)%R.

(** The world after a first call of [load_data] without the file, and
    with the file put in place since. *)
Definition late_file_world : World :=
  with_file (Some demo_file) (snd (load_data demo_world)).

(* ===================================================================== *)
(** * Properties *)
(* ===================================================================== *)

Unset Implicit Arguments.

(** ** Equality tests *)

Lemma key_eqb_eq (a b : key) : key_eqb a b = true <-> a = b.
Proof.
  revert b; induction a as [|x a IH]; intros [|y b]; simpl; split;
    try discriminate; try reflexivity.
  - rewrite andb_true_iff, String.eqb_eq, IH. intros [-> ->]. reflexivity.
  - intros H. injection H as -> ->. rewrite String.eqb_refl.
    apply IH. reflexivity.
Qed.

Lemma key_eqb_refl (a : key) : key_eqb a a = true.
Proof. apply key_eqb_eq. reflexivity. Qed.

Lemma key_eqb_neq (a b : key) : key_eqb a b = false <-> a <> b.
Proof.
  rewrite <- key_eqb_eq. destruct (key_eqb a b); split; congruence.
Qed.

Lemma cell_eqb_eq (a b : cell) : cell_eqb a b = true <-> a = b.
Proof.
  destruct a as [x|], b as [y|]; simpl; split; try discriminate; try reflexivity.
  - intros H. apply String.eqb_eq in H. congruence.
  - intros H. injection H as ->. apply String.eqb_refl.
Qed.

Lemma py_eqb_true (a b : cell) :
  py_eqb a b = true <-> exists s, a = Str s /\ b = Str s.
Proof.
  destruct a as [x|], b as [y|]; simpl; split; try discriminate.
  - intros H. apply String.eqb_eq in H. subst. eauto.
  - intros (s & H1 & H2). injection H1 as ->. injection H2 as ->.
    apply String.eqb_refl.
  - intros (s & _ & H). discriminate.
  - intros (s & H & _). discriminate.
  - intros (s & H & _). discriminate.
Qed.

(** ** Sorting *)

Section Sorting.
Variable A : Type.
Variable le : A -> A -> bool.

Lemma insert_by_perm (x : A) (l : list A) : Permutation (x :: l) (insert_by le x l).
Proof.
  induction l as [|y l IH]; simpl.
  - apply Permutation_refl.
  - destruct (le x y).
    + apply Permutation_refl.
    + eapply perm_trans; [apply perm_swap|]. apply perm_skip, IH.
Qed.

Lemma sort_by_perm (l : list A) : Permutation l (sort_by le l).
Proof.
  induction l as [|x l IH]; simpl.
  - apply perm_nil.
  - eapply perm_trans; [apply perm_skip, IH|]. apply insert_by_perm.
Qed.

Lemma sort_by_In (l : list A) (x : A) : In x (sort_by le l) <-> In x l.
Proof.
  split; apply Permutation_in;
    [apply Permutation_sym|]; apply sort_by_perm.
Qed.

Lemma sort_by_NoDup (l : list A) : NoDup l -> NoDup (sort_by le l).
Proof. apply Permutation_NoDup, sort_by_perm. Qed.

Hypothesis le_total : forall a b, le a b = true \/ le b a = true.

Lemma insert_by_sorted (x : A) (l : list A) :
  LocallySorted (fun a b => le a b = true) l ->
  LocallySorted (fun a b => le a b = true) (insert_by le x l).
Proof.
  induction 1 as [|y|y z l Hs IH Hyz]; simpl.
  - constructor.
  - destruct (le x y) eqn:E.
    + constructor; [constructor|exact E].
    + constructor; [constructor|].
      destruct (le_total x y); congruence.
  - destruct (le x y) eqn:E.
    + constructor; [constructor; assumption|exact E].
    + simpl in IH. destruct (le x z) eqn:E'.
      * constructor; [exact IH|]. destruct (le_total x y); congruence.
      * constructor; assumption.
Qed.

Lemma sort_by_sorted (l : list A) :
  LocallySorted (fun a b => le a b = true) (sort_by le l).
Proof.
  induction l as [|x l IH]; simpl.
  - constructor.
  - apply insert_by_sorted, IH.
Qed.
End Sorting.

Lemma map_fst_sort_perm (A B : Type) (le : A * B -> A * B -> bool) (l : list (A * B)) :
  Permutation (map fst l) (map fst (sort_by le l)).
Proof. apply Permutation_map, sort_by_perm. Qed.

(** ** int64 sums *)

Lemma wrap64_add_l (a b : Z) : wrap64 (wrap64 a + b) = wrap64 (a + b).
Proof.
  unfold wrap64. f_equal.
  replace ((a + 2 ^ 63) mod 2 ^ 64 - 2 ^ 63 + b + 2 ^ 63)
    with ((a + 2 ^ 63) mod 2 ^ 64 + b) by lia.
  rewrite Zplus_mod_idemp_l. f_equal. lia.
Qed.

Lemma wrap64_small (z : Z) : - 2 ^ 63 <= z < 2 ^ 63 -> wrap64 z = z.
Proof.
  intros H. unfold wrap64. rewrite Z.mod_small; lia.
Qed.

Lemma fold_add64 (l : list Z) (a : Z) :
  fold_left add64 l (wrap64 a) = wrap64 (a + total l).
Proof.
  revert a; induction l as [|x l IH]; intros a; simpl.
  - f_equal. lia.
  - unfold add64 at 2. rewrite wrap64_add_l, IH. f_equal. lia.
Qed.

(** [sum64] is the exact sum, reduced to 64 bits. *)
Lemma sum64_total (l : list Z) : sum64 l = wrap64 (total l).
Proof.
  unfold sum64. change 0 with (wrap64 0) at 1. rewrite fold_add64. reflexivity.
Qed.

Lemma total_nonneg (l : list Z) : Forall (fun q => 0 <= q) l -> 0 <= total l.
Proof. induction 1; simpl; lia. Qed.

Lemma min_of_spec (l : list Z) :
  l <> [] -> In (min_of l) l /\ Forall (fun x => min_of l <= x) l.
Proof.
  destruct l as [|x l]; [congruence|intros _]. simpl.
  assert (G : forall l a, (fold_left Z.min l a = a \/ In (fold_left Z.min l a) l)
                          /\ fold_left Z.min l a <= a
                          /\ Forall (fun x => fold_left Z.min l a <= x) l).
  { clear. induction l as [|y l IH]; intros a; simpl.
    - repeat split; [left; reflexivity|lia|constructor].
    - destruct (IH (Z.min a y)) as (H1 & H2 & H3). repeat split.
      + destruct H1 as [H1|H1]; [|right; right; exact H1].
        rewrite H1. destruct (Z.min_spec a y) as [[_ ->]|[_ ->]]; auto.
      + lia.
      + constructor; [lia|exact H3]. }
  destruct (G l x) as (H1 & H2 & H3). split.
  - destruct H1 as [->|H1]; auto.
  - constructor; assumption.
Qed.

Lemma max_of_spec (l : list Z) :
  l <> [] -> In (max_of l) l /\ Forall (fun x => x <= max_of l) l.
Proof.
  destruct l as [|x l]; [congruence|intros _]. simpl.
  assert (G : forall l a, (fold_left Z.max l a = a \/ In (fold_left Z.max l a) l)
                          /\ a <= fold_left Z.max l a
                          /\ Forall (fun x => x <= fold_left Z.max l a) l).
  { clear. induction l as [|y l IH]; intros a; simpl.
    - repeat split; [left; reflexivity|lia|constructor].
    - destruct (IH (Z.max a y)) as (H1 & H2 & H3). repeat split.
      + destruct H1 as [H1|H1]; [|right; right; exact H1].
        rewrite H1. destruct (Z.max_spec a y) as [[_ ->]|[_ ->]]; auto.
      + lia.
      + constructor; [lia|exact H3]. }
  destruct (G l x) as (H1 & H2 & H3). split.
  - destruct H1 as [->|H1]; auto.
  - constructor; assumption.
Qed.

(** ** groupby *)

Lemma add_row_keys (k : key) (r : Row) (gs : groups) :
  map fst (add_row k r gs) =
  if existsb (key_eqb k) (map fst gs) then map fst gs else map fst gs ++ [k].
Proof.
  induction gs as [|[k' rows] gs IH]; simpl.
  - reflexivity.
  - destruct (key_eqb k k') eqn:E; simpl.
    + reflexivity.
    + rewrite IH. destruct (existsb (key_eqb k) (map fst gs)); reflexivity.
Qed.

Lemma existsb_key_In (k : key) (l : list key) :
  existsb (key_eqb k) l = true <-> In k l.
Proof.
  rewrite existsb_exists. split.
  - intros (x & H & E). apply key_eqb_eq in E. congruence.
  - intros H. exists k. split; [exact H|apply key_eqb_refl].
Qed.

Lemma add_row_NoDup (k : key) (r : Row) (gs : groups) :
  NoDup (map fst gs) -> NoDup (map fst (add_row k r gs)).
Proof.
  intros H. rewrite add_row_keys.
  destruct (existsb (key_eqb k) (map fst gs)) eqn:E; [exact H|].
  apply NoDup_rev in H. rewrite <- (rev_involutive (_ ++ _)).
  apply NoDup_rev. rewrite rev_app_distr. simpl. constructor; [|exact H].
  rewrite <- in_rev. intros Hin. apply existsb_key_In in Hin. congruence.
Qed.

Lemma add_row_In (k : key) (r : Row) (gs : groups) (k' : key) (rows' : table) :
  NoDup (map fst gs) ->
  In (k', rows') (add_row k r gs) <->
  (k' <> k /\ In (k', rows') gs) \/
  (k' = k /\ ((exists rows, In (k, rows) gs /\ rows' = rows ++ [r]) \/
              (~ In k (map fst gs) /\ rows' = [r]))).
Proof.
  induction gs as [|[k0 rows0] gs IH]; simpl; intros Hnd.
  - split.
    + intros [H|[]]. injection H as <- <-. right. split; [reflexivity|].
      right. split; [tauto|reflexivity].
    + intros [[_ []]|[-> [(rows & [] & _)|[_ ->]]]]. left. reflexivity.
  - inversion Hnd as [|? ? Hnotin Hnd']; subst.
    destruct (key_eqb k k0) eqn:E.
    + apply key_eqb_eq in E. subst k0. simpl. split.
      * intros [H|H].
        -- injection H as <- <-. right. split; [reflexivity|]. left.
           exists rows0. split; [left; reflexivity|reflexivity].
        -- left. split; [|right; exact H].
           intros ->. apply Hnotin. change k with (fst (k, rows')).
           apply in_map, H.
      * intros [[Hne [H|H]]|[-> [(rows & [H|H] & ->)|[Hn _]]]].
        -- injection H as <- _. congruence.
        -- right. exact H.
        -- injection H as <-. left. reflexivity.
        -- exfalso. apply Hnotin. change k with (fst (k, rows)).
           apply in_map, H.
        -- exfalso. apply Hn. left. reflexivity.
    + apply key_eqb_neq in E. simpl. rewrite (IH Hnd'). split.
      * intros [H|[[Hne H]|[-> [(rows & H & ->)|[Hn ->]]]]].
        -- injection H as <- <-. left. split; [congruence|left; reflexivity].
        -- left. split; [exact Hne|right; exact H].
        -- right. split; [reflexivity|]. left. exists rows.
           split; [right; exact H|reflexivity].
        -- right. split; [reflexivity|]. right. split; [|reflexivity].
           intros [H|H]; [congruence|tauto].
      * intros [[Hne [H|H]]|[-> [(rows & [H|H] & ->)|[Hn ->]]]].
        -- left. exact H.
        -- right. left. split; assumption.
        -- injection H as <- _. congruence.
        -- right. right. split; [reflexivity|]. left. exists rows. split; auto.
        -- right. right. split; [reflexivity|]. right. split; [tauto|reflexivity].
Qed.

Lemma has_key_self (by_ : list column) (k : key) (r : Row) :
  key_of by_ r = Some k -> forall k', has_key by_ k' r = key_eqb k' k.
Proof. intros H k'. unfold has_key. rewrite H. reflexivity. Qed.

Lemma has_key_none (by_ : list column) (r : Row) :
  key_of by_ r = None -> forall k, has_key by_ k r = false.
Proof. intros H k. unfold has_key. rewrite H. reflexivity. Qed.

Lemma groups_of_step (by_ : list column) (seen : table) (gs : groups) (r : Row) :
  groups_of by_ seen gs ->
  groups_of by_ (seen ++ [r])
    (match key_of by_ r with Some k => add_row k r gs | None => gs end).
Proof.
  intros [Hnd Hin]. destruct (key_of by_ r) as [k0|] eqn:Hk.
  - split; [apply add_row_NoDup, Hnd|]. intros k rows.
    rewrite add_row_In by exact Hnd. rewrite filter_app. simpl.
    rewrite (has_key_self _ _ _ Hk). split.
    + intros [[Hne H]|[-> [(rows0 & H & ->)|[Hn ->]]]].
      * apply key_eqb_neq in Hne. rewrite Hne, app_nil_r. apply Hin, H.
      * rewrite key_eqb_refl. apply Hin in H. destruct H as [_ <-].
        split; [destruct rows0; discriminate|reflexivity].
      * rewrite key_eqb_refl. split; [discriminate|].
        destruct (filter (has_key by_ k0) seen) as [|x l] eqn:F; [reflexivity|].
        exfalso. apply Hn. change k0 with (fst (k0, x :: l)). apply in_map.
        apply Hin. split; [discriminate|]. symmetry. exact F.
    + intros [Hne ->]. destruct (key_eqb k k0) eqn:E.
      * apply key_eqb_eq in E. subst k. right. split; [reflexivity|].
        destruct (filter (has_key by_ k0) seen) as [|x l] eqn:F.
        -- right. split; [|reflexivity]. intros Hn.
           apply in_map_iff in Hn. destruct Hn as ([k1 rows1] & E1 & H1).
           simpl in E1. subst k1. apply Hin in H1. destruct H1 as [H1 H2].
           congruence.
        -- left. exists (x :: l). split; [|reflexivity].
           apply Hin. split; [discriminate|]. symmetry. exact F.
      * left. rewrite app_nil_r in *. split; [apply key_eqb_neq, E|].
        apply Hin. split; [exact Hne|reflexivity].
  - split; [exact Hnd|]. intros k rows. rewrite filter_app. simpl.
    rewrite (has_key_none _ _ Hk), app_nil_r. apply Hin.
Qed.

Lemma split_groups_of (by_ : list column) (df : table) :
  groups_of by_ df (split by_ df).
Proof.
  unfold split.
  assert (G : forall l seen gs,
             groups_of by_ seen gs ->
             groups_of by_ (seen ++ l)
               (fold_left
                  (fun gs r => match key_of by_ r with
                               | Some k => add_row k r gs
                               | None => gs
                               end) l gs)).
  { induction l as [|r l IH]; intros seen gs H; simpl.
    - rewrite app_nil_r. exact H.
    - replace (seen ++ r :: l) with ((seen ++ [r]) ++ l)
        by (rewrite <- app_assoc; reflexivity).
      apply IH, groups_of_step, H. }
  apply (G df [] []). split; [constructor|].
  intros k rows. simpl. split; [tauto|]. intros [H ->]. congruence.
Qed.

(** [groupby]: one group per key present, holding the rows of that key
    in table order. *)
Lemma groupby_groups_of (by_ : list column) (df : table) :
  groups_of by_ df (groupby by_ df).
Proof.
  destruct (split_groups_of by_ df) as [Hnd Hin]. unfold groupby. split.
  - eapply Permutation_NoDup; [apply map_fst_sort_perm|exact Hnd].
  - intros k rows. rewrite sort_by_In. apply Hin.
Qed.

Lemma groupby_In (by_ : list column) (df : table) (k : key) (rows : table) :
  In (k, rows) (groupby by_ df) <->
  rows <> [] /\ rows = filter (has_key by_ k) df.
Proof. apply groupby_groups_of. Qed.

Lemma groupby_NoDup (by_ : list column) (df : table) :
  NoDup (map fst (groupby by_ df)).
Proof. apply groupby_groups_of. Qed.

Lemma filter_key_absent (A : Type) (l : list (key * A)) (k : key) :
  ~ In k (map fst l) -> filter (fun kv => key_eqb k (fst kv)) l = [].
Proof.
  induction l as [|[k0 v0] l IH]; simpl; intros H; [reflexivity|].
  destruct (key_eqb k k0) eqn:E.
  - apply key_eqb_eq in E. subst k0. tauto.
  - apply IH. tauto.
Qed.

(** In a list with distinct first components, the entries of a key. *)
Lemma filter_key_unique (A : Type) (l : list (key * A)) (k : key) (v : A) :
  NoDup (map fst l) -> In (k, v) l ->
  filter (fun kv => key_eqb k (fst kv)) l = [(k, v)].
Proof.
  induction l as [|[k0 v0] l IH]; simpl; intros Hnd Hin; [tauto|].
  inversion Hnd as [|? ? Hnotin Hnd']; subst.
  destruct Hin as [H|H].
  - injection H as -> ->. rewrite key_eqb_refl. f_equal.
    apply filter_key_absent, Hnotin.
  - destruct (key_eqb k k0) eqn:E.
    + apply key_eqb_eq in E. subst k0. exfalso. apply Hnotin.
      change k with (fst (k, v)). apply in_map, H.
    + apply IH; assumption.
Qed.

Lemma filter_map_comm (A B : Type) (f : A -> B) (p : B -> bool) (l : list A) :
  filter p (map f l) = map f (filter (fun a => p (f a)) l).
Proof.
  induction l as [|a l IH]; simpl; [reflexivity|].
  rewrite IH. destruct (p (f a)); reflexivity.
Qed.

Lemma has_key_location (g : string) (r : Row) :
  has_key [Location] [g] r = py_eqb (location r) (Str g).
Proof.
  unfold has_key. simpl. destruct (location r) as [s|]; simpl; [|reflexivity].
  rewrite andb_true_r. apply String.eqb_sym.
Qed.

Lemma groupby_key_of (by_ : list column) (df : table) (k : key) (rows : table) :
  In (k, rows) (groupby by_ df) -> exists r, In r df /\ key_of by_ r = Some k.
Proof.
  intros H. apply groupby_In in H. destruct H as [Hne ->].
  destruct (filter (has_key by_ k) df) as [|r l] eqn:F; [congruence|].
  assert (Hr : In r (filter (has_key by_ k) df)) by (rewrite F; left; reflexivity).
  apply filter_In in Hr. destruct Hr as [Hr Hk]. exists r. split; [exact Hr|].
  unfold has_key in Hk. destruct (key_of by_ r) as [k'|]; [|discriminate].
  apply key_eqb_eq in Hk. congruence.
Qed.

Lemma filter_nil_existsb (A : Type) (p : A -> bool) (l : list A) :
  existsb p l = false <-> filter p l = [].
Proof.
  induction l as [|a l IH]; simpl; [tauto|].
  destruct (p a); simpl; [split; discriminate|exact IH].
Qed.

(** The total of one location in [groupby('location')['quantity'].sum()]. *)
Lemma location_sales_entries (t : table) (g : string) :
  filter (fun kv => key_eqb [g] (fst kv)) (groupby_sum [Location] t) =
  if existsb (fun r => py_eqb (location r) (Str g)) t
  then [([g], wrap64 (total (map quantity (select_eq Location (Str g) t))))]
  else [].
Proof.
  unfold groupby_sum. rewrite filter_map_comm. cbn [fst].
  assert (E : filter (has_key [Location] [g]) t = select_eq Location (Str g) t).
  { unfold select_eq. apply filter_ext. intros r. apply has_key_location. }
  destruct (existsb (fun r => py_eqb (location r) (Str g)) t) eqn:Ex.
  - rewrite (@filter_key_unique _ _ [g] (select_eq Location (Str g) t)).
    + simpl. rewrite sum64_total. reflexivity.
    + apply groupby_NoDup.
    + apply groupby_In. rewrite E. split; [|reflexivity].
      intros Hnil. apply filter_nil_existsb in Hnil.
      unfold select_eq in Hnil. simpl in Hnil. congruence.
  - rewrite filter_key_absent; [reflexivity|].
    intros Hin. apply in_map_iff in Hin. destruct Hin as ([k rows] & Hk & Hin).
    simpl in Hk. subst k. apply groupby_In in Hin. destruct Hin as [Hne Hrows].
    rewrite E in Hrows. apply filter_nil_existsb in Ex.
    unfold select_eq in Hrows. simpl in Hrows. congruence.
Qed.

Lemma records_of_reset_index (c : column) (s : list (key * Z)) (g : string) :
  Forall (fun kv => exists x, fst kv = [x]) s ->
  records_of g (reset_index [c] s) =
  map (fun kv => map VStr (fst kv) ++ [VInt (snd kv)])
      (filter (fun kv => key_eqb [g] (fst kv)) s).
Proof.
  intros H. unfold records_of, reset_index. simpl. rewrite filter_map_comm.
  f_equal. apply filter_ext_in. intros [k v] Hin.
  rewrite Forall_forall in H. destruct (H _ Hin) as (x & Hx). simpl in *.
  subst k. simpl. rewrite andb_true_r. reflexivity.
Qed.

Lemma groupby_sum_single_key (c : column) (t : table) :
  Forall (fun kv => exists x, fst kv = [x]) (groupby_sum [c] t).
Proof.
  apply Forall_forall. intros [k v] Hin. unfold groupby_sum in Hin.
  apply in_map_iff in Hin. destruct Hin as ([k' rows] & E & Hin).
  injection E as <- _. apply groupby_key_of in Hin.
  destruct Hin as (r & _ & Hk). simpl in Hk.
  destruct (get c r) as [s|]; [|discriminate]. injection Hk as <-.
  simpl. eauto.
Qed.

(** C1.  In the figure of [create_sales_by_location] every location [g]
    that occurs in the table has exactly one bar, and its height is the
    sum of the quantities of exactly the rows whose location is [g]; a
    location that does not occur has no bar.  The sum is the int64 sum
    pandas computes: the exact sum reduced to 64 bits, hence the exact
    sum whenever that fits.  The call leaves the world as it is.  The
    same grouped series is the [location_sales] of
    [create_overview_metrics]. *)
Theorem sales_by_location_sums_matching_rows (w : World) (df : ref) (t : table) :
  nth_error (store w) df = Some t ->
  exists fig,
    create_sales_by_location df w = (Ok fig, w) /\
    data fig = reset_index [Location] (groupby_sum [Location] t) /\
    forall g : string,
      records_of g (data fig) =
        (if existsb (fun r => py_eqb (location r) (Str g)) t
         then [[VStr g; VInt (sum64 (map quantity (select_eq Location (Str g) t)))]]
         else []) /\
      sum64 (map quantity (select_eq Location (Str g) t))
        = wrap64 (total (map quantity (select_eq Location (Str g) t))) /\
      (- 2 ^ 63 <= total (map quantity (select_eq Location (Str g) t)) < 2 ^ 63 ->
       sum64 (map quantity (select_eq Location (Str g) t))
         = total (map quantity (select_eq Location (Str g) t))).
Proof.
  intros H. unfold create_sales_by_location, bind, rows_of. rewrite H.
  eexists. split; [reflexivity|]. split; [reflexivity|]. intros g.
  cbn [data update_layout px]. split; [|split].
  - rewrite records_of_reset_index by apply groupby_sum_single_key.
    rewrite location_sales_entries, sum64_total.
    destruct (existsb _ t); reflexivity.
  - apply sum64_total.
  - intros Hfit. rewrite sum64_total. apply wrap64_small, Hfit.
Qed.

Lemma sales_by_location_sums_matching_rows_witness :
  nth_error (store demo_world) 0 = Some demo_rows /\
  exists fig,
    create_sales_by_location 0%nat demo_world = (Ok fig, demo_world) /\
    data fig = reset_index [Location] (groupby_sum [Location] demo_rows) /\
    records_of "London" (data fig) = [[VStr "London"; VInt 11]].
Proof.
  split; [reflexivity|].
  destruct (sales_by_location_sums_matching_rows demo_world 0%nat demo_rows eq_refl)
    as (fig & H1 & H2 & H3).
  exists fig. split; [exact H1|]. split; [exact H2|].
  destruct (H3 "London"%string) as [H4 _]. rewrite H4. reflexivity.
Defined.

(** ** Runs of the script monad *)

Lemma bind_ok (A B : Type) (m : M A) (f : A -> M B) (w w' : World) (b : B) :
  bind m f w = (Ok b, w') ->
  exists a w1, m w = (Ok a, w1) /\ f a w1 = (Ok b, w').
Proof.
  unfold bind. destruct (m w) as [[a| |e] w1]; intros H; try discriminate.
  eauto.
Qed.

Lemma bind_run (A B : Type) (m : M A) (f : A -> M B) (w w' : World) (o : outcome B) :
  bind m f w = (o, w') ->
  (exists a w1, m w = (Ok a, w1) /\ f a w1 = (o, w')) \/
  (m w = (Stop, w') /\ o = Stop) \/
  (exists e, m w = (Raise e, w') /\ o = Raise e).
Proof.
  unfold bind. destruct (m w) as [[a| |e] w1]; intros H.
  - left. eauto.
  - injection H as <- <-. right. left. split; reflexivity.
  - injection H as <- <-. right. right. eauto.
Qed.

Section Evolution.
Variable p : element -> bool.

Lemma evolves_refl (w : World) : evolves p w w.
Proof.
  repeat split; try reflexivity.
  - exists []. symmetry. apply app_nil_r.
  - exists []. split; [symmetry; apply app_nil_r|reflexivity].
Qed.

Lemma evolves_trans (w1 w2 w3 : World) :
  evolves p w1 w2 -> evolves p w2 w3 -> evolves p w1 w3.
Proof.
  intros (F1 & R1 & D1 & C1 & (l1 & S1) & (e1 & P1 & A1))
         (F2 & R2 & D2 & C2 & (l2 & S2) & (e2 & P2 & A2)).
  repeat split; try congruence.
  - exists (l1 ++ l2). rewrite S2, S1, app_assoc. reflexivity.
  - exists (e1 ++ e2). split.
    + rewrite P2, P1, app_assoc. reflexivity.
    + rewrite forallb_app, A1, A2. reflexivity.
Qed.

Lemma evolves_lookup (w w' : World) (r : ref) (t : table) :
  evolves p w w' -> nth_error (store w) r = Some t ->
  nth_error (store w') r = Some t.
Proof.
  intros (_ & _ & _ & _ & (l & ->) & _) H.
  rewrite nth_error_app1; [exact H|].
  apply nth_error_Some. congruence.
Qed.

Lemma keeps_ret (A : Type) (a : A) : keeps p (ret a).
Proof. intros w o w' H. injection H as <- <-. apply evolves_refl. Qed.

Lemma keeps_lift (A : Type) (x : outcome A) : keeps p (lift x).
Proof. intros w o w' H. injection H as <- <-. apply evolves_refl. Qed.

Lemma keeps_raise (A : Type) (e : exn) : keeps p (raise A e).
Proof. intros w o w' H. injection H as <- <-. apply evolves_refl. Qed.

Lemma keeps_stop (A : Type) : keeps p (stop A).
Proof. intros w o w' H. injection H as <- <-. apply evolves_refl. Qed.

Lemma keeps_bind (A B : Type) (m : M A) (f : A -> M B) :
  keeps p m -> (forall a, keeps p (f a)) -> keeps p (bind m f).
Proof.
  intros Hm Hf w o w' H. apply bind_run in H.
  destruct H as [(a & w1 & H1 & H2)|[[H1 _]|(e & H1 & _)]].
  - eapply evolves_trans; [eapply Hm, H1|eapply Hf, H2].
  - eapply Hm, H1.
  - eapply Hm, H1.
Qed.

Lemma keeps_emit (e : element) : p e = true -> keeps p (emit e).
Proof.
  intros He w o w' H. injection H as <- <-. repeat split; simpl.
  - exists []. symmetry. apply app_nil_r.
  - exists [e]. split; [reflexivity|]. simpl. rewrite He. reflexivity.
Qed.

Lemma keeps_new_frame (t : table) : keeps p (new_frame t).
Proof.
  intros w o w' H. injection H as <- <-. repeat split; simpl.
  - exists [t]. reflexivity.
  - exists []. split; [symmetry; apply app_nil_r|reflexivity].
Qed.

Lemma keeps_rows_of (df : ref) : keeps p (rows_of df).
Proof.
  intros w o w' H. unfold rows_of in H.
  destruct (nth_error (store w) df); injection H as <- <-; apply evolves_refl.
Qed.
End Evolution.

Create HintDb keeps.

#[local] Hint Resolve keeps_ret keeps_lift keeps_raise keeps_stop keeps_new_frame
  keeps_rows_of : keeps.

(** Goals [keeps p m] for a script [m] built from the primitives. *)
Ltac keeps_step :=
  match goal with
  | |- keeps _ (bind _ _) => apply keeps_bind; [|intros ?]
  | |- keeps _ (emit _) => apply keeps_emit; reflexivity
  | |- keeps _ (if ?b then _ else _) => destruct b
  | |- keeps _ (match ?x with _ => _ end) => destruct x
  | |- keeps _ _ => solve [auto with keeps]
  end.

Ltac keeps_all := repeat keeps_step.

Lemma keeps_copy (p : element -> bool) (df : ref) : keeps p (copy df).
Proof. unfold copy. keeps_all. Qed.

Lemma keeps_getitem_eq p (df : ref) (c : column) (v : cell) :
  keeps p (getitem_eq df c v).
Proof. unfold getitem_eq. keeps_all. Qed.

Lemma keeps_getitem_isin p (df : ref) (c : column) (l : list cell) :
  keeps p (getitem_isin df c l).
Proof. unfold getitem_isin. keeps_all. Qed.

#[local] Hint Resolve keeps_copy keeps_getitem_eq keeps_getitem_isin : keeps.

Lemma keeps_weaken (A : Type) (p q : element -> bool) (m : M A) :
  (forall e, p e = true -> q e = true) -> keeps p m -> keeps q m.
Proof.
  intros Hpq Hm w o w' H.
  destruct (Hm _ _ _ H) as (F & R & D & C & S & (es & P & Es)).
  repeat split; try assumption. exists es. split; [exact P|].
  rewrite forallb_forall in *. auto.
Qed.

Lemma quiet_no_download (e : element) : quiet e = true -> no_download e = true.
Proof. destruct e; simpl; intros H; try reflexivity; discriminate. Qed.

(** *** The sidebar and the filters render no data *)

Lemma keeps_selectbox (label_ : string) (options : list cell) (pick : nat) :
  keeps quiet (selectbox label_ options pick).
Proof. unfold selectbox. keeps_all. Qed.

Lemma keeps_options_of (df : ref) (c : column) : keeps quiet (options_of df c).
Proof. unfold options_of. keeps_all. Qed.

Lemma keeps_present_options (values : list cell) : keeps quiet (present_options values).
Proof. unfold present_options. keeps_all. Qed.

#[local] Hint Resolve keeps_selectbox keeps_options_of keeps_present_options : keeps.

Lemma keeps_character_options (df : ref) (s : cell) :
  keeps quiet (character_options df s).
Proof. unfold character_options. keeps_all. Qed.

Lemma keeps_apply_filter (c : column) (s : cell) (caption : string)
    (st : ref * list (list piece)) :
  keeps quiet (apply_filter c s caption st).
Proof. unfold apply_filter. keeps_all. Qed.

#[local] Hint Resolve keeps_character_options keeps_apply_filter : keeps.

Lemma keeps_sidebar (df : ref) (u : Picks) : keeps quiet (sidebar df u).
Proof. unfold sidebar. keeps_all. Qed.

Lemma keeps_apply_filters (df : ref) (sel : Selection) :
  keeps quiet (apply_filters df sel).
Proof. unfold apply_filters. keeps_all. Qed.

Lemma keeps_show_active_filters (l : list (list piece)) :
  keeps quiet (show_active_filters l).
Proof. unfold show_active_filters. keeps_all. Qed.

#[local] Hint Resolve keeps_sidebar keeps_apply_filters keeps_show_active_filters : keeps.

(** *** The rendering before the export section shows no download *)

Lemma keeps_top_card (gradient heading : string) (name : key -> list piece)
    (s : list (key * Z)) :
  keeps no_download (top_card gradient heading name s).
Proof. unfold top_card. keeps_all. Qed.

#[local] Hint Resolve keeps_top_card : keeps.

Lemma keeps_create_overview_metrics (df : ref) :
  keeps no_download (create_overview_metrics df).
Proof. unfold create_overview_metrics. keeps_all. Qed.

Lemma keeps_create_sales_by_location (df : ref) :
  keeps no_download (create_sales_by_location df).
Proof. unfold create_sales_by_location. keeps_all. Qed.

Lemma keeps_create_event_comparison (df : ref) :
  keeps no_download (create_event_comparison df).
Proof. unfold create_event_comparison. keeps_all. Qed.

Lemma keeps_create_product_performance (df : ref) :
  keeps no_download (create_product_performance df).
Proof. unfold create_product_performance. keeps_all. Qed.

Lemma keeps_create_top_characters (df : ref) :
  keeps no_download (create_top_characters df).
Proof. unfold create_top_characters. keeps_all. Qed.

Lemma keeps_create_daily_performance (df : ref) :
  keeps no_download (create_daily_performance df).
Proof. unfold create_daily_performance. keeps_all. Qed.

Lemma keeps_create_character_analysis (df : ref) :
  keeps no_download (create_character_analysis df).
Proof. unfold create_character_analysis. keeps_all. Qed.

Lemma keeps_create_detailed_analysis (df : ref) :
  keeps no_download (create_detailed_analysis df).
Proof. unfold create_detailed_analysis. keeps_all. Qed.

#[local] Hint Resolve keeps_create_overview_metrics keeps_create_sales_by_location
  keeps_create_event_comparison keeps_create_product_performance
  keeps_create_top_characters keeps_create_daily_performance
  keeps_create_character_analysis keeps_create_detailed_analysis : keeps.

Lemma keeps_visualizations (df : ref) : keeps no_download (visualizations df).
Proof. unfold visualizations. keeps_all. Qed.

Lemma keeps_data_insights (df : ref) : keeps no_download (data_insights df).
Proof. unfold data_insights. keeps_all. Qed.

Lemma keeps_check_not_empty (df : ref) : keeps no_download (check_not_empty df).
Proof. unfold check_not_empty. keeps_all. Qed.

Lemma keeps_export_options (df : ref) (sel : Selection) :
  keeps any_element (export_options df sel).
Proof. unfold export_options. keeps_all. Qed.

Lemma any_element_weakest (A : Type) (p : element -> bool) (m : M A) :
  keeps p m -> keeps any_element m.
Proof. apply keeps_weaken. reflexivity. Qed.

Lemma keeps_render (filtered_df : ref) (sel : Selection) :
  keeps any_element (render filtered_df sel).
Proof.
  unfold render.
  apply keeps_bind; [eapply any_element_weakest, keeps_check_not_empty|intros _].
  apply keeps_bind; [eapply any_element_weakest, keeps_visualizations|intros _].
  apply keeps_bind; [eapply any_element_weakest, keeps_data_insights|intros _].
  apply keeps_export_options.
Qed.

(** ** load_data *)

Lemma times_S (A : Type) (l : list A) (n : nat) : times l (S n) = l ++ times l n.
Proof. reflexivity. Qed.

Lemma length_times (A : Type) (l : list A) (n : nat) :
  List.length (times l n) = (n * List.length l)%nat.
Proof.
  induction n as [|n IH]; [reflexivity|].
  rewrite times_S, length_app, IH. reflexivity.
Qed.

Lemma nth_times (A : Type) (l : list A) (n i : nat) (d : A) :
  (i < n * List.length l)%nat ->
  nth i (times l n) d = nth (i mod List.length l) l d.
Proof.
  revert i; induction n as [|n IH]; intros i Hi; [simpl in Hi; lia|].
  rewrite times_S. destruct (Nat.lt_ge_cases i (List.length l)) as [Hlt|Hge].
  - rewrite app_nth1 by exact Hlt. rewrite Nat.mod_small by exact Hlt. reflexivity.
  - rewrite app_nth2 by exact Hge. rewrite IH by (simpl in Hi; lia).
    f_equal.
    replace i with (i - List.length l + 1 * List.length l)%nat at 2 by lia.
    rewrite Nat.Div0.mod_add. reflexivity.
Qed.

Lemma sample_quantities_range (w : World) :
  List.length (sample_quantities w) = 150%nat /\
  Forall (fun q => 1 <= q <= 19) (sample_quantities w).
Proof.
  unfold sample_quantities. split.
  - rewrite length_map, length_seq. reflexivity.
  - apply Forall_forall. intros q Hq. apply in_map_iff in Hq.
    destruct Hq as (i & <- & _).
    pose proof (Z.mod_pos_bound (random w (drawn w + i)%nat) (20 - 1)). lia.
Qed.

(** The sample: 150 rows, each one of the three fixed combinations, with
    the quantity of its position. *)
Lemma sample_data_rows (quantities : list Z) :
  List.length (sample_data quantities) = 150%nat /\
  forall i, (i < 150)%nat ->
    exists r, nth_error (sample_data quantities) i = Some r /\
              nth_error sample_categories (i mod 3) = Some (categories r) /\
              quantity r = nth i quantities 0.
Proof.
  unfold sample_data, DataFrame. rewrite !length_times. simpl List.length.
  change (50 * 3)%nat with 150%nat. split.
  - reflexivity.
  - intros i Hi. rewrite nth_error_map, nth_error_seq.
    destruct (Nat.ltb_spec i 150) as [_|]; [|lia]. cbn [option_map].
    eexists. split; [reflexivity|]. unfold categories.
    cbn [map get sheet_name location day event_type series_character
         character_variant product_type quantity Nat.add].
    rewrite !nth_times by (simpl; lia). simpl List.length.
    split; [|reflexivity].
    assert (Hm : (i mod 3 < 3)%nat) by (apply Nat.mod_upper_bound; lia).
    destruct (i mod 3)%nat as [|[|[|k]]]; try reflexivity. lia.
Qed.

Lemma skipn_added (A : Type) (l es : list A) : skipn (List.length l) (l ++ es) = es.
Proof.
  rewrite skipn_app, skipn_all, Nat.sub_diag. reflexivity.
Qed.

(** What a call of [load_data] does, in each of its three situations. *)
Lemma load_data_run (w : World) :
  exists t shown,
    load_data w =
      (Ok (List.length (store w)),
       {| file := file w; random := random w;
          drawn := match cache w, file w with
                   | None, None => (drawn w + 150)%nat
                   | _, _ => drawn w
                   end;
          cache := Some (t, shown);
          store := store w ++ [t];
          page := page w ++ shown |}) /\
    match cache w, file w with
    | Some entry, _ => entry = (t, shown)
    | None, Some lines => t = map read_record lines /\ shown = []
    | None, None =>
        t = sample_data (sample_quantities w) /\
        shown = [error file_not_found_text; warning sample_data_text]
    end.
Proof.
  unfold load_data, cache_data.
  destruct (cache w) as [[t shown]|] eqn:C.
  - exists t, shown. split; [|reflexivity]. unfold new_frame. simpl. reflexivity.
  - unfold load_data_body, load_data_from, try_except, bind, read_csv.
    destruct (file w) as [lines|] eqn:F.
    + exists (map read_record lines), []. split; [|split; reflexivity].
      unfold new_frame, ret. simpl. rewrite nth_error_app2 by lia.
      rewrite Nat.sub_diag. simpl. rewrite skipn_all, app_nil_r, F.
      reflexivity.
    + exists (sample_data (sample_quantities w)),
        [error file_not_found_text; warning sample_data_text].
      split; [|split; reflexivity].
      cbn [exn_eqb emit randint new_frame ret fst snd file random drawn cache store page].
      rewrite nth_error_app2 by lia. rewrite Nat.sub_diag.
      cbn [nth_error]. rewrite <- app_assoc, skipn_added, F. reflexivity.
Qed.

Lemma nth_error_last (A : Type) (l : list A) (x : A) :
  nth_error (l ++ [x]) (List.length l) = Some x.
Proof. rewrite nth_error_app2 by lia. rewrite Nat.sub_diag. reflexivity. Qed.

Lemma sample_data_fixed (w : World) :
  Forall (fun r => In (categories r) sample_categories /\ 1 <= quantity r <= 19)
         (sample_data (sample_quantities w)).
Proof.
  destruct (sample_data_rows (sample_quantities w)) as [Hlen Hrows].
  destruct (sample_quantities_range w) as [Hq Hrange].
  apply Forall_forall. intros r Hr. apply In_nth_error in Hr.
  destruct Hr as (i & Hi).
  assert (Hlt : (i < 150)%nat).
  { rewrite <- Hlen. apply nth_error_Some. congruence. }
  destruct (Hrows i Hlt) as (r' & Hr' & Hcat & Hqty).
  assert (r' = r) by congruence. subst r'. split.
  - eapply nth_error_In. exact Hcat.
  - rewrite Hqty. rewrite Forall_forall in Hrange. apply Hrange.
    apply nth_In. lia.
Qed.

Lemma sample_quantity_drawn (w : World) (i : nat) :
  (i < 150)%nat ->
  nth i (sample_quantities w) 0 = 1 + random w (drawn w + i)%nat mod 19.
Proof.
  intros Hi. apply nth_error_nth. unfold sample_quantities.
  rewrite nth_error_map, nth_error_seq.
  destruct (Nat.ltb_spec i 150) as [_|Hge]; [reflexivity|lia].
Qed.

(** C4 (amended).  What [load_data] does depends on the cache of
    [st.cache_data] first.  With nothing cached and the CSV file
    missing, it does not fail: it shows the error and the warning,
    draws 150 numbers and returns the sample, whose row [i] holds the
    [i mod 3]-th of three fixed combinations of categorical values and
    the quantity [1 + draw_i mod 19].  With nothing cached and the file
    read by [pd.read_csv], it returns the very table that call gave and
    shows nothing.  An exception of [pd.read_csv] other than
    [FileNotFoundError] is not handled: it ends the call, no sample is
    made and nothing is cached.  With a result cached, that table is
    returned and its messages are shown again, whether the file is
    there or not. *)
Theorem load_data_substitutes_sample_for_missing_file :
  (forall w, cache w = None -> file w = None ->
     exists df t w',
       load_data w = (Ok df, w') /\
       nth_error (store w') df = Some t /\
       page w' = page w ++ [error file_not_found_text; warning sample_data_text] /\
       drawn w' = (drawn w + 150)%nat /\
       cache w' = Some (t, [error file_not_found_text; warning sample_data_text]) /\
       List.length t = 150%nat /\
       forall i, (i < 150)%nat ->
         exists r,
           nth_error t i = Some r /\
           nth_error sample_categories (i mod 3) = Some (categories r) /\
           quantity r = 1 + random w (drawn w + i)%nat mod 19 /\
           1 <= quantity r <= 19) /\
  (forall w lines, cache w = None -> file w = Some lines ->
     exists df t w0 w',
       read_csv w = (Ok df, w0) /\
       nth_error (store w0) df = Some t /\
       List.length t = List.length lines /\
       map quantity t = map raw_quantity lines /\
       load_data w = (Ok df, w') /\
       nth_error (store w') df = Some t /\
       store w' = store w0 /\
       page w' = page w /\
       drawn w' = drawn w /\
       cache w' = Some (t, [])) /\
  (forall read w e w1, cache w = None ->
     read w = (Raise e, w1) -> e <> FileNotFoundError ->
     cache_data (load_data_from read) w = (Raise e, w1)) /\
  load_data = cache_data (load_data_from read_csv) /\
  (forall w t shown, cache w = Some (t, shown) ->
     exists df w',
       load_data w = (Ok df, w') /\
       nth_error (store w') df = Some t /\
       page w' = page w ++ shown /\
       drawn w' = drawn w /\
       cache w' = cache w).
Proof.
  split; [|split; [|split; [|split]]].
  - intros w C F. destruct (load_data_run w) as (t & shown & Hrun & Hcase).
    rewrite C, F in Hrun, Hcase. destruct Hcase as [-> ->].
    eexists. eexists. eexists. split; [exact Hrun|].
    cbn [store page drawn cache].
    split; [apply nth_error_last|]. split; [reflexivity|].
    split; [reflexivity|]. split; [reflexivity|].
    destruct (sample_data_rows (sample_quantities w)) as [Hlen Hrows].
    split; [exact Hlen|]. intros i Hi.
    destruct (Hrows i Hi) as (r & Hr & Hcat & Hq).
    rewrite (sample_quantity_drawn w i Hi) in Hq.
    exists r. split; [exact Hr|]. split; [exact Hcat|]. split; [exact Hq|].
    rewrite Hq.
    pose proof (Z.mod_pos_bound (random w (drawn w + i)%nat) 19). lia.
  - intros w lines C F. destruct (load_data_run w) as (t & shown & Hrun & Hcase).
    rewrite C, F in Hrun, Hcase. destruct Hcase as [-> ->].
    exists (List.length (store w)), (map read_record lines).
    eexists. eexists.
    split; [unfold read_csv; rewrite F; reflexivity|].
    cbn [new_frame snd store page drawn cache].
    split; [apply nth_error_last|]. split; [apply length_map|].
    split; [rewrite map_map; reflexivity|]. split; [exact Hrun|].
    cbn [store page drawn cache].
    split; [apply nth_error_last|]. split; [reflexivity|].
    split; [apply app_nil_r|]. split; reflexivity.
  - intros read w e w1 C R Hne. unfold cache_data. rewrite C.
    unfold load_data_from, try_except, bind. rewrite R.
    destruct e; try reflexivity. congruence.
  - reflexivity.
  - intros w t shown C. destruct (load_data_run w) as (t' & shown' & Hrun & Hcase).
    rewrite C in Hrun, Hcase. injection Hcase as <- <-.
    eexists. eexists. split; [exact Hrun|].
    cbn [store page drawn cache].
    split; [apply nth_error_last|]. split; [reflexivity|].
    split; [reflexivity|]. symmetry. exact C.
Qed.

Lemma load_data_substitutes_sample_for_missing_file_witness :
  cache demo_world = None /\ file demo_world = None /\
  (exists df t w',
     load_data demo_world = (Ok df, w') /\
     nth_error (store w') df = Some t /\
     page w' = page demo_world ++
               [error file_not_found_text; warning sample_data_text] /\
     List.length t = 150%nat /\
     exists r, nth_error t 4 = Some r /\ quantity r = 5) /\
  cache_data (load_data_from (raise ref (OtherError "EmptyDataError"))) demo_world
  = (Raise (OtherError "EmptyDataError"), demo_world).
Proof.
  split; [reflexivity|]. split; [reflexivity|].
  destruct load_data_substitutes_sample_for_missing_file as (A & _ & D & _).
  split.
  - destruct (A demo_world eq_refl eq_refl)
      as (df & t & w' & H1 & H2 & H3 & _ & _ & H6 & H7).
    exists df, t, w'. split; [exact H1|]. split; [exact H2|].
    split; [exact H3|]. split; [exact H6|].
    destruct (H7 4%nat) as (r & Hr & _ & Hq & _); [lia|].
    exists r. split; [exact Hr|]. rewrite Hq. reflexivity.
  - apply D; [reflexivity|reflexivity|discriminate].
Defined.

(** Once the sample is cached, [load_data] goes on returning it after
    the file has been put in place: the table read from the file is not
    the one returned. *)
Lemma cached_sample_is_served_with_the_file_present :
  exists df t w' df0 t0 w0,
    cache late_file_world <> None /\
    file late_file_world = Some demo_file /\
    read_csv late_file_world = (Ok df0, w0) /\
    nth_error (store w0) df0 = Some t0 /\
    load_data late_file_world = (Ok df, w') /\
    nth_error (store w') df = Some t /\
    List.length t0 = 3%nat /\ List.length t = 150%nat.
Proof.
  destruct (read_csv late_file_world) as [o0 w0] eqn:E0.
  destruct (load_data late_file_world) as [o w'] eqn:E.
  vm_compute in E0. vm_compute in E.
  injection E0 as <- <-. injection E as <- <-.
  eexists. eexists. eexists. eexists. eexists. eexists.
  split; [vm_compute; discriminate|]. split; [reflexivity|].
  split; [reflexivity|]. split; [vm_compute; reflexivity|].
  split; [reflexivity|]. split; [vm_compute; reflexivity|].
  split; reflexivity.
Qed.

(** ** The filters of [main] *)

Lemma bind_step (A B : Type) (m : M A) (f : A -> M B) (w w1 : World) (a : A) :
  m w = (Ok a, w1) -> bind m f w = f a w1.
Proof. intros H. unfold bind. rewrite H. reflexivity. Qed.

Lemma filter_twice (A : Type) (p q : A -> bool) (l : list A) :
  filter q (filter p l) = filter (fun a => p a && q a) l.
Proof.
  induction l as [|a l IH]; simpl; [reflexivity|].
  destruct (p a); simpl; [|exact IH]. destruct (q a); rewrite IH; reflexivity.
Qed.

Lemma filter_all (A : Type) (p : A -> bool) (l : list A) :
  (forall a, In a l -> p a = true) -> filter p l = l.
Proof.
  induction l as [|a l IH]; simpl; intros H; [reflexivity|].
  rewrite (H a) by (left; reflexivity). f_equal. apply IH. auto.
Qed.

Lemma not_All_test (s : cell) : py_neqb s All = negb (cell_eqb s All).
Proof. destruct s; reflexivity. Qed.

Lemma rows_of_run (w : World) (df : ref) (t : table) :
  nth_error (store w) df = Some t -> rows_of df w = (Ok t, w).
Proof. intros H. unfold rows_of. rewrite H. reflexivity. Qed.

Lemma getitem_eq_run (w : World) (df : ref) (t : table) (c : column) (v : cell) :
  nth_error (store w) df = Some t ->
  exists w',
    getitem_eq df c v w = (Ok (List.length (store w)), w') /\
    store w' = store w ++ [select_eq c v t] /\ page w' = page w.
Proof.
  intros H. unfold getitem_eq. rewrite (@bind_step _ _ _ _ _ _ _ (@rows_of_run _ _ _ H)).
  eexists. split; [reflexivity|]. split; reflexivity.
Qed.

Lemma copy_run (w : World) (df : ref) (t : table) :
  nth_error (store w) df = Some t ->
  exists w',
    copy df w = (Ok (List.length (store w)), w') /\
    nth_error (store w') (List.length (store w)) = Some t /\
    evolves quiet w w'.
Proof.
  intros H. unfold copy. rewrite (@bind_step _ _ _ _ _ _ _ (@rows_of_run _ _ _ H)).
  eexists. split; [reflexivity|]. split; [apply nth_error_last|].
  eapply (@keeps_new_frame quiet t w). reflexivity.
Qed.

Lemma apply_filter_run (c : column) (s : cell) (caption : string)
    (st : ref * list (list piece)) (w : World) (t : table) :
  nth_error (store w) (fst st) = Some t ->
  exists st' w',
    apply_filter c s caption st w = (Ok st', w') /\
    nth_error (store w') (fst st') =
      Some (filter (fun r => cell_eqb s All || py_eqb (get c r) s) t) /\
    (fst st <= fst st')%nat /\
    evolves quiet w w'.
Proof.
  intros H.
  assert (K : exists st' w', apply_filter c s caption st w = (Ok st', w') /\
              nth_error (store w') (fst st') =
                Some (filter (fun r => cell_eqb s All || py_eqb (get c r) s) t) /\
              (fst st <= fst st')%nat).
  { unfold apply_filter. rewrite not_All_test.
    destruct (cell_eqb s All) eqn:E; simpl.
    - exists st, w. split; [reflexivity|]. split; [|lia]. rewrite H. f_equal.
      symmetry. apply filter_all. reflexivity.
    - destruct (@getitem_eq_run _ _ _ c s H) as (w' & Hrun & Hst & _).
      rewrite (@bind_step _ _ _ _ _ _ _ Hrun). eexists. eexists. split; [reflexivity|].
      simpl. split; [rewrite Hst; apply nth_error_last|].
      apply Nat.lt_le_incl, nth_error_Some. congruence. }
  destruct K as (st' & w' & Hrun & Hlook & Hle). exists st', w'.
  split; [exact Hrun|]. split; [exact Hlook|]. split; [exact Hle|].
  eapply keeps_apply_filter, Hrun.
Qed.


(** Lines 386-407 as a whole: the view is a new object holding the
    matching rows, and the table it is made from is not touched. *)
Lemma apply_filters_run (w : World) (df : ref) (t : table) (sel : Selection) :
  nth_error (store w) df = Some t ->
  exists filtered_df active_filters w',
    apply_filters df sel w = (Ok (filtered_df, active_filters), w') /\
    nth_error (store w') filtered_df = Some (filter (matches sel) t) /\
    (df < filtered_df)%nat /\
    evolves quiet w w'.
Proof.
  intros H. unfold apply_filters.
  destruct (@copy_run _ _ _ H) as (w0 & R0 & L0 & E0).
  rewrite (@bind_step _ _ _ _ _ _ _ R0).
  destruct (@apply_filter_run Location (selected_location sel) "Location: "
              (List.length (store w), []) _ _ L0) as (s1 & w1 & R1 & L1 & O1 & E1).
  rewrite (@bind_step _ _ _ _ _ _ _ R1).
  destruct (@apply_filter_run Event_type (selected_event sel) "Event: " s1 _ _ L1)
    as (s2 & w2 & R2 & L2 & O2 & E2).
  rewrite (@bind_step _ _ _ _ _ _ _ R2).
  destruct (@apply_filter_run Day (selected_day sel) "Day: " s2 _ _ L2)
    as (s3 & w3 & R3 & L3 & O3 & E3).
  rewrite (@bind_step _ _ _ _ _ _ _ R3).
  destruct (@apply_filter_run Series_character (selected_anime sel) "Series: " s3 _ _ L3)
    as (s4 & w4 & R4 & L4 & O4 & E4).
  rewrite (@bind_step _ _ _ _ _ _ _ R4).
  destruct (@apply_filter_run Character_variant (selected_character sel)
              "Character: " s4 _ _ L4) as (s5 & w5 & R5 & L5 & O5 & E5).
  rewrite (@bind_step _ _ _ _ _ _ _ R5).
  destruct (@apply_filter_run Product_type (selected_product sel) "Product: " s5 _ _ L5)
    as ([f6 a6] & w6 & R6 & L6 & O6 & E6).
  exists f6, a6, w6. split; [exact R6|]. split; [|split].
  - simpl in L6. rewrite L6. f_equal. rewrite !filter_twice.
    apply filter_ext. intros r. unfold matches. simpl.
    rewrite andb_true_r, !andb_assoc. reflexivity.
  - assert (df < List.length (store w))%nat by (apply nth_error_Some; congruence).
    simpl in *. lia.
  - repeat (eapply evolves_trans; [eassumption|]). apply evolves_refl.
Qed.



(** ** The run of [main] up to the filtered view *)

Lemma consistent_loaded (w : World) (t : table) (shown : list element) :
  consistent w ->
  match cache w, file w with
  | Some entry, _ => entry = (t, shown)
  | None, Some lines => t = map read_record lines /\ shown = []
  | None, None =>
      t = sample_data (sample_quantities w) /\
      shown = [error file_not_found_text; warning sample_data_text]
  end ->
  loaded t /\
  (shown = [] \/ shown = [error file_not_found_text; warning sample_data_text]).
Proof.
  unfold consistent. destruct (cache w) as [[t0 s0]|].
  - intros H E. injection E as <- <-. exact H.
  - intros _. destruct (file w) as [lines|]; intros [-> ->].
    + split; [left; eauto|left; reflexivity].
    + split; [right; eauto|right; reflexivity].
Qed.

Lemma emit_step (B : Type) (e : element) (f : unit -> M B) (w : World) :
  bind (emit e) f w = f tt (rendering [e] w).
Proof. reflexivity. Qed.

Lemma keeps_after_load (df : ref) (u : Picks) :
  keeps quiet
    (sel <- sidebar df u ;;
     st <- apply_filters df sel ;;
     show_active_filters (snd st) ;;
     ret (fst st, sel)).
Proof. keeps_all. Qed.

(** The steps of [filtered_view]: the header, the load, and then a part
    that only adds objects and elements that show no data. *)
Lemma filtered_view_run (u : Picks) (w w' : World) (o : outcome (ref * Selection)) :
  consistent w ->
  filtered_view u w = (o, w') ->
  exists t shown w1,
    loaded t /\
    nth_error (store w1) (List.length (store w)) = Some t /\
    store w1 = store w ++ [t] /\
    cache w1 = Some (t, shown) /\
    page w1 = page w ++
      markdown [Lit "<h1 class='main-header'>Convention Sales Dashboard</h1>"]
      :: shown /\
    forallb quiet shown = true /\
    evolves quiet w1 w'.
Proof.
  intros Hc H. unfold filtered_view in H.
  rewrite emit_step in H.
  set (w0 := rendering
               [markdown [Lit "<h1 class='main-header'>Convention Sales Dashboard</h1>"]] w)
    in *.
  destruct (load_data_run w0) as (t & shown & Hrun & Hcase).
  match type of Hrun with _ = (_, ?W) => set (w1 := W) in * end.
  rewrite (@bind_step _ _ _ _ _ _ _ Hrun) in H.
  destruct (@consistent_loaded w0 t shown Hc Hcase) as [Hl Hs].
  exists t, shown, w1. split; [exact Hl|].
  split; [apply (nth_error_last _ (store w) t)|].
  split; [reflexivity|]. split; [reflexivity|].
  split; [cbn [page w1 w0 rendering]; rewrite <- app_assoc; reflexivity|].
  split; [destruct Hs as [->| ->]; reflexivity|].
  eapply keeps_after_load, H.
Qed.

(** C3.  When the filtered view of a run has no row, [main] renders the
    warning and stops: the run ends with [st.stop()], the warning is the
    last element on the page, and no element rendered in the run shows
    data (no metric card, metric, table, chart or download button). *)
Theorem empty_view_warns_and_stops (u : Picks) (w w1 : World) (filtered_df : ref)
    (sel : Selection) :
  consistent w ->
  filtered_view u w = (Ok (filtered_df, sel), w1) ->
  nth_error (store w1) filtered_df = Some [] ->
  main u w = (Stop, rendering [warning no_match_text] w1) /\
  exists added,
    page (rendering [warning no_match_text] w1)
      = page w ++ added ++ [warning no_match_text] /\
    forallb quiet (added ++ [warning no_match_text]) = true.
Proof.
  intros Hc Hv He. split.
  - unfold main. rewrite (@bind_step _ _ _ _ _ _ _ Hv). cbn [fst snd].
    unfold render, check_not_empty.
    unfold bind at 1 2. rewrite (rows_of_run _ _ _ He). reflexivity.
  - destruct (filtered_view_run u _ _ _ Hc Hv)
      as (t & shown & w0 & _ & _ & _ & _ & Hp & Hq & Hev).
    destruct Hev as (_ & _ & _ & _ & _ & (es & Hes & Hqs)).
    exists (markdown [Lit "<h1 class='main-header'>Convention Sales Dashboard</h1>"]
              :: shown ++ es).
    split.
    + cbn [page rendering]. rewrite Hes, Hp.
      rewrite <- !app_assoc. f_equal. cbn [app]. f_equal.
      apply app_assoc.
    + rewrite forallb_app. cbn [forallb]. rewrite forallb_app, Hq, Hqs.
      reflexivity.
Qed.

Lemma empty_view_warns_and_stops_witness :
  consistent demo_file_world /\
  exists filtered_df sel w1,
    filtered_view demo_picks_nothing demo_file_world = (Ok (filtered_df, sel), w1) /\
    nth_error (store w1) filtered_df = Some [] /\
    main demo_picks_nothing demo_file_world
      = (Stop, rendering [warning no_match_text] w1).
Proof.
  split; [exact I|].
  destruct (filtered_view demo_picks_nothing demo_file_world) as [[[f s]| |e] w1] eqn:E;
    try (vm_compute in E; discriminate).
  exists f, s, w1. split; [reflexivity|].
  assert (He : nth_error (store w1) f = Some []).
  { vm_compute in E. injection E as <- _ <-. reflexivity. }
  split; [exact He|].
  apply (@empty_view_warns_and_stops demo_picks_nothing demo_file_world w1 f s I E He).
Defined.

(** ** The chart functions *)

(** C7.  Each of the five chart functions returns a figure that depends
    on the rows of its table only: called in any two worlds, on any two
    names, for tables with equal rows, it returns the same figure, and
    it leaves each world exactly as it found it. *)
Theorem chart_functions_are_pure (f : ref -> M figure) (w1 w2 : World)
    (df1 df2 : ref) (t : table) :
  In f chart_functions ->
  nth_error (store w1) df1 = Some t ->
  nth_error (store w2) df2 = Some t ->
  exists fig, f df1 w1 = (Ok fig, w1) /\ f df2 w2 = (Ok fig, w2).
Proof.
  intros Hf H1 H2. unfold chart_functions in Hf. simpl in Hf.
  destruct Hf as [<-|[<-|[<-|[<-|[<-|[]]]]]].
  - unfold create_sales_by_location, bind.
    rewrite (rows_of_run _ _ _ H1), (rows_of_run _ _ _ H2).
    eexists. split; reflexivity.
  - unfold create_event_comparison, bind.
    rewrite (rows_of_run _ _ _ H1), (rows_of_run _ _ _ H2).
    eexists. split; reflexivity.
  - unfold create_product_performance, bind.
    rewrite (rows_of_run _ _ _ H1), (rows_of_run _ _ _ H2).
    eexists. split; reflexivity.
  - unfold create_top_characters, bind.
    rewrite (rows_of_run _ _ _ H1), (rows_of_run _ _ _ H2).
    eexists. split; reflexivity.
  - unfold create_daily_performance, bind.
    rewrite (rows_of_run _ _ _ H1), (rows_of_run _ _ _ H2).
    eexists. split; reflexivity.
Qed.

Lemma chart_functions_are_pure_witness :
  In create_top_characters chart_functions /\
  nth_error (store demo_world) 0 = Some demo_rows /\
  nth_error (store demo_other_world) 1 = Some demo_rows /\
  exists fig,
    create_top_characters 0%nat demo_world = (Ok fig, demo_world) /\
    create_top_characters 1%nat demo_other_world = (Ok fig, demo_other_world).
Proof.
  assert (Hin : In create_top_characters chart_functions).
  { right. right. right. left. reflexivity. }
  split; [exact Hin|]. split; [reflexivity|]. split; [reflexivity|].
  exact (chart_functions_are_pure create_top_characters demo_world demo_other_world
           0%nat 1%nat demo_rows Hin eq_refl eq_refl).
Defined.

(** ** The options of the dropdowns *)

Lemma existsb_cell_In (c : cell) (l : list cell) :
  existsb (cell_eqb c) l = true <-> In c l.
Proof.
  rewrite existsb_exists. split.
  - intros (x & H & E). apply cell_eqb_eq in E. congruence.
  - intros H. exists c. split; [exact H|]. apply cell_eqb_eq. reflexivity.
Qed.

Lemma unique_aux_In (l seen : list cell) (c : cell) :
  In c (unique_aux seen l) <-> In c l /\ ~ In c seen.
Proof.
  revert seen; induction l as [|x l IH]; intros seen; simpl; [tauto|].
  destruct (existsb (cell_eqb x) seen) eqn:E.
  - apply existsb_cell_In in E. rewrite IH. split.
    + intros [H1 H2]. tauto.
    + intros [[->|H1] H2]; [contradiction|tauto].
  - assert (Hx : ~ In x seen).
    { intros H. apply existsb_cell_In in H. congruence. }
    simpl. rewrite IH. simpl. split.
    + intros [->|[H1 H2]]; [tauto|]. split; [tauto|]. tauto.
    + intros [[->|H1] H2]; [tauto|].
      destruct (cell_eqb x c) eqn:Exc.
      * apply cell_eqb_eq in Exc. tauto.
      * right. split; [exact H1|]. intros [->|H]; [|contradiction].
        assert (cell_eqb c c = true) by (apply cell_eqb_eq; reflexivity).
        congruence.
Qed.

Lemma unique_aux_NoDup (l seen : list cell) : NoDup (unique_aux seen l).
Proof.
  revert seen; induction l as [|x l IH]; intros seen; simpl; [constructor|].
  destruct (existsb (cell_eqb x) seen); [apply IH|].
  constructor; [|apply IH]. rewrite unique_aux_In. simpl. tauto.
Qed.

Lemma unique_In (l : list cell) (c : cell) : In c (unique l) <-> In c l.
Proof. unfold unique. rewrite unique_aux_In. simpl. tauto. Qed.

Lemma unique_NoDup (l : list cell) : NoDup (unique l).
Proof. apply unique_aux_NoDup. Qed.

Lemma cell_leb_total (a b : cell) : cell_leb a b = true \/ cell_leb b a = true.
Proof.
  destruct a as [x|], b as [y|]; simpl; auto. apply String.leb_total.
Qed.


(** Sorting a list that holds no missing value never fails. *)
Lemma sorted_present (l : list cell) :
  existsb is_nan l = false -> sorted l = Ok (sort_by cell_leb l).
Proof. intros H. unfold sorted. rewrite H. reflexivity. Qed.

Lemma truthy_not_nan_present (l : list cell) :
  existsb is_nan (filter truthy_not_nan l) = false.
Proof.
  induction l as [|c l IH]; simpl; [reflexivity|].
  destruct c as [s|]; simpl; [|exact IH].
  destruct (negb (String.eqb s "") && negb (String.eqb s "nan")); simpl; exact IH.
Qed.

(** The test of the comprehension on cells. *)
Lemma present_values_cells (l : list cell) :
  present_values l = filter truthy_not_nan l.
Proof.
  unfold present_values. apply filter_ext. intros [s|]; cbn.
  - reflexivity.
  - reflexivity.
Qed.

(** [present_options] never fails; it offers 'All' and then, in
    increasing order and once each, the values that pass the test. *)
Lemma present_options_run (values : list cell) (w : World) :
  present_options values w
    = (Ok (All :: sort_by cell_leb (filter truthy_not_nan values)), w).
Proof.
  unfold present_options, bind, lift. rewrite present_values_cells.
  rewrite sorted_present by apply truthy_not_nan_present. reflexivity.
Qed.

Lemma get_in_categories (c : column) (r : Row) : In (get c r) (categories r).
Proof. unfold categories. destruct c; simpl; tauto. Qed.

Lemma sample_data_categories (quantities : list Z) (r : Row) :
  In r (sample_data quantities) -> In (categories r) sample_categories.
Proof.
  intros Hr. destruct (sample_data_rows quantities) as [Hlen Hrows].
  apply In_nth_error in Hr. destruct Hr as (i & Hi).
  assert (Hlt : (i < 150)%nat).
  { rewrite <- Hlen. apply nth_error_Some. congruence. }
  destruct (Hrows i Hlt) as (r' & Hr' & Hcat & _).
  assert (r' = r) by congruence. subst r'.
  eapply nth_error_In. exact Hcat.
Qed.


(** ** The sidebar as a whole *)

Lemma options_of_ok_run (df : ref) (c : column) (w w' : World) (opts : list cell)
    (t : table) :
  nth_error (store w) df = Some t ->
  options_of df c w = (Ok opts, w') ->
  w' = w /\ opts = All :: sort_by cell_leb (unique (col c t)).
Proof.
  intros H. unfold options_of.
  rewrite (@bind_step _ _ _ _ _ _ _ (rows_of_run _ _ _ H)).
  unfold bind, lift, ret, sorted.
  destruct (existsb is_nan (unique (col c t)) && existsb is_str (unique (col c t)));
    intros E; [discriminate|].
  injection E as <- <-. split; reflexivity.
Qed.

Lemma selectbox_run (label_ : string) (opts : list cell) (pick : nat) (w : World) :
  selectbox label_ opts pick w
  = (Ok (nth pick opts (List.hd NaN opts)),
     rendering [sidebar_selectbox label_ opts] w).
Proof. unfold selectbox. rewrite emit_step. reflexivity. Qed.

(** The options of the character dropdown; a series other than 'All'
    costs one new object, the rows of that series. *)
Lemma character_options_run (df : ref) (s : cell) (w : World) (t : table) :
  nth_error (store w) df = Some t ->
  character_options df s w
  = (Ok (All :: sort_by cell_leb
                  (filter truthy_not_nan
                     (unique (col Character_variant
                                (if py_neqb s All
                                 then select_eq Series_character s t else t))))),
     if py_neqb s All
     then snd (new_frame (select_eq Series_character s t) w) else w).
Proof.
  intros H. unfold character_options. destruct (py_neqb s All).
  - destruct (getitem_eq_run _ _ _ Series_character s H) as (w1 & R & S & P).
    assert (E : w1 = snd (new_frame (select_eq Series_character s t) w)).
    { unfold getitem_eq in R.
      rewrite (@bind_step _ _ _ _ _ _ _ (rows_of_run _ _ _ H)) in R.
      injection R as <-. reflexivity. }
    rewrite (@bind_step _ _ _ _ _ _ _ R).
    assert (L : nth_error (store w1) (List.length (store w))
                = Some (select_eq Series_character s t)).
    { rewrite S. apply nth_error_last. }
    rewrite (@bind_step _ _ _ _ _ _ _ (rows_of_run _ _ _ L)).
    rewrite present_options_run, E. reflexivity.
  - rewrite (@bind_step _ _ _ _ _ _ _ (rows_of_run _ _ _ H)).
    apply present_options_run.
Qed.

(** What a run of the sidebar that returns has selected and rendered. *)
Lemma sidebar_run (df : ref) (u : Picks) (w w' : World) (sel : Selection)
    (t : table) :
  nth_error (store w) df = Some t ->
  sidebar df u w = (Ok sel, w') ->
  let options := fun c => All :: sort_by cell_leb (unique (col c t)) in
  let series :=
    All :: sort_by cell_leb (filter truthy_not_nan (unique (col Series_character t))) in
  let anime := nth (pick_anime u) series All in
  let of_series :=
    if py_neqb anime All then select_eq Series_character anime t else t in
  let variants :=
    All :: sort_by cell_leb
             (filter truthy_not_nan (unique (col Character_variant of_series))) in
  sel = {| selected_location := nth (pick_location u) (options Location) All;
           selected_event := nth (pick_event u) (options Event_type) All;
           selected_day := nth (pick_day u) (options Day) All;
           selected_anime := anime;
           selected_character := nth (pick_character u) variants All;
           selected_product := nth (pick_product u) (options Product_type) All |} /\
  page w' = page w ++
    [sidebar_header "Filters";
     sidebar_selectbox "Select Location" (options Location);
     sidebar_selectbox "Select Event Type" (options Event_type);
     sidebar_selectbox "Select Day" (options Day);
     sidebar_selectbox "Select Anime/Series" series;
     sidebar_selectbox "Select Character" variants;
     sidebar_selectbox "Select Product Type" (options Product_type)] /\
  store w' = store w ++
    (if py_neqb anime All then [select_eq Series_character anime t] else []).
Proof.
  intros Ht H. cbv zeta. unfold sidebar in H. rewrite emit_step in H.
  apply bind_ok in H. destruct H as (o1 & w1 & E & H).
  apply options_of_ok_run with (t := t) in E; [|exact Ht]. destruct E as [-> ->].
  rewrite (@bind_step _ _ _ _ _ _ _ (selectbox_run _ _ _ _)) in H.
  apply bind_ok in H. destruct H as (o2 & w2 & E & H).
  apply options_of_ok_run with (t := t) in E; [|exact Ht]. destruct E as [-> ->].
  rewrite (@bind_step _ _ _ _ _ _ _ (selectbox_run _ _ _ _)) in H.
  apply bind_ok in H. destruct H as (o3 & w3 & E & H).
  apply options_of_ok_run with (t := t) in E; [|exact Ht]. destruct E as [-> ->].
  rewrite (@bind_step _ _ _ _ _ _ _ (selectbox_run _ _ _ _)) in H.
  match type of H with
  | bind (rows_of df) _ ?W = _ =>
      rewrite (@bind_step _ _ _ _ _ _ _ (rows_of_run W df t Ht)) in H
  end.
  rewrite (@bind_step _ _ _ _ _ _ _ (present_options_run _ _)) in H.
  rewrite (@bind_step _ _ _ _ _ _ _ (selectbox_run _ _ _ _)) in H.
  match type of H with
  | bind (character_options df ?a) _ ?W = _ =>
      rewrite (@bind_step _ _ _ _ _ _ _ (character_options_run df a W t Ht)) in H
  end.
  rewrite (@bind_step _ _ _ _ _ _ _ (selectbox_run _ _ _ _)) in H.
  cbn [List.hd] in H.
  match type of H with
  | context [py_neqb ?a All] => destruct (py_neqb a All) eqn:N
  end.
  - apply bind_ok in H. destruct H as (o6 & w6 & E & H).
    apply options_of_ok_run with (t := t) in E.
    + destruct E as [-> ->].
      rewrite (@bind_step _ _ _ _ _ _ _ (selectbox_run _ _ _ _)) in H.
      unfold ret in H. injection H as <- <-.
      cbn [List.hd page store rendering new_frame snd].
      split; [reflexivity|]. split; [|reflexivity].
      rewrite <- !app_assoc. reflexivity.
    + cbn [store rendering new_frame snd]. rewrite nth_error_app1; [exact Ht|].
      apply nth_error_Some. congruence.
  - apply bind_ok in H. destruct H as (o6 & w6 & E & H).
    apply options_of_ok_run with (t := t) in E; [|exact Ht].
    destruct E as [-> ->].
    rewrite (@bind_step _ _ _ _ _ _ _ (selectbox_run _ _ _ _)) in H.
    unfold ret in H. injection H as <- <-.
    cbn [List.hd page store rendering].
    split; [reflexivity|]. split; [|symmetry; apply app_nil_r].
    rewrite <- !app_assoc. reflexivity.
Qed.







(** A column with a missing value next to a text breaks its dropdown. *)
Lemma options_of_mixed_column (w : World) (df : ref) (t : table) (c : column) (s : string) :
  nth_error (store w) df = Some t ->
  In NaN (col c t) -> In (Str s) (col c t) ->
  options_of df c w = (Raise TypeError, w).
Proof.
  intros H Hn Hs. unfold options_of.
  rewrite (@bind_step _ _ _ _ _ _ _ (rows_of_run _ _ _ H)).
  unfold bind, lift, sorted.
  assert (E1 : existsb is_nan (unique (col c t)) = true).
  { apply existsb_exists. exists NaN. split; [apply unique_In, Hn|reflexivity]. }
  assert (E2 : existsb is_str (unique (col c t)) = true).
  { apply existsb_exists. exists (Str s). split; [apply unique_In, Hs|reflexivity]. }
  rewrite E1, E2. reflexivity.
Qed.

(** A column of missing values only: the missing value is offered. *)
Lemma options_of_missing_column (w : World) (df : ref) (t : table) (c : column) :
  nth_error (store w) df = Some t ->
  t <> [] -> (forall r, In r t -> get c r = NaN) ->
  options_of df c w = (Ok [All; NaN], w).
Proof.
  intros H Hne Hall. unfold options_of.
  rewrite (@bind_step _ _ _ _ _ _ _ (rows_of_run _ _ _ H)).
  assert (E : unique (col c t) = [NaN]).
  { destruct t as [|r t]; [congruence|]. unfold unique, col. simpl.
    rewrite (Hall r) by (left; reflexivity). simpl. f_equal.
    assert (G : forall l, (forall x, In x l -> get c x = NaN) ->
                          unique_aux [NaN] (map (get c) l) = []).
    { induction l as [|x l IH]; intros Hl; simpl; [reflexivity|].
      rewrite (Hl x) by (left; reflexivity). simpl. apply IH.
      intros y Hy. apply Hl. right. exact Hy. }
    apply G. intros x Hx. apply Hall. right. exact Hx. }
  rewrite E. reflexivity.
Qed.

(** C5 (the code departs from the claim).  With a file whose location
    column has an empty field next to 'London', [main] ends with a
    [TypeError] raised by [sorted] while the location options are built:
    the page holds the header and the sidebar header and no dropdown at
    all.  The series and character dropdowns drop missing values; the
    location, event type, day and product type dropdowns do not. *)
Theorem missing_location_breaks_the_dropdowns :
  exists w',
    main demo_picks_all gap_world = (Raise TypeError, w') /\
    page w' = [main_header; sidebar_header "Filters"] /\
    col Location (map read_record gap_file) = [NaN; Str "London"].
Proof.
  eexists. split; [vm_compute; reflexivity|]. split; reflexivity.
Qed.

(** ** The loaded table during and after a run *)

Lemma evolves_weaken (p q : element -> bool) (w w' : World) :
  (forall e, p e = true -> q e = true) -> evolves p w w' -> evolves q w w'.
Proof.
  intros Hpq (F & R & D & C & S & (es & P & Es)).
  repeat split; try assumption. exists es. split; [exact P|].
  rewrite forallb_forall in *. auto.
Qed.

(** The load at the start of [filtered_view], and what runs after it. *)
Lemma filtered_view_load (u : Picks) (w w' : World) (o : outcome (ref * Selection)) :
  filtered_view u w = (o, w') ->
  exists t shown w1,
    load_data (rendering [main_header] w) = (Ok (List.length (store w)), w1) /\
    nth_error (store w1) (List.length (store w)) = Some t /\
    store w1 = store w ++ [t] /\
    cache w1 = Some (t, shown) /\
    match cache w, file w with
    | Some entry, _ => entry = (t, shown)
    | None, Some lines => t = map read_record lines /\ shown = []
    | None, None =>
        t = sample_data (sample_quantities w) /\
        shown = [error file_not_found_text; warning sample_data_text]
    end /\
    (sel <- sidebar (List.length (store w)) u ;;
     st <- apply_filters (List.length (store w)) sel ;;
     show_active_filters (snd st) ;;
     ret (fst st, sel)) w1 = (o, w').
Proof.
  intros H. unfold filtered_view in H. rewrite emit_step in H.
  fold main_header in H.
  destruct (load_data_run (rendering [main_header] w)) as (t & shown & Hrun & Hcase).
  match type of Hrun with _ = (_, ?W) => set (w1 := W) in * end.
  rewrite (@bind_step _ _ _ _ _ _ _ Hrun) in H.
  exists t, shown, w1. split; [exact Hrun|].
  split; [apply (nth_error_last _ (store w) t)|].
  split; [reflexivity|]. split; [reflexivity|]. split; [exact Hcase|exact H].
Qed.

(** When [filtered_view] returns, the loaded table is where the load put
    it, and the view is another object that holds the matching rows. *)
Lemma filtered_view_result (u : Picks) (w w' : World) (filtered_df : ref)
    (sel : Selection) :
  filtered_view u w = (Ok (filtered_df, sel), w') ->
  exists t,
    nth_error (store w') (List.length (store w)) = Some t /\
    nth_error (store w') filtered_df = Some (filter (matches sel) t) /\
    (List.length (store w) < filtered_df)%nat.
Proof.
  intros H. destruct (filtered_view_load u w w' _ H)
    as (t & shown & w1 & _ & Ht & _ & _ & _ & Hrest).
  apply bind_ok in Hrest. destruct Hrest as (sel' & w2 & Hside & Hrest).
  apply bind_ok in Hrest. destruct Hrest as (st & w3 & Hfil & Hrest).
  apply bind_ok in Hrest. destruct Hrest as ([] & w4 & Hshow & Hrest).
  injection Hrest as <- <- <-.
  assert (Ht2 : nth_error (store w2) (List.length (store w)) = Some t).
  { eapply evolves_lookup; [eapply keeps_sidebar, Hside|exact Ht]. }
  destruct (apply_filters_run w2 _ t sel' Ht2) as (f & a & w3' & R & L & O & E).
  rewrite R in Hfil. injection Hfil as <- <-. cbn [fst snd] in *.
  pose proof (keeps_show_active_filters _ _ _ _ Hshow) as E4.
  exists t. split; [|split; [|exact O]].
  - eapply evolves_lookup; [exact E4|].
    eapply evolves_lookup; [exact E|exact Ht2].
  - eapply evolves_lookup; [exact E4|exact L].
Qed.

Lemma keeps_rest_of_main (df : ref) (u : Picks) :
  keeps any_element
    (r <- (sel <- sidebar df u ;;
           st <- apply_filters df sel ;;
           show_active_filters (snd st) ;;
           ret (fst st, sel)) ;;
     render (fst r) (snd r)).
Proof.
  apply keeps_bind.
  - eapply any_element_weakest, keeps_after_load.
  - intros r. apply keeps_render.
Qed.

(** A run of [main]: the load, then a part that only adds objects and
    elements. *)
Lemma main_load (u : Picks) (w w' : World) (o : outcome unit) :
  main u w = (o, w') ->
  exists t shown w1,
    load_data (rendering [main_header] w) = (Ok (List.length (store w)), w1) /\
    nth_error (store w1) (List.length (store w)) = Some t /\
    store w1 = store w ++ [t] /\
    cache w1 = Some (t, shown) /\
    match cache w, file w with
    | Some entry, _ => entry = (t, shown)
    | None, Some lines => t = map read_record lines /\ shown = []
    | None, None =>
        t = sample_data (sample_quantities w) /\
        shown = [error file_not_found_text; warning sample_data_text]
    end /\
    evolves any_element w1 w'.
Proof.
  intros H. unfold main in H.
  destruct (filtered_view u w) as [o1 w2] eqn:Hv.
  destruct (filtered_view_load u w w2 o1 Hv)
    as (t & shown & w1 & Hl & Ht & Hs & Hc & Hcase & Hrest).
  exists t, shown, w1. repeat (split; [assumption|]).
  eapply (keeps_rest_of_main (List.length (store w)) u w1 o w').
  unfold bind at 1. rewrite Hrest.
  unfold bind in H. rewrite Hv in H. exact H.
Qed.

(** A cache entry made by [load_data] stays one: every world reached by
    runs of [main] from a world without cache entry is consistent. *)
Lemma main_keeps_consistent (u : Picks) (w w' : World) (o : outcome unit) :
  consistent w -> main u w = (o, w') -> consistent w'.
Proof.
  intros Hc H.
  destruct (main_load u w w' o H) as (t & shown & w1 & _ & _ & _ & Hc1 & Hcase & Hev).
  destruct Hev as (_ & _ & _ & Hcache & _).
  unfold consistent. rewrite Hcache, Hc1.
  exact (consistent_loaded w t shown Hc Hcase).
Qed.

(** C6.  A run of [main], whatever its outcome, leaves the table it
    loaded as it was at load time, and every object that existed before
    the run as well; the next run loads a table with the same rows.  The
    filtered view is an object of its own, different from the loaded
    table. *)
Theorem main_leaves_the_loaded_table_unchanged (u : Picks) (w w' : World)
    (o : outcome unit) :
  main u w = (o, w') ->
  exists df t w1,
    load_data (rendering [main_header] w) = (Ok df, w1) /\
    nth_error (store w1) df = Some t /\
    nth_error (store w') df = Some t /\
    (forall r x, nth_error (store w) r = Some x -> nth_error (store w') r = Some x) /\
    (exists df2 w2, load_data w' = (Ok df2, w2) /\ nth_error (store w2) df2 = Some t) /\
    (forall filtered_df sel w2,
        filtered_view u w = (Ok (filtered_df, sel), w2) ->
        filtered_df <> df /\
        nth_error (store w2) filtered_df = Some (filter (matches sel) t)).
Proof.
  intros H.
  assert (Hload := main_load u w w' o H).
  destruct Hload as (t & shown & w1 & Hl & Ht & Hs & Hc & _ & Hev).
  exists (List.length (store w)), t, w1.
  split; [exact Hl|]. split; [exact Ht|].
  split; [eapply evolves_lookup; [exact Hev|exact Ht]|].
  split; [|split].
  - intros r x Hr. eapply evolves_lookup; [exact Hev|].
    rewrite Hs. rewrite nth_error_app1; [exact Hr|].
    apply nth_error_Some. congruence.
  - destruct (load_data_run w') as (t2 & shown2 & Hrun & Hcase).
    destruct Hev as (_ & _ & _ & Hcache & _).
    rewrite Hcache, Hc in Hcase. injection Hcase as <- <-.
    eexists. eexists. split; [exact Hrun|]. cbn [store]. apply nth_error_last.
  - intros f sel w2 Hv.
    destruct (filtered_view_result u w w2 f sel Hv) as (t' & Ht' & Hf & Hlt).
    destruct (filtered_view_load u w w2 _ Hv)
      as (t0 & shown0 & w0 & Hl0 & Ht0 & _ & _ & _ & Hrest).
    rewrite Hl in Hl0. injection Hl0 as <-.
    assert (t0 = t) by congruence. subst t0.
    assert (Ht2 : nth_error (store w2) (List.length (store w)) = Some t).
    { eapply evolves_lookup; [eapply keeps_after_load, Hrest|exact Ht]. }
    assert (t' = t) by congruence. subst t'.
    split; [lia|exact Hf].
Qed.

Lemma main_leaves_the_loaded_table_unchanged_witness :
  exists o w',
    main demo_picks_london demo_file_world = (o, w') /\
    exists df t w1,
      load_data (rendering [main_header] demo_file_world) = (Ok df, w1) /\
      nth_error (store w1) df = Some t /\
      nth_error (store w') df = Some t /\
      (exists df2 w2, load_data w' = (Ok df2, w2) /\ nth_error (store w2) df2 = Some t).
Proof.
  destruct (main demo_picks_london demo_file_world) as [o w'] eqn:E.
  exists o, w'. split; [reflexivity|].
  destruct (main_leaves_the_loaded_table_unchanged demo_picks_london
              demo_file_world w' o E) as (df & t & w1 & H1 & H2 & H3 & _ & H5 & _).
  exists df, t, w1. repeat (split; [assumption|]). exact H5.
Defined.

(** ** The downloads *)

Lemma read_cell_clean_cell (s : string) : clean_cell (read_cell s).
Proof.
  unfold read_cell. destruct (existsb (String.eqb s) na_values) eqn:E; simpl.
  - exact I.
  - exact E.
Qed.

Lemma loaded_clean_cell (t : table) (r : Row) (c : column) :
  loaded t -> In r t -> clean_cell (get c r).
Proof.
  intros [(lines & ->)|(q & ->)] Hr.
  - apply in_map_iff in Hr. destruct Hr as (raw & <- & _).
    destruct c; apply read_cell_clean_cell.
  - pose proof (sample_data_categories q r Hr) as Hc.
    pose proof (get_in_categories c r) as Hg.
    revert Hc Hg. generalize (get c r) (categories r). intros x cats.
    unfold sample_categories. simpl.
    intros [<-|[<-|[<-|[]]]]; simpl; intros H;
      repeat (destruct H as [<-|H]; [reflexivity|]); destruct H.
Qed.

Lemma field_read_back (c : cell) :
  clean_cell c ->
  match field c with VStr s => read_cell s = c | _ => False end.
Proof.
  destruct c as [s|]; unfold field, clean_cell; intros H.
  - unfold read_cell. rewrite H. reflexivity.
  - reflexivity.
Qed.

Lemma csv_line_read_back (r : Row) :
  (forall c, clean_cell (get c r)) ->
  option_map read_record (parse_line (csv_line r)) = Some r.
Proof.
  intros H. destruct r as [a b c d e f g q]. unfold csv_line. cbn [map get app].
  pose proof (field_read_back _ (H Sheet_name)) as H1.
  pose proof (field_read_back _ (H Location)) as H2.
  pose proof (field_read_back _ (H Day)) as H3.
  pose proof (field_read_back _ (H Event_type)) as H4.
  pose proof (field_read_back _ (H Series_character)) as H5.
  pose proof (field_read_back _ (H Character_variant)) as H6.
  pose proof (field_read_back _ (H Product_type)) as H7.
  cbn [get sheet_name location day event_type series_character character_variant
       product_type] in *.
  destruct (field a); try contradiction. destruct (field b); try contradiction.
  destruct (field c); try contradiction. destruct (field d); try contradiction.
  destruct (field e); try contradiction. destruct (field f); try contradiction.
  destruct (field g); try contradiction.
  simpl. unfold read_record. simpl. congruence.
Qed.

(** Reading the filtered rows download back gives the view again. *)
Lemma to_csv_read_back (t : table) :
  (forall r c, In r t -> clean_cell (get c r)) ->
  read_back (to_csv t) = Some t.
Proof.
  intros H. unfold read_back, to_csv.
  induction t as [|r t IH]; [reflexivity|].
  cbn [map parse_lines].
  pose proof (csv_line_read_back r (fun c => H r c (or_introl eq_refl))) as Hr.
  destruct (parse_line (csv_line r)) as [raw|]; [|discriminate].
  simpl in Hr. injection Hr as Hr.
  assert (IH' : option_map (map read_record) (parse_lines (map csv_line t)) = Some t).
  { apply IH. intros r' c Hin. apply H. right. exact Hin. }
  destruct (parse_lines (map csv_line t)) as [raws|]; [|discriminate].
  simpl in *. injection IH' as IH'. rewrite Hr, IH'. reflexivity.
Qed.

Lemma rows_of_ok (df : ref) (w w' : World) (t : table) :
  rows_of df w = (Ok t, w') -> w' = w /\ nth_error (store w) df = Some t.
Proof.
  unfold rows_of. destruct (nth_error (store w) df) as [t0|]; intros H.
  - injection H as <- <-. split; reflexivity.
  - discriminate.
Qed.

Lemma no_download_filter (es : list element) :
  forallb no_download es = true -> filter is_download es = [].
Proof.
  induction es as [|e es IH]; simpl; [reflexivity|].
  unfold no_download at 1. destruct (is_download e); simpl; [discriminate|exact IH].
Qed.

Lemma quiet_forallb_no_download (es : list element) :
  forallb quiet es = true -> forallb no_download es = true.
Proof.
  rewrite !forallb_forall. intros H e He. apply quiet_no_download, H, He.
Qed.

(** A run of [render] that reaches its end: the view has rows, and the
    page gains elements that are no downloads, then the two downloads. *)
Lemma render_run (filtered_df : ref) (sel : Selection) (w1 w' : World) :
  render filtered_df sel w1 = (Ok tt, w') ->
  exists t es,
    nth_error (store w1) filtered_df = Some t /\
    page w' = page w1 ++ es ++ [filtered_download t sel; summary_download t] /\
    forallb no_download es = true.
Proof.
  intros H. unfold render in H.
  apply bind_ok in H. destruct H as ([] & w2 & Hcheck & H).
  apply bind_ok in H. destruct H as ([] & w3 & Hvis & H).
  apply bind_ok in H. destruct H as ([] & w4 & Hins & H).
  unfold check_not_empty in Hcheck. apply bind_ok in Hcheck.
  destruct Hcheck as (t & w1' & Hrows & Hcheck).
  apply rows_of_ok in Hrows. destruct Hrows as [-> Ht].
  destruct t as [|r t]; [discriminate|]. injection Hcheck as <-.
  pose proof (keeps_visualizations _ _ _ _ Hvis) as Ev.
  pose proof (keeps_data_insights _ _ _ _ Hins) as Ei.
  pose proof (evolves_trans _ _ _ _ Ev Ei) as E.
  assert (Ht4 : nth_error (store w4) filtered_df = Some (r :: t)).
  { eapply evolves_lookup; [exact E|exact Ht]. }
  destruct E as (_ & _ & _ & _ & _ & (es & Hes & Hnd)).
  unfold export_options in H. rewrite !emit_step in H.
  rewrite (@bind_step _ _ _ _ _ _ _
             (rows_of_run
                (rendering [st_columns 2]
                   (rendering
                      [markdown [Lit "<h2 class='section-header'>Export Options</h2>"]]
                      w4))
                filtered_df (r :: t) Ht4)) in H.
  rewrite emit_step in H. injection H as <-.
  exists (r :: t),
    (es ++ [markdown [Lit "<h2 class='section-header'>Export Options</h2>"];
            st_columns 2]).
  split; [exact Ht|]. split.
  - cbn [page rendering]. rewrite Hes. rewrite <- !app_assoc. reflexivity.
  - rewrite forallb_app, Hnd. reflexivity.
Qed.

Lemma has_key_location_event (l e : string) (r : Row) :
  has_key [Location; Event_type] [l; e] r
  = py_eqb (location r) (Str l) && py_eqb (event_type r) (Str e).
Proof.
  unfold has_key. simpl.
  destruct (location r) as [a|], (event_type r) as [b|]; simpl;
    try reflexivity.
  - rewrite andb_true_r, (String.eqb_sym l a), (String.eqb_sym e b). reflexivity.
  - rewrite andb_false_r. reflexivity.
Qed.

(** The line of one (location, event type) group in the summary. *)
Lemma summary_lines (t : table) (l e : string) :
  lines_of l e (records (summary_stats t)) =
  match group_rows l e t with
  | [] => []
  | _ :: _ =>
      [[VStr l; VStr e;
        VInt (wrap64 (total (map quantity (group_rows l e t))));
        VFloat (round2 (mean_of (map quantity (group_rows l e t))));
        VFloat (round2 (std_of (map quantity (group_rows l e t))));
        VInt (min_of (map quantity (group_rows l e t)));
        VInt (max_of (map quantity (group_rows l e t)))]]
  end.
Proof.
  unfold lines_of, summary_stats. cbn [records]. rewrite filter_map_comm.
  assert (E : filter (has_key [Location; Event_type] [l; e]) t = group_rows l e t).
  { unfold group_rows. apply filter_ext. intros r. apply has_key_location_event. }
  rewrite filter_ext_in with (g := fun g : key * table => key_eqb [l; e] (fst g)).
  2:{ intros [k rows] Hin.
      apply groupby_key_of in Hin. destruct Hin as (r & _ & Hk). simpl in Hk.
      destruct (location r) as [a|]; [|discriminate].
      destruct (event_type r) as [b|]; [|discriminate].
      injection Hk as <-. simpl. rewrite andb_true_r. reflexivity. }
  destruct (group_rows l e t) as [|r0 rows0] eqn:G.
  - rewrite filter_key_absent; [reflexivity|].
    intros Hin. apply in_map_iff in Hin. destruct Hin as ([k rows] & Hk & Hin).
    simpl in Hk. subst k. apply groupby_In in Hin. destruct Hin as [Hne Hrows].
    rewrite E in Hrows. congruence.
  - rewrite (filter_key_unique _ _ [l; e] (r0 :: rows0)).
    + cbn [map fst snd app]. rewrite sum64_total. reflexivity.
    + apply groupby_NoDup.
    + apply groupby_In. rewrite E. split; [discriminate|reflexivity].
Qed.

(** C8.  A run of [main] that reaches its end renders exactly two
    download buttons, both made from the filtered view of that run.  The
    first holds the view written as CSV: after the header one line per
    row, in order, and reading it back gives the view again.  The second
    holds the summary: for each (location, event type) pair with rows in
    the view one line with the sum, the rounded mean and standard
    deviation, the least and the greatest quantity of those rows; for a
    pair without rows no line. *)
Theorem downloads_serialize_the_filtered_view (u : Picks) (w w' : World) :
  consistent w ->
  main u w = (Ok tt, w') ->
  exists filtered_df sel w1 t added,
    filtered_view u w = (Ok (filtered_df, sel), w1) /\
    nth_error (store w1) filtered_df = Some t /\
    page w' = page w ++ added /\
    filter is_download added = [filtered_download t sel; summary_download t] /\
    List.tl (to_csv t) = map csv_line t /\
    read_back (to_csv t) = Some t /\
    forall l e,
      lines_of l e (List.tl (frame_to_csv (summary_stats t))) =
        match group_rows l e t with
        | [] => []
        | _ :: _ =>
            [[VStr l; VStr e;
              VInt (wrap64 (total (map quantity (group_rows l e t))));
              VFloat (round2 (mean_of (map quantity (group_rows l e t))));
              VFloat (round2 (std_of (map quantity (group_rows l e t))));
              VInt (min_of (map quantity (group_rows l e t)));
              VInt (max_of (map quantity (group_rows l e t)))]]
        end /\
      (group_rows l e t <> [] ->
       In (min_of (map quantity (group_rows l e t))) (map quantity (group_rows l e t)) /\
       Forall (fun x => min_of (map quantity (group_rows l e t)) <= x)
              (map quantity (group_rows l e t)) /\
       In (max_of (map quantity (group_rows l e t))) (map quantity (group_rows l e t)) /\
       Forall (fun x => x <= max_of (map quantity (group_rows l e t)))
              (map quantity (group_rows l e t))).
Proof.
  intros Hc H. unfold main in H. apply bind_ok in H.
  destruct H as ([f sel] & w1 & Hv & Hr). cbn [fst snd] in Hr.
  destruct (render_run f sel w1 w' Hr) as (tv & es & Htv & Hpage & Hes).
  destruct (filtered_view_run u w w1 _ Hc Hv)
    as (t & shown & w0 & Hl & Ht & _ & _ & Hp0 & Hq & Hev).
  destruct (filtered_view_result u w w1 f sel Hv) as (t' & Ht' & Hf & _).
  assert (t' = t).
  { pose proof (evolves_lookup _ _ _ _ _ Hev Ht). congruence. }
  subst t'. assert (tv = filter (matches sel) t) by congruence.
  destruct Hev as (_ & _ & _ & _ & _ & (es0 & Hes0 & Hq0)).
  exists f, sel, w1, tv, ([main_header] ++ shown ++ es0 ++ es ++
                          [filtered_download tv sel; summary_download tv]).
  split; [exact Hv|]. split; [exact Htv|]. split; [|split; [|split; [|split]]].
  - rewrite Hpage, Hes0, Hp0. unfold main_header.
    rewrite <- !app_assoc. reflexivity.
  - rewrite !filter_app.
    rewrite (no_download_filter shown) by (apply quiet_forallb_no_download, Hq).
    rewrite (no_download_filter es0) by (apply quiet_forallb_no_download, Hq0).
    rewrite (no_download_filter es) by exact Hes. reflexivity.
  - reflexivity.
  - apply to_csv_read_back. intros r c Hin. subst tv.
    apply filter_In in Hin. apply (loaded_clean_cell t r c Hl). apply Hin.
  - intros l e. split.
    + unfold frame_to_csv. cbn [List.tl]. apply summary_lines.
    + intros Hne.
      assert (Hq' : map quantity (group_rows l e tv) <> []).
      { destruct (group_rows l e tv); [congruence|discriminate]. }
      destruct (min_of_spec _ Hq') as [M1 M2].
      destruct (max_of_spec _ Hq') as [M3 M4].
      repeat split; assumption.
Qed.

Lemma downloads_serialize_the_filtered_view_witness :
  consistent demo_file_world /\
  exists w' filtered_df sel w1 t added,
    main demo_picks_london demo_file_world = (Ok tt, w') /\
    filtered_view demo_picks_london demo_file_world = (Ok (filtered_df, sel), w1) /\
    nth_error (store w1) filtered_df = Some t /\
    page w' = page demo_file_world ++ added /\
    filter is_download added = [filtered_download t sel; summary_download t] /\
    read_back (to_csv t) = Some t.
Proof.
  split; [exact I|].
  destruct (main demo_picks_london demo_file_world) as [[[]| |e] w'] eqn:E;
    try (vm_compute in E; discriminate).
  destruct (downloads_serialize_the_filtered_view demo_picks_london
              demo_file_world w' I E)
    as (f & sel & w1 & t & added & H1 & H2 & H3 & H4 & _ & H6 & _).
  exists w', f, sel, w1, t, added. repeat (split; [first [reflexivity|assumption]|]).
  exact H6.
Defined.

(** ** Quantities *)

Lemma Forall_filter_keep (A : Type) (P : A -> Prop) (p : A -> bool) (l : list A) :
  Forall P l -> Forall P (filter p l).
Proof.
  rewrite !Forall_forall. intros H a Ha. apply filter_In in Ha. apply H, Ha.
Qed.

Lemma sum64_nonneg (l : list Z) :
  Forall (fun q => 0 <= q) l -> total l < 2 ^ 63 -> 0 <= sum64 l.
Proof.
  intros H Hlt. rewrite sum64_total. pose proof (total_nonneg l H).
  rewrite wrap64_small; lia.
Qed.

(** The quantities of a CSV file are taken as they are. *)
Lemma csv_quantity_is_not_checked :
  exists df w' t r,
    load_data negative_world = (Ok df, w') /\
    nth_error (store w') df = Some t /\
    In r t /\ quantity r < 0.
Proof.
  eexists. eexists. eexists. eexists.
  split; [reflexivity|]. split; [reflexivity|].
  split; [left; reflexivity|]. simpl. lia.
Qed.

(** A sum of non-negative int64 quantities can wrap around. *)
Example sum64_wraps : sum64 [2 ^ 62; 2 ^ 62] = - 2 ^ 63.
Proof. reflexivity. Qed.

Lemma mean_nonnegative (l : list Z) :
  Forall (fun q => 0 <= q) l -> l <> [] -> nonnegative (mean_of l).
Proof.
  intros H Hne. exists (mean_R l). split.
  - destruct l; [congruence|reflexivity].
  - unfold mean_R, Rdiv. apply Rmult_le_pos.
    + apply IZR_le, total_nonneg, H.
    + left. apply Rinv_0_lt_compat, lt_0_INR.
      destruct l; [congruence|simpl; lia].
Qed.

Lemma Int_part_nonneg (x : R) : (0 <= x)%R -> 0 <= Int_part x.
Proof.
  intros Hx. destruct (base_Int_part x) as [_ H].
  assert (Hlt : (IZR (-1) < IZR (Int_part x))%R) by (simpl; lra).
  apply lt_IZR in Hlt. lia.
Qed.

Lemma rint_nonneg (x : R) : (0 <= x)%R -> 0 <= rint x.
Proof.
  intros Hx. pose proof (Int_part_nonneg x Hx). unfold rint.
  destruct (Rlt_dec (frac_part x) (1 / 2)); [lia|].
  destruct (Rlt_dec (1 / 2) (frac_part x)); [lia|].
  destruct (Z.even (Int_part x)); lia.
Qed.

(** Rounding to two decimals keeps a number at least 0 so. *)
Lemma round2_nonnegative (f : float_expr) :
  nonnegative f -> nonnegative (round2 f).
Proof.
  intros (x & Hx & H0). eexists. split; [cbn [real_of]; rewrite Hx; reflexivity|].
  unfold Rdiv. apply Rmult_le_pos.
  - apply IZR_le, rint_nonneg. apply Rmult_le_pos; [exact H0|lra].
  - lra.
Qed.

(** The standard deviation of at least two numbers is at least 0; of
    fewer it is [nan]. *)
Lemma std_nonnegative (l : list Z) :
  ((List.length l < 2)%nat /\ real_of (std_of l) = None) \/
  ((2 <= List.length l)%nat /\ nonnegative (std_of l)).
Proof.
  cbn [real_of]. unfold nonnegative. cbn [real_of].
  destruct (Nat.ltb_spec (List.length l) 2) as [Hlt|Hge].
  - left. split; [exact Hlt|reflexivity].
  - right. split; [exact Hge|]. eexists. split; [reflexivity|apply sqrt_pos].
Qed.

Example std_of_one_row_is_missing : real_of (std_of [4]) = None.
Proof. reflexivity. Qed.

(** C9 (amended).  The sample table has every quantity between 1 and
    19.  A table read from the CSV file has the quantities of the file,
    whatever they are.  When every row of a table has a quantity of at
    least 0, so has every row of each filtered view, and the least, the
    greatest, the mean (also rounded to two decimals) and, as long as
    the exact total stays below 2^63, the summed quantity of each group
    and of the whole table are at least 0.  The standard deviation of a
    group is at least 0, also rounded, when the group has two rows or
    more, and missing otherwise. *)
Theorem quantities_stay_nonnegative :
  (forall w, cache w = None -> file w = None ->
     exists df w' t,
       load_data w = (Ok df, w') /\ nth_error (store w') df = Some t /\
       Forall (fun r => 1 <= quantity r <= 19) t) /\
  (forall w lines, cache w = None -> file w = Some lines ->
     exists df w' t,
       load_data w = (Ok df, w') /\ nth_error (store w') df = Some t /\
       map quantity t = map raw_quantity lines) /\
  (forall t, Forall (fun r => 0 <= quantity r) t ->
     (forall sel, Forall (fun r => 0 <= quantity r) (filter (matches sel) t)) /\
     (forall by_ k rows, In (k, rows) (groupby by_ t) ->
        0 <= min_of (map quantity rows) /\
        0 <= max_of (map quantity rows) /\
        (total (map quantity rows) < 2 ^ 63 -> 0 <= sum64 (map quantity rows))) /\
     (total (map quantity t) < 2 ^ 63 -> 0 <= sum64 (map quantity t)) /\
     (forall by_ k rows, In (k, rows) (groupby by_ t) ->
        nonnegative (mean_of (map quantity rows)) /\
        nonnegative (round2 (mean_of (map quantity rows))) /\
        (((List.length rows < 2)%nat /\
          real_of (std_of (map quantity rows)) = None) \/
         ((2 <= List.length rows)%nat /\
          nonnegative (std_of (map quantity rows)) /\
          nonnegative (round2 (std_of (map quantity rows)))))) /\
     (t <> [] -> nonnegative (mean_of (map quantity t)))).
Proof.
  split; [|split].
  - intros w C F. destruct (load_data_run w) as (t & shown & Hrun & Hcase).
    rewrite C, F in Hcase. destruct Hcase as [-> _].
    eexists. eexists. eexists. split; [exact Hrun|].
    split; [apply nth_error_last|].
    eapply Forall_impl; [|apply sample_data_fixed]. intros r [_ H]. exact H.
  - intros w lines C F. destruct (load_data_run w) as (t & shown & Hrun & Hcase).
    rewrite C, F in Hcase. destruct Hcase as [-> _].
    eexists. eexists. eexists. split; [exact Hrun|].
    split; [apply nth_error_last|]. rewrite map_map. reflexivity.
  - intros t Ht. split; [|split; [|split; [|split]]].
    + intros sel. apply Forall_filter_keep, Ht.
    + intros by_ k rows Hin. apply groupby_In in Hin. destruct Hin as [Hne Hrows].
      assert (Hq : Forall (fun q => 0 <= q) (map quantity rows)).
      { rewrite Hrows. apply Forall_map, Forall_filter_keep, Ht. }
      assert (Hne' : map quantity rows <> []).
      { destruct rows; [congruence|discriminate]. }
      destruct (min_of_spec _ Hne') as [M1 _].
      destruct (max_of_spec _ Hne') as [M2 _].
      rewrite Forall_forall in Hq.
      split; [apply Hq, M1|]. split; [apply Hq, M2|].
      intros Hlt. apply sum64_nonneg; [|exact Hlt].
      apply Forall_forall. exact Hq.
    + intros Hlt. apply sum64_nonneg; [|exact Hlt]. apply Forall_map, Ht.
    + intros by_ k rows Hin. apply groupby_In in Hin. destruct Hin as [Hne Hrows].
      assert (Hq : Forall (fun q => 0 <= q) (map quantity rows)).
      { rewrite Hrows. apply Forall_map, Forall_filter_keep, Ht. }
      assert (Hne' : map quantity rows <> []).
      { destruct rows; [congruence|discriminate]. }
      pose proof (mean_nonnegative _ Hq Hne') as Hm.
      split; [exact Hm|]. split; [apply round2_nonnegative, Hm|].
      destruct (std_nonnegative (map quantity rows)) as [[Hl Hs]|[Hl Hs]];
        rewrite length_map in Hl.
      * left. split; assumption.
      * right. split; [exact Hl|]. split; [exact Hs|].
        apply round2_nonnegative, Hs.
    + intros Hne. apply mean_nonnegative; [apply Forall_map, Ht|].
      destruct t; [congruence|discriminate].
Qed.

Lemma quantities_stay_nonnegative_witness :
  Forall (fun r => 0 <= quantity r) demo_rows /\
  Forall (fun r => 0 <= quantity r) (filter (matches demo_selection) demo_rows) /\
  0 <= sum64 (map quantity demo_rows) /\
  nonnegative (mean_of (map quantity demo_rows)) /\
  exists df w' t,
    load_data demo_world = (Ok df, w') /\ nth_error (store w') df = Some t /\
    Forall (fun r => 1 <= quantity r <= 19) t.
Proof.
  assert (H : Forall (fun r => 0 <= quantity r) demo_rows).
  { repeat constructor; simpl; lia. }
  destruct quantities_stay_nonnegative as (S1 & _ & S3).
  destruct (S3 demo_rows H) as (F1 & _ & F3 & _ & F5).
  split; [exact H|]. split; [apply F1|].
  split; [apply F3; vm_compute; reflexivity|].
  split; [apply F5; discriminate|].
  apply (S1 demo_world eq_refl eq_refl).
Defined.

(* ===================================================================== *)
(** * Further properties of the code *)
(* ===================================================================== *)

(** ** groupby as a whole *)

Lemma add_row_rows (k : key) (r : Row) (gs : groups) :
  Permutation (List.concat (map snd (add_row k r gs)))
              (r :: List.concat (map snd gs)).
Proof.
  induction gs as [|[k' rows] gs IH]; simpl.
  - apply Permutation_refl.
  - destruct (key_eqb k k'); simpl.
    + rewrite <- app_assoc. simpl. apply Permutation_sym, Permutation_middle.
    + eapply perm_trans; [apply Permutation_app_head, IH|].
      apply Permutation_sym, Permutation_middle.
Qed.

Lemma split_rows (by_ : list column) (df : table) :
  Permutation (List.concat (map snd (split by_ df))) (filter (complete by_) df).
Proof.
  unfold split.
  assert (G : forall l gs,
             Permutation
               (List.concat
                  (map snd
                     (fold_left
                        (fun gs r => match key_of by_ r with
                                     | Some k => add_row k r gs
                                     | None => gs
                                     end) l gs)))
               (List.concat (map snd gs) ++ filter (complete by_) l)).
  { induction l as [|r l IH]; intros gs; simpl.
    - rewrite app_nil_r. apply Permutation_refl.
    - eapply perm_trans; [apply IH|]. unfold complete at 2.
      destruct (key_of by_ r) as [k|].
      + eapply perm_trans; [apply Permutation_app_tail, add_row_rows|].
        simpl. apply Permutation_middle.
      + apply Permutation_refl. }
  apply (G df []).
Qed.

Lemma concat_perm (A : Type) (l l' : list (list A)) :
  Permutation l l' -> Permutation (List.concat l) (List.concat l').
Proof.
  induction 1 as [|x l l' _ IH|x y l|l l' l'' _ IH1 _ IH2]; simpl.
  - apply perm_nil.
  - apply Permutation_app_head, IH.
  - rewrite !app_assoc. apply Permutation_app_tail, Permutation_app_comm.
  - eapply perm_trans; eassumption.
Qed.

(** The rows of all groups together are the complete rows of the table. *)
Lemma groupby_rows (by_ : list column) (df : table) :
  Permutation (List.concat (map snd (groupby by_ df))) (filter (complete by_) df).
Proof.
  eapply perm_trans; [|apply split_rows].
  apply concat_perm, Permutation_map, Permutation_sym, sort_by_perm.
Qed.

Lemma total_perm (l l' : list Z) : Permutation l l' -> total l = total l'.
Proof.
  induction 1 as [|x l l' _ IH|x y l|l l' l'' _ IH1 _ IH2]; simpl; lia.
Qed.

Lemma total_app (l l' : list Z) : total (l ++ l') = total l + total l'.
Proof. induction l as [|x l IH]; simpl; lia. Qed.

Lemma wrap64_add_r (a b : Z) : wrap64 (a + wrap64 b) = wrap64 (a + b).
Proof. rewrite (Z.add_comm a), wrap64_add_l, Z.add_comm. reflexivity. Qed.

Lemma sum64_of_group_sums (gs : groups) :
  sum64 (map (fun g => sum64 (map quantity (snd g))) gs)
  = sum64 (map quantity (List.concat (map snd gs))).
Proof.
  rewrite !sum64_total. induction gs as [|[k rows] gs IH]; simpl; [reflexivity|].
  rewrite map_app, total_app, sum64_total.
  rewrite wrap64_add_l, <- wrap64_add_r, IH, wrap64_add_r. reflexivity.
Qed.

(** X1.  Whatever the key columns, the totals of the groups of
    [groupby(...)['quantity'].sum()] add up (as int64 sum) to the total
    quantity of the rows that have a text in every key column; a row
    lies in the group of a key exactly when that key is its own, so a
    row with a missing key cell lies in no group and every other row in
    exactly one. *)
Theorem grouped_totals_add_up (by_ : list column) (t : table) :
  sum64 (map snd (groupby_sum by_ t))
  = sum64 (map quantity (filter (complete by_) t)) /\
  NoDup (map fst (groupby by_ t)) /\
  forall r k rows,
    In r t -> In (k, rows) (groupby by_ t) ->
    (In r rows <-> key_of by_ r = Some k).
Proof.
  split; [|split].
  - unfold groupby_sum. rewrite map_map. cbn [snd].
    rewrite sum64_of_group_sums, !sum64_total. f_equal.
    apply total_perm, Permutation_map, groupby_rows.
  - apply groupby_NoDup.
  - intros r k rows Hr Hin. apply groupby_In in Hin. destruct Hin as [_ ->].
    rewrite filter_In. unfold has_key. split.
    + intros [_ H]. destruct (key_of by_ r) as [k'|]; [|discriminate].
      apply key_eqb_eq in H. congruence.
    + intros ->. split; [exact Hr|apply key_eqb_refl].
Qed.

Lemma key_leb_total (a b : key) : key_leb a b = true \/ key_leb b a = true.
Proof.
  revert b; induction a as [|x a IH]; intros [|y b]; simpl; auto.
  rewrite (String.compare_antisym y x).
  destruct (String.compare x y); simpl; auto.
Qed.

Lemma LocallySorted_map (A B : Type) (f : A -> B) (R : B -> B -> Prop) (l : list A) :
  LocallySorted (fun a b => R (f a) (f b)) l -> LocallySorted R (map f l).
Proof.
  induction 1; simpl; constructor; assumption.
Qed.

Lemma complete_key_of (by_ : list column) (r : Row) :
  complete by_ r = true <-> exists k, key_of by_ r = Some k.
Proof.
  unfold complete. destruct (key_of by_ r) as [k|]; split.
  - eauto.
  - reflexivity.
  - discriminate.
  - intros [k H]. discriminate.
Qed.

(** X2.  The keys of [groupby] are pairwise different, come in
    increasing (tuple) order, and are exactly the keys of the rows that
    have a text in every key column; each group holds the rows of its
    key in table order and is never empty, so there are at most as many
    groups as rows with a complete key. *)
Theorem groupby_keys_are_the_distinct_keys (by_ : list column) (t : table) :
  NoDup (map fst (groupby by_ t)) /\
  LocallySorted (fun a b => key_leb a b = true) (map fst (groupby by_ t)) /\
  (forall k, In k (map fst (groupby by_ t)) <->
             exists r, In r t /\ key_of by_ r = Some k) /\
  (forall k rows, In (k, rows) (groupby by_ t) ->
                  rows <> [] /\ rows = filter (has_key by_ k) t) /\
  (List.length (groupby by_ t) <= List.length (filter (complete by_) t))%nat.
Proof.
  split; [apply groupby_NoDup|]. split; [|split; [|split]].
  - unfold groupby. apply LocallySorted_map.
    apply (sort_by_sorted _ (fun a b : key * table => key_leb (fst a) (fst b))).
    intros a b. apply key_leb_total.
  - intros k. rewrite in_map_iff. split.
    + intros ([k' rows] & <- & Hin). apply (groupby_key_of _ _ _ _ Hin).
    + intros (r & Hr & Hk). exists (k, filter (has_key by_ k) t).
      split; [reflexivity|]. apply groupby_In. split; [|reflexivity].
      intros Hnil.
      assert (Hin : In r (filter (has_key by_ k) t)).
      { apply filter_In. split; [exact Hr|]. unfold has_key. rewrite Hk.
        apply key_eqb_refl. }
      rewrite Hnil in Hin. destruct Hin.
  - intros k rows Hin. apply groupby_In, Hin.
  - rewrite <- (Permutation_length (groupby_rows by_ t)).
    assert (G : forall gs : groups,
               (forall k rows, In (k, rows) gs -> rows <> []) ->
               (List.length gs <= List.length (List.concat (map snd gs)))%nat).
    { induction gs as [|[k rows] gs IH]; intros H; simpl; [lia|].
      rewrite length_app.
      assert (rows <> []) by (apply (H k); left; reflexivity).
      assert (List.length gs <= List.length (List.concat (map snd gs)))%nat.
      { apply IH. intros k' rows' Hin. apply (H k'). right. exact Hin. }
      destruct rows; [congruence|]. simpl. lia. }
    apply G. intros k rows Hin. apply groupby_In in Hin. apply Hin.
Qed.

(** ** Charts on one key column *)

Lemma has_key_single (c : column) (g : string) (r : Row) :
  has_key [c] [g] r = py_eqb (get c r) (Str g).
Proof.
  unfold has_key. simpl. destruct (get c r) as [s|]; simpl; [|reflexivity].
  rewrite andb_true_r. apply String.eqb_sym.
Qed.

(** The entries of a total grouped by one column. *)
Lemma groupby_sum_single_In (c : column) (t : table) (k : key) (v : Z) :
  In (k, v) (groupby_sum [c] t) <->
  exists g, k = [g] /\ (exists r, In r t /\ get c r = Str g) /\
            v = sum64 (map quantity (select_eq c (Str g) t)).
Proof.
  unfold groupby_sum. rewrite in_map_iff. split.
  - intros ([k' rows] & E & Hin). injection E as <- <-.
    destruct (groupby_key_of _ _ _ _ Hin) as (r & Hr & Hk).
    simpl in Hk. destruct (get c r) as [g|] eqn:Hg; [|discriminate].
    injection Hk as <-. exists g. split; [reflexivity|]. split; [eauto|].
    apply groupby_In in Hin. destruct Hin as [_ ->]. simpl. f_equal. f_equal.
    apply filter_ext. intros x. apply has_key_single.
  - intros (g & -> & (r & Hr & Hg) & ->).
    exists ([g], select_eq c (Str g) t). split; [reflexivity|].
    apply groupby_In. split.
    + intros Hnil.
      assert (Hin : In r (select_eq c (Str g) t)).
      { apply filter_In. split; [exact Hr|]. rewrite Hg. simpl.
        apply String.eqb_refl. }
      rewrite Hnil in Hin. destruct Hin.
    + apply filter_ext. intros x. symmetry. apply has_key_single.
Qed.

Lemma LocallySorted_impl (A : Type) (R S : A -> A -> Prop) (l : list A) :
  (forall a b, R a b -> S a b) -> LocallySorted R l -> LocallySorted S l.
Proof.
  intros H. induction 1; constructor; auto.
Qed.

Lemma sort_values_sorted (by_ : string) (ascending : bool) (f : frame) :
  LocallySorted
    (fun a b => if ascending
                then int_at (index_of by_ (columns f)) a <= int_at (index_of by_ (columns f)) b
                else int_at (index_of by_ (columns f)) b <= int_at (index_of by_ (columns f)) a)
    (records (sort_values by_ ascending f)).
Proof.
  unfold sort_values. cbn [records].
  eapply LocallySorted_impl; [|apply sort_by_sorted].
  - intros a b H. cbv beta in H. destruct ascending; apply Z.leb_le, H.
  - intros a b. destruct ascending.
    + destruct (Z.le_ge_cases (int_at (index_of by_ (columns f)) a)
                  (int_at (index_of by_ (columns f)) b)) as [H|H];
        [left|right]; apply Z.leb_le, H.
    + destruct (Z.le_ge_cases (int_at (index_of by_ (columns f)) a)
                  (int_at (index_of by_ (columns f)) b)) as [H|H];
        [right|left]; apply Z.leb_le, H.
Qed.

Lemma sort_values_perm (by_ : string) (ascending : bool) (f : frame) :
  Permutation (records f) (records (sort_values by_ ascending f)).
Proof. unfold sort_values. cbn [records]. apply sort_by_perm. Qed.

(** X3.  The product performance chart has one bar per product type
    that occurs in the table, its length the summed quantity of the rows
    of that product type, and the bars come in non-decreasing length
    ([sort_values('quantity', ascending=True)]). *)
Theorem product_bars_ascend (w : World) (df : ref) (t : table) :
  nth_error (store w) df = Some t ->
  exists fig,
    create_product_performance df w = (Ok fig, w) /\
    LocallySorted (fun a b => int_at 1 a <= int_at 1 b) (records (data fig)) /\
    List.length (records (data fig)) = List.length (groupby [Product_type] t) /\
    forall rec,
      In rec (records (data fig)) <->
      exists g, (exists r, In r t /\ product_type r = Str g) /\
                rec = [VStr g; VInt (sum64 (map quantity (select_eq Product_type (Str g) t)))].
Proof.
  intros H. unfold create_product_performance, bind.
  rewrite (rows_of_run _ _ _ H). eexists. split; [reflexivity|].
  cbn [data update_layout px]. split; [|split].
  - apply (sort_values_sorted "quantity" true
             (reset_index [Product_type] (groupby_sum [Product_type] t))).
  - rewrite <- (Permutation_length (sort_values_perm _ _ _)).
    unfold reset_index, groupby_sum. cbn [records]. rewrite !length_map.
    reflexivity.
  - intros rec. split.
    + intros Hin.
      apply (Permutation_in _ (Permutation_sym (sort_values_perm _ _ _))) in Hin.
      unfold reset_index in Hin. cbn [records] in Hin.
      apply in_map_iff in Hin. destruct Hin as ([k v] & <- & Hin).
      apply groupby_sum_single_In in Hin.
      destruct Hin as (g & -> & Hex & ->). exists g. split; [exact Hex|reflexivity].
    + intros (g & Hex & ->).
      apply (Permutation_in _ (sort_values_perm _ _ _)).
      unfold reset_index. cbn [records]. apply in_map_iff.
      exists ([g], sum64 (map quantity (select_eq Product_type (Str g) t))).
      split; [reflexivity|]. apply groupby_sum_single_In. exists g.
      split; [reflexivity|]. split; [exact Hex|reflexivity].
Qed.

Lemma product_bars_ascend_witness :
  nth_error (store demo_world) 0 = Some demo_rows /\
  exists fig,
    create_product_performance 0%nat demo_world = (Ok fig, demo_world) /\
    LocallySorted (fun a b => int_at 1 a <= int_at 1 b) (records (data fig)) /\
    List.length (records (data fig)) = 3%nat.
Proof.
  split; [reflexivity|].
  destruct (product_bars_ascend demo_world 0%nat demo_rows eq_refl)
    as (fig & H1 & H2 & H3 & _).
  exists fig. split; [exact H1|]. split; [exact H2|]. rewrite H3. reflexivity.
Defined.

(** ** Charts on two key columns *)

Lemma has_key_pair (c1 c2 : column) (a b : string) (r : Row) :
  has_key [c1; c2] [a; b] r
  = py_eqb (get c1 r) (Str a) && py_eqb (get c2 r) (Str b).
Proof.
  unfold has_key. simpl.
  destruct (get c1 r) as [x|], (get c2 r) as [y|]; simpl; try reflexivity.
  - rewrite andb_true_r, (String.eqb_sym a x), (String.eqb_sym b y). reflexivity.
  - rewrite andb_false_r. reflexivity.
Qed.

(** The entries of a total grouped by two columns. *)
Lemma groupby_sum_pair_In (c1 c2 : column) (t : table) (k : key) (v : Z) :
  In (k, v) (groupby_sum [c1; c2] t) <->
  exists a b, k = [a; b] /\
              (exists r, In r t /\ get c1 r = Str a /\ get c2 r = Str b) /\
              v = sum64 (map quantity (pair_rows c1 c2 a b t)).
Proof.
  unfold groupby_sum. rewrite in_map_iff. split.
  - intros ([k' rows] & E & Hin). injection E as <- <-.
    destruct (groupby_key_of _ _ _ _ Hin) as (r & Hr & Hk).
    simpl in Hk. destruct (get c1 r) as [a|] eqn:Ha; [|discriminate].
    destruct (get c2 r) as [b|] eqn:Hb; [|discriminate].
    injection Hk as <-. exists a, b. split; [reflexivity|]. split; [eauto|].
    apply groupby_In in Hin. destruct Hin as [_ ->]. simpl. f_equal. f_equal.
    apply filter_ext. intros x. apply has_key_pair.
  - intros (a & b & -> & (r & Hr & Ha & Hb) & ->).
    exists ([a; b], pair_rows c1 c2 a b t). split; [reflexivity|].
    apply groupby_In. split.
    + intros Hnil.
      assert (Hin : In r (pair_rows c1 c2 a b t)).
      { apply filter_In. split; [exact Hr|]. rewrite Ha, Hb. simpl.
        rewrite !String.eqb_refl. reflexivity. }
      rewrite Hnil in Hin. destruct Hin.
    + apply filter_ext. intros x. symmetry. apply has_key_pair.
Qed.

Lemma sorted_split (A : Type) (R : A -> A -> Prop) (l1 l2 : list A) :
  (forall a b c, R a b -> R b c -> R a c) ->
  LocallySorted R (l1 ++ l2) ->
  forall x y, In x l1 -> In y l2 -> R x y.
Proof.
  intros Htrans Hs. apply Sorted_LocallySorted_iff in Hs.
  apply Sorted_StronglySorted in Hs; [|exact Htrans].
  induction l1 as [|a l1 IH]; intros x y Hx Hy; [destruct Hx|].
  simpl in Hs. inversion Hs as [|? ? Hs' Hall]; subst.
  destruct Hx as [<-|Hx].
  - rewrite Forall_forall in Hall. apply Hall, in_or_app. right. exact Hy.
  - apply IH; assumption.
Qed.

(** X4.  The treemap of top characters shows at most 15 characters, the
    ones with the largest totals: the shown records are the first 15 of
    all (series, character) totals arranged in non-increasing order, so
    no character left out has a larger total than a shown one.  Each
    record holds the series, the character, the summed quantity of
    their rows and the full name 'series - character'. *)
Theorem top_characters_are_the_largest (w : World) (df : ref) (t : table) :
  nth_error (store w) df = Some t ->
  exists fig ranked,
    create_top_characters df w = (Ok fig, w) /\
    records (data fig) = firstn 15 ranked /\
    List.length (records (data fig))
      = Nat.min 15 (List.length (groupby [Series_character; Character_variant] t)) /\
    LocallySorted (fun a b => int_at 2 b <= int_at 2 a) ranked /\
    (forall shown omitted,
        In shown (firstn 15 ranked) -> In omitted (skipn 15 ranked) ->
        int_at 2 omitted <= int_at 2 shown) /\
    forall rec,
      In rec ranked <->
      exists s v,
        (exists r, In r t /\ series_character r = Str s /\ character_variant r = Str v) /\
        rec = [VStr s; VStr v;
               VInt (sum64 (map quantity
                              (pair_rows Series_character Character_variant s v t)));
               VStr (s ++ " - " ++ v)].
Proof.
  intros H. unfold create_top_characters, bind.
  rewrite (rows_of_run _ _ _ H).
  set (named := add_full_name
                  (reset_index [Series_character; Character_variant]
                     (groupby_sum [Series_character; Character_variant] t))).
  exists (update_layout [("height", "500"); ("title_font_size", "20")]%string
            (px treemap (nlargest 15 "quantity" named)
               [("path", "['series_character', 'character_variant']");
                ("values", "quantity"); ("title", "Top Characters by Sales");
                ("color", "quantity"); ("color_continuous_scale", "blues")]%string)),
    (records (sort_values "quantity" false named)).
  split; [reflexivity|]. split; [reflexivity|].
  assert (Hsorted : LocallySorted (fun a b => int_at 2 b <= int_at 2 a)
                      (records (sort_values "quantity" false named))).
  { apply (sort_values_sorted "quantity" false named). }
  split; [|split; [exact Hsorted|split]].
  - cbn [data update_layout px nlargest head records]. rewrite length_firstn.
    rewrite <- (Permutation_length (sort_values_perm _ _ _)).
    unfold named, add_full_name, reset_index, groupby_sum. cbn [records].
    rewrite !length_map. reflexivity.
  - intros shown omitted Hs Ho.
    apply (sorted_split _ (fun a b => int_at 2 b <= int_at 2 a)
             (firstn 15 (records (sort_values "quantity" false named)))
             (skipn 15 (records (sort_values "quantity" false named)))).
    + intros a b c Hab Hbc. lia.
    + rewrite firstn_skipn. exact Hsorted.
    + exact Hs.
    + exact Ho.
  - intros rec. split.
    + intros Hin.
      apply (Permutation_in _ (Permutation_sym (sort_values_perm _ _ _))) in Hin.
      unfold named, add_full_name, reset_index in Hin. cbn [records] in Hin.
      rewrite map_map in Hin. apply in_map_iff in Hin.
      destruct Hin as ([k v] & <- & Hin).
      apply groupby_sum_pair_In in Hin.
      destruct Hin as (a & b & -> & Hex & ->). exists a, b.
      split; [exact Hex|reflexivity].
    + intros (a & b & Hex & ->).
      apply (Permutation_in _ (sort_values_perm _ _ _)).
      unfold named, add_full_name, reset_index. cbn [records].
      rewrite map_map. apply in_map_iff.
      exists ([a; b],
              sum64 (map quantity (pair_rows Series_character Character_variant a b t))).
      split; [reflexivity|]. apply groupby_sum_pair_In. exists a, b.
      split; [reflexivity|]. split; [exact Hex|reflexivity].
Qed.

Lemma top_characters_are_the_largest_witness :
  nth_error (store demo_world) 0 = Some demo_rows /\
  exists fig,
    create_top_characters 0%nat demo_world = (Ok fig, demo_world) /\
    List.length (records (data fig)) = 2%nat.
Proof.
  split; [reflexivity|].
  destruct (top_characters_are_the_largest demo_world 0%nat demo_rows eq_refl)
    as (fig & ranked & H1 & _ & H3 & _).
  exists fig. split; [exact H1|]. rewrite H3. reflexivity.
Defined.

(** ** The top cards *)

Lemma idxmax_spec (s : list (key * Z)) :
  match idxmax s with
  | None => s = []
  | Some kv => In kv s /\ Forall (fun x => snd x <= snd kv) s
  end.
Proof.
  destruct s as [|kv s]; simpl; [reflexivity|].
  assert (G : forall (l : list (key * Z)) (best : key * Z),
             (fold_left (fun best x : key * Z => if snd best <? snd x then x else best) l best = best
              \/ In (fold_left (fun best x : key * Z => if snd best <? snd x then x else best) l best) l)
             /\ snd best
                <= snd (fold_left (fun best x : key * Z => if snd best <? snd x then x else best) l best)
             /\ Forall (fun x : key * Z => snd x
                  <= snd (fold_left (fun best x : key * Z => if snd best <? snd x then x else best) l best))
                       l).
  { induction l as [|x l IH]; intros best; simpl.
    - repeat split; [left; reflexivity|lia|constructor].
    - destruct (IH (if snd best <? snd x then x else best)) as (H1 & H2 & H3).
      destruct (Z.ltb_spec (snd best) (snd x)) as [Hlt|Hge].
      + repeat split.
        * destruct H1 as [H1|H1]; [right; left; symmetry; exact H1|right; right; exact H1].
        * lia.
        * constructor; [exact H2|exact H3].
      + repeat split.
        * destruct H1 as [H1|H1]; [left; exact H1|right; right; exact H1].
        * exact H2.
        * constructor; [lia|exact H3]. }
  destruct (G s kv) as (H1 & H2 & H3). split.
  - destruct H1 as [->|H1]; [left; reflexivity|right; exact H1].
  - constructor; assumption.
Qed.

(** X5.  The 'Top Location' and 'Top Product' cards.  When no row has a
    text in the column, no card is rendered ([if not ... .empty]).
    Otherwise exactly one card is rendered; it names a value [g] of the
    column and shows the summed quantity of the rows of [g], and no
    other value of the column has a larger sum. *)
Theorem top_card_shows_a_largest_total (c : column) (gradient heading : string)
    (t : table) (w : World) :
  ((forall r, In r t -> get c r = NaN) /\
   top_card gradient heading (fun k => map Lit k) (groupby_sum [c] t) w = (Ok tt, w))
  \/
  exists g,
    (exists r, In r t /\ get c r = Str g) /\
    (forall g', (exists r, In r t /\ get c r = Str g') ->
                sum64 (map quantity (select_eq c (Str g') t))
                <= sum64 (map quantity (select_eq c (Str g) t))) /\
    top_card gradient heading (fun k => map Lit k) (groupby_sum [c] t) w
    = (Ok tt,
       rendering
         [markdown
            ([Lit "<div class='metric-card' style='background: linear-gradient(";
              Lit gradient; Lit ");'><h4>"; Lit heading; Lit "</h4><h3>"]
             ++ [Lit g]
             ++ [Lit "</h3><p>";
                 Fmt (VInt (sum64 (map quantity (select_eq c (Str g) t)))) ",";
                 Lit " items</p></div>"])]
         w).
Proof.
  pose proof (idxmax_spec (groupby_sum [c] t)) as Hmax. unfold top_card.
  destruct (idxmax (groupby_sum [c] t)) as [[k v]|].
  - right. destruct Hmax as [Hin Hall].
    apply groupby_sum_single_In in Hin. destruct Hin as (g & -> & Hex & ->).
    exists g. split; [exact Hex|]. split; [|reflexivity].
    intros g' Hex'. rewrite Forall_forall in Hall.
    apply (Hall ([g'], sum64 (map quantity (select_eq c (Str g') t)))).
    apply groupby_sum_single_In. exists g'. split; [reflexivity|].
    split; [exact Hex'|reflexivity].
  - left. split; [|reflexivity]. intros r Hr.
    destruct (get c r) as [g|] eqn:Hg; [|reflexivity]. exfalso.
    assert (Hin : In ([g], sum64 (map quantity (select_eq c (Str g) t)))
                     (groupby_sum [c] t)).
    { apply groupby_sum_single_In. exists g. split; [reflexivity|].
      split; [eauto|reflexivity]. }
    rewrite Hmax in Hin. destruct Hin.
Qed.

(** ** The sidebar and the note on the filters in force *)

Ltac ok_bind H :=
  let a := fresh "a" in
  let w := fresh "w" in
  let Hs := fresh "Hs" in
  apply bind_ok in H; destruct H as (a & w & Hs & H).

Lemma apply_filter_caption (c : column) (s : cell) (caption : string)
    (st st' : ref * list (list piece)) (w w' : World) :
  apply_filter c s caption st w = (Ok st', w') ->
  snd st' = snd st ++ (if cell_eqb s All then [] else [[Lit caption; FmtCell s]]).
Proof.
  unfold apply_filter. rewrite not_All_test.
  destruct (cell_eqb s All); cbn [negb]; intros H.
  - injection H as <- _. symmetry. apply app_nil_r.
  - ok_bind H. injection H as <- _. reflexivity.
Qed.

Lemma apply_filters_captions (df : ref) (sel : Selection) (w w' : World)
    (st : ref * list (list piece)) :
  apply_filters df sel w = (Ok st, w') -> snd st = captions sel.
Proof.
  intros H. unfold apply_filters in H.
  ok_bind H. ok_bind H. ok_bind H. ok_bind H. ok_bind H. ok_bind H.
  apply apply_filter_caption in H.
  apply apply_filter_caption in Hs0. apply apply_filter_caption in Hs1.
  apply apply_filter_caption in Hs2. apply apply_filter_caption in Hs3.
  apply apply_filter_caption in Hs4.
  rewrite H, Hs4, Hs3, Hs2, Hs1, Hs0. unfold captions, captioned.
  cbn [filter snd fst app].
  destruct (cell_eqb (selected_location sel) All),
           (cell_eqb (selected_event sel) All),
           (cell_eqb (selected_day sel) All),
           (cell_eqb (selected_anime sel) All),
           (cell_eqb (selected_character sel) All),
           (cell_eqb (selected_product sel) All); reflexivity.
Qed.

(** X6.  The note above the dashboard lists exactly the filters in
    force: the filter section returns one caption for each selection
    other than 'All', in the order location, event, day, series,
    character, product; with no such selection the note is the success
    message 'Showing all data', otherwise the heading and the captions
    joined by ' | '. *)
Theorem active_filter_note_lists_the_filters_in_force (w : World) (df : ref)
    (t : table) (sel : Selection) :
  nth_error (store w) df = Some t ->
  exists filtered_df w1,
    apply_filters df sel w = (Ok (filtered_df, captions sel), w1) /\
    show_active_filters (captions sel) w1
    = (Ok tt,
       rendering
         (match captions sel with
          | [] => [success "Showing all data - no filters applied"]
          | _ :: _ => [markdown [Lit "### Active Filters"];
                       info (join " | " (captions sel))]
          end)
         w1) /\
    (captions sel = [] <-> Forall (fun cs => snd cs = All) (choices sel)) /\
    List.length (captions sel)
    = List.length (filter (fun cs => negb (cell_eqb (snd cs) All)) (choices sel)).
Proof.
  intros H.
  destruct (apply_filters_run w df t sel H) as (f & a & w1 & R & _).
  pose proof (apply_filters_captions df sel w w1 _ R) as Ha. cbn [snd] in Ha.
  subst a. exists f, w1. split; [exact R|]. split; [|split].
  - unfold show_active_filters. destruct (captions sel) as [|x l].
    + reflexivity.
    + rewrite emit_step. unfold emit, rendering.
      cbn [page store cache drawn random file]. rewrite <- app_assoc.
      reflexivity.
  - unfold captions, captioned, choices. cbn [filter snd fst map].
    split.
    + intros Hnil.
      destruct (cell_eqb (selected_location sel) All) eqn:E1; [|discriminate].
      destruct (cell_eqb (selected_event sel) All) eqn:E2; [|discriminate].
      destruct (cell_eqb (selected_day sel) All) eqn:E3; [|discriminate].
      destruct (cell_eqb (selected_anime sel) All) eqn:E4; [|discriminate].
      destruct (cell_eqb (selected_character sel) All) eqn:E5; [|discriminate].
      destruct (cell_eqb (selected_product sel) All) eqn:E6; [|discriminate].
      repeat constructor; apply cell_eqb_eq; assumption.
    + intros Hall.
      repeat match goal with
             | Hx : Forall _ (_ :: _) |- _ =>
                 let E := fresh "E" in
                 inversion Hx as [|? ? E ?]; subst; clear Hx; cbn [snd] in E;
                 rewrite E
             end.
      reflexivity.
  - unfold captions, captioned, choices. rewrite length_map. cbn [filter snd fst].
    destruct (cell_eqb (selected_location sel) All),
             (cell_eqb (selected_event sel) All),
             (cell_eqb (selected_day sel) All),
             (cell_eqb (selected_anime sel) All),
             (cell_eqb (selected_character sel) All),
             (cell_eqb (selected_product sel) All); reflexivity.
Qed.

Lemma active_filter_note_lists_the_filters_in_force_witness :
  nth_error (store demo_world) 0 = Some demo_rows /\
  exists filtered_df w1,
    apply_filters 0%nat demo_selection demo_world
      = (Ok (filtered_df, captions demo_selection), w1) /\
    captions demo_selection
      = [[Lit "Location: "; FmtCell (Str "London")];
         [Lit "Product: "; FmtCell (Str "Bag")]].
Proof.
  split; [reflexivity|].
  destruct (active_filter_note_lists_the_filters_in_force demo_world 0%nat
              demo_rows demo_selection eq_refl) as (f & w1 & H1 & _).
  exists f, w1. split; [exact H1|reflexivity].
Defined.

Lemma options_of_head (df : ref) (c : column) (w w' : World) (opts : list cell) :
  options_of df c w = (Ok opts, w') -> exists l, opts = All :: l.
Proof.
  unfold options_of. intros H. ok_bind H. ok_bind H. injection H as <- _. eauto.
Qed.

Lemma character_options_head (df : ref) (s : cell) (w w' : World) (opts : list cell) :
  character_options df s w = (Ok opts, w') -> exists l, opts = All :: l.
Proof.
  unfold character_options. intros H. destruct (py_neqb s All).
  - ok_bind H. ok_bind H. rewrite present_options_run in H.
    injection H as <- _. eauto.
  - ok_bind H. rewrite present_options_run in H. injection H as <- _. eauto.
Qed.

Lemma selectbox_ok (label_ : string) (opts : list cell) (pick : nat)
    (w w' : World) (x : cell) :
  selectbox label_ opts pick w = (Ok x, w') -> x = nth pick opts (List.hd NaN opts).
Proof. unfold selectbox. rewrite emit_step. intros H. injection H as <- _. reflexivity. Qed.

(** What the sidebar returns: in each dropdown the picked entry of a
    list that starts with 'All'. *)
Lemma sidebar_picks (df : ref) (u : Picks) (w w' : World) (sel : Selection) :
  sidebar df u w = (Ok sel, w') ->
  exists l1 l2 l3 l4 l5 l6,
    sel = {| selected_location := nth (pick_location u) (All :: l1) All;
             selected_event := nth (pick_event u) (All :: l2) All;
             selected_day := nth (pick_day u) (All :: l3) All;
             selected_anime := nth (pick_anime u) (All :: l4) All;
             selected_character := nth (pick_character u) (All :: l5) All;
             selected_product := nth (pick_product u) (All :: l6) All |}.
Proof.
  intros H. unfold sidebar in H. rewrite emit_step in H.
  apply bind_ok in H. destruct H as (o1 & x1 & S1 & H).
  apply options_of_head in S1. destruct S1 as (l1 & ->).
  apply bind_ok in H. destruct H as (s1 & y1 & T1 & H).
  apply selectbox_ok in T1. cbn [List.hd] in T1.
  apply bind_ok in H. destruct H as (o2 & x2 & S2 & H).
  apply options_of_head in S2. destruct S2 as (l2 & ->).
  apply bind_ok in H. destruct H as (s2 & y2 & T2 & H).
  apply selectbox_ok in T2. cbn [List.hd] in T2.
  apply bind_ok in H. destruct H as (o3 & x3 & S3 & H).
  apply options_of_head in S3. destruct S3 as (l3 & ->).
  apply bind_ok in H. destruct H as (s3 & y3 & T3 & H).
  apply selectbox_ok in T3. cbn [List.hd] in T3.
  apply bind_ok in H. destruct H as (t & x0 & _ & H).
  apply bind_ok in H. destruct H as (o4 & x4 & S4 & H).
  rewrite present_options_run in S4. injection S4 as <- _.
  apply bind_ok in H. destruct H as (s4 & y4 & T4 & H).
  apply selectbox_ok in T4. cbn [List.hd] in T4.
  apply bind_ok in H. destruct H as (o5 & x5 & S5 & H).
  apply character_options_head in S5. destruct S5 as (l5 & ->).
  apply bind_ok in H. destruct H as (s5 & y5 & T5 & H).
  apply selectbox_ok in T5. cbn [List.hd] in T5.
  apply bind_ok in H. destruct H as (o6 & x6 & S6 & H).
  apply options_of_head in S6. destruct S6 as (l6 & ->).
  apply bind_ok in H. destruct H as (s6 & y6 & T6 & H).
  apply selectbox_ok in T6. cbn [List.hd] in T6.
  injection H as <- _. subst.
  exists l1, l2, l3. eexists. exists l5, l6. reflexivity.
Qed.

(** X7.  With nothing picked (every dropdown at its first entry), a run
    that gets past the sidebar selects 'All' six times, its filtered
    view holds all rows of the loaded table, as an object of its own,
    and the last element rendered before the dashboard is the message
    'Showing all data - no filters applied'. *)
Theorem nothing_picked_shows_all_data (w w' : World) (filtered_df : ref)
    (sel : Selection) :
  filtered_view demo_picks_all w = (Ok (filtered_df, sel), w') ->
  sel = all_selected /\
  exists t before,
    nth_error (store w') (List.length (store w)) = Some t /\
    nth_error (store w') filtered_df = Some t /\
    filtered_df <> List.length (store w) /\
    page w' = before ++ [success "Showing all data - no filters applied"].
Proof.
  intros H.
  destruct (filtered_view_result demo_picks_all w w' filtered_df sel H)
    as (t & Ht & Hf & Hlt).
  destruct (filtered_view_load demo_picks_all w w' _ H)
    as (t0 & shown & w1 & _ & _ & _ & _ & _ & Hrest).
  ok_bind Hrest. ok_bind Hrest. ok_bind Hrest. injection Hrest as <- <- <-.
  destruct (sidebar_picks _ _ _ _ _ Hs) as (l1 & l2 & l3 & l4 & l5 & l6 & Hsel).
  cbn [demo_picks_all pick_location pick_event pick_day pick_anime pick_character
       pick_product nth] in Hsel.
  fold all_selected in Hsel. subst a.
  pose proof (apply_filters_captions _ _ _ _ _ Hs0) as Hcap.
  change (captions all_selected) with (@nil (list piece)) in Hcap.
  rewrite Hcap in Hs1. unfold show_active_filters, emit in Hs1.
  injection Hs1 as _ Hw.
  split; [reflexivity|]. exists t, (page w2).
  split; [exact Ht|]. split; [|split; [lia|rewrite <- Hw; reflexivity]].
  rewrite Hf, filter_all by reflexivity. reflexivity.
Qed.

Lemma nothing_picked_shows_all_data_witness :
  exists filtered_df w',
    filtered_view demo_picks_all demo_file_world
      = (Ok (filtered_df, all_selected), w') /\
    nth_error (store w') filtered_df = nth_error (store w') 0.
Proof.
  destruct (filtered_view demo_picks_all demo_file_world) as [[[f s]| |e] w'] eqn:E;
    try (vm_compute in E; discriminate).
  destruct (nothing_picked_shows_all_data demo_file_world w' f s E)
    as (-> & t & before & H1 & H2 & _).
  exists f, w'. split; [reflexivity|].
  rewrite H2. symmetry. exact H1.
Defined.

(** ** Dropdowns and the views they lead to *)

Lemma no_nan_existsb (l : list cell) :
  (forall x, In x l -> x <> NaN) -> existsb is_nan l = false.
Proof.
  induction l as [|x l IH]; intros H; simpl; [reflexivity|].
  destruct x as [s|]; simpl.
  - apply IH. intros y Hy. apply H. right. exact Hy.
  - exfalso. apply (H NaN); [left|]; reflexivity.
Qed.

Lemma options_of_present (w : World) (df : ref) (t : table) (c : column) :
  nth_error (store w) df = Some t ->
  (forall r, In r t -> get c r <> NaN) ->
  options_of df c w = (Ok (All :: sort_by cell_leb (unique (col c t))), w).
Proof.
  intros H Hn. unfold options_of.
  rewrite (@bind_step _ _ _ _ _ _ _ (rows_of_run _ _ _ H)).
  unfold bind, lift. rewrite sorted_present; [reflexivity|].
  apply no_nan_existsb. intros x Hx. apply -> unique_In in Hx.
  unfold col in Hx. apply in_map_iff in Hx. destruct Hx as (r & <- & Hr).
  apply Hn, Hr.
Qed.

(** X8.  For a column without missing values the location, event type,
    day and product type dropdowns do not fail: they offer 'All' and
    then every value of the column, once each and in increasing order,
    and nothing else. *)
Theorem dropdown_offers_each_value_once (w : World) (df : ref) (t : table)
    (c : column) :
  nth_error (store w) df = Some t ->
  (forall r, In r t -> get c r <> NaN) ->
  exists values,
    options_of df c w = (Ok (All :: values), w) /\
    NoDup values /\
    LocallySorted (fun a b => cell_leb a b = true) values /\
    forall x, In x values <-> In x (col c t).
Proof.
  intros H Hn. exists (sort_by cell_leb (unique (col c t))).
  split; [apply options_of_present; assumption|]. split; [|split].
  - apply sort_by_NoDup, unique_NoDup.
  - apply sort_by_sorted, cell_leb_total.
  - intros x. rewrite sort_by_In. apply unique_In.
Qed.

Lemma dropdown_offers_each_value_once_witness :
  nth_error (store demo_world) 0 = Some demo_rows /\
  (forall r, In r demo_rows -> get Location r <> NaN) /\
  exists values,
    options_of 0%nat Location demo_world = (Ok (All :: values), demo_world) /\
    NoDup values /\
    forall x, In x values <-> In x (col Location demo_rows).
Proof.
  assert (Hn : forall r, In r demo_rows -> get Location r <> NaN).
  { intros r [<-|[<-|[<-|[]]]]; discriminate. }
  split; [reflexivity|]. split; [exact Hn|].
  destruct (dropdown_offers_each_value_once demo_world 0%nat demo_rows Location
              eq_refl Hn) as (values & H1 & H2 & _ & H4).
  exists values. split; [exact H1|]. split; [exact H2|exact H4].
Defined.

Lemma options_of_ok (df : ref) (c : column) (w w' : World) (opts : list cell) :
  options_of df c w = (Ok opts, w') ->
  exists t, nth_error (store w) df = Some t /\
            forall x, In x opts -> x = All \/ In x (col c t).
Proof.
  unfold options_of. intros H.
  apply bind_ok in H. destruct H as (t & w1 & Hr & H).
  apply rows_of_ok in Hr. destruct Hr as [-> Ht].
  apply bind_ok in H. destruct H as (l & w2 & Hl & H).
  injection H as <- _. exists t. split; [exact Ht|].
  unfold lift, sorted in Hl.
  destruct (existsb is_nan (unique (col c t)) && existsb is_str (unique (col c t)));
    [discriminate|].
  injection Hl as <- _. intros x [<-|Hx]; [left; reflexivity|right].
  apply -> sort_by_In in Hx. apply -> unique_In in Hx. exact Hx.
Qed.

Lemma matches_select_only (c : column) (s : string) (r : Row) :
  In c [Location; Event_type; Day; Series_character; Character_variant; Product_type] ->
  get c r = Str s -> matches (select_only c (Str s)) r = true.
Proof.
  intros Hc Hg.
  assert (Hself : py_eqb (Str s) (Str s) = true) by apply String.eqb_refl.
  simpl in Hc.
  destruct Hc as [<-|[<-|[<-|[<-|[<-|[<-|[]]]]]]];
    unfold matches, choices, select_only;
    cbn [forallb fst snd get selected_location selected_event selected_day
         selected_anime selected_character selected_product] in *;
    rewrite Hg, Hself; rewrite ?orb_true_r; reflexivity.
Qed.

(** X9.  A value offered by the location, event type, day or product
    type dropdown leads to a view with rows: when one of these dropdowns
    is set to a text it offers, other than 'All', and the other five are
    left at 'All', the filtered view is not empty, so the 'No data
    matches' warning cannot appear. *)
Theorem offered_value_has_rows (w w' : World) (df : ref) (t : table) (c : column)
    (opts : list cell) (s : string) :
  In c [Location; Event_type; Day; Product_type] ->
  nth_error (store w) df = Some t ->
  options_of df c w = (Ok opts, w') ->
  In (Str s) opts -> Str s <> All ->
  filter (matches (select_only c (Str s))) t <> [].
Proof.
  intros Hc Ht Hopts Hin Hne.
  destruct (options_of_ok df c w w' opts Hopts) as (t' & Ht' & Hall).
  assert (t' = t) by congruence. subst t'.
  destruct (Hall _ Hin) as [E|Hcol]; [contradiction|].
  unfold col in Hcol. apply in_map_iff in Hcol. destruct Hcol as (r & Hg & Hr).
  intros Hnil.
  assert (Hrow : In r (filter (matches (select_only c (Str s))) t)).
  { apply filter_In. split; [exact Hr|]. apply matches_select_only; [|exact Hg].
    simpl in Hc. simpl. tauto. }
  rewrite Hnil in Hrow. destruct Hrow.
Qed.

Lemma offered_value_has_rows_witness :
  In Location [Location; Event_type; Day; Product_type] /\
  nth_error (store demo_world) 0 = Some demo_rows /\
  options_of 0%nat Location demo_world
    = (Ok [All; Str "London"; Str "Manchester"], demo_world) /\
  filter (matches (select_only Location (Str "Manchester"))) demo_rows <> [].
Proof.
  assert (Hc : In Location [Location; Event_type; Day; Product_type])
    by (left; reflexivity).
  assert (Ho : options_of 0%nat Location demo_world
               = (Ok [All; Str "London"; Str "Manchester"], demo_world))
    by reflexivity.
  split; [exact Hc|]. split; [reflexivity|]. split; [exact Ho|].
  apply (offered_value_has_rows demo_world demo_world 0%nat demo_rows Location
           [All; Str "London"; Str "Manchester"] "Manchester" Hc eq_refl Ho).
  - right. right. left. reflexivity.
  - discriminate.
Defined.

Lemma character_options_of_series (w : World) (df : ref) (t : table) (s : string) :
  nth_error (store w) df = Some t ->
  Str s <> All ->
  exists w',
    character_options df (Str s) w
    = (Ok (All :: sort_by cell_leb
                    (filter truthy_not_nan
                       (unique (col Character_variant
                                  (select_eq Series_character (Str s) t))))),
       w').
Proof.
  intros H Hne. unfold character_options. rewrite not_All_test.
  destruct (cell_eqb (Str s) All) eqn:E.
  - apply cell_eqb_eq in E. contradiction.
  - cbn [negb].
    destruct (getitem_eq_run _ _ _ Series_character (Str s) H) as (w' & Hrun & Hst & _).
    rewrite (@bind_step _ _ _ _ _ _ _ Hrun).
    assert (Hnew : nth_error (store w') (List.length (store w))
                   = Some (select_eq Series_character (Str s) t)).
    { rewrite Hst. apply nth_error_last. }
    rewrite (@bind_step _ _ _ _ _ _ _ (rows_of_run _ _ _ Hnew)).
    rewrite present_options_run. exists w'. reflexivity.
Qed.

(** X10.  The character dropdown follows the series dropdown: when a
    series other than 'All' is selected and the character is set to an
    entry the dropdown then offers, other than 'All', the view filtered
    by that series and character is not empty. *)
Theorem offered_character_has_rows (w w' : World) (df : ref) (t : table)
    (s : string) (opts : list cell) (v : cell) :
  nth_error (store w) df = Some t ->
  Str s <> All ->
  character_options df (Str s) w = (Ok opts, w') ->
  In v opts -> v <> All ->
  filter (matches (select_character (Str s) v)) t <> [].
Proof.
  intros Ht Hs Hopts Hin Hv.
  destruct (character_options_of_series w df t s Ht Hs) as (w1 & Hrun).
  rewrite Hrun in Hopts. injection Hopts as <- _.
  destruct Hin as [E|Hin]; [congruence|].
  apply -> sort_by_In in Hin. apply filter_In in Hin. destruct Hin as [Hu Htruthy].
  apply -> unique_In in Hu. unfold col in Hu. apply in_map_iff in Hu.
  destruct Hu as (r & Hg & Hr). apply filter_In in Hr. destruct Hr as [Hr Hser].
  cbn [get] in Hg, Hser. apply py_eqb_true in Hser. destruct Hser as (x & Hx & Hx').
  injection Hx' as <-.
  destruct v as [y|]; [|discriminate].
  intros Hnil.
  assert (Hrow : In r (filter (matches (select_character (Str s) (Str y))) t)).
  { apply filter_In. split; [exact Hr|]. unfold matches, choices, select_character.
    cbn [forallb fst snd get selected_location selected_event selected_day
         selected_anime selected_character selected_product].
    rewrite Hx, Hg. cbn [py_eqb]. rewrite !String.eqb_refl, !orb_true_r.
    reflexivity. }
  rewrite Hnil in Hrow. destruct Hrow.
Qed.

Lemma offered_character_has_rows_witness :
  nth_error (store demo_world) 0 = Some demo_rows /\
  Str "JJK" <> All /\
  (exists w', character_options 0%nat (Str "JJK") demo_world
              = (Ok [All; Str "Fish"], w')) /\
  filter (matches (select_character (Str "JJK") (Str "Fish"))) demo_rows <> [].
Proof.
  assert (Hs : Str "JJK" <> All) by discriminate.
  split; [reflexivity|]. split; [exact Hs|].
  split; [eexists; reflexivity|].
  eapply (offered_character_has_rows demo_world _ 0%nat demo_rows "JJK"
            [All; Str "Fish"] (Str "Fish") eq_refl Hs).
  - reflexivity.
  - right. left. reflexivity.
  - discriminate.
Defined.

(** ** The cache of load_data *)

(** X11.  [load_data] loads once.  After a call of [load_data], a
    further call returns a table with the same rows whatever has become
    of the CSV file in between: it is a new object, the messages of the
    earlier call are shown again, and no random number is drawn.  So the
    sample stays in use after the file appears, and its quantities do
    not change from run to run. *)
Theorem load_data_loads_once (w : World) (f : option (list RawRecord)) :
  exists d1 w1 t shown d2 w2,
    load_data w = (Ok d1, w1) /\
    nth_error (store w1) d1 = Some t /\
    page w1 = page w ++ shown /\
    load_data (with_file f w1) = (Ok d2, w2) /\
    nth_error (store w2) d2 = Some t /\
    nth_error (store w2) d1 = Some t /\
    d2 <> d1 /\
    page w2 = page w1 ++ shown /\
    drawn w2 = drawn w1 /\
    cache w2 = cache w1.
Proof.
  destruct (load_data_run w) as (t & shown & Hrun & _).
  match type of Hrun with _ = (_, ?W) => set (w1 := W) in * end.
  destruct (load_data_run (with_file f w1)) as (t2 & shown2 & Hrun2 & Hcase2).
  cbn [cache with_file w1] in Hcase2. injection Hcase2 as <- <-.
  exists (List.length (store w)), w1, t, shown. eexists. eexists.
  split; [exact Hrun|]. split; [apply (nth_error_last _ (store w) t)|].
  split; [reflexivity|]. split; [exact Hrun2|].
  cbn [store page drawn cache with_file w1].
  split; [apply nth_error_last|]. split.
  - rewrite nth_error_app1 by (rewrite length_app; simpl; lia).
    apply nth_error_last.
  - split; [rewrite length_app; simpl; lia|].
    repeat split.
Qed.

(** ** What is rendered depends on the rows of the view only *)

Lemma extend_nil (w : World) : extend [] [] w = w.
Proof. destruct w. unfold extend. simpl. rewrite !app_nil_r. reflexivity. Qed.

Lemma extend_extend (o1 o2 : list table) (e1 e2 : list element) (w : World) :
  extend o2 e2 (extend o1 e1 w) = extend (o1 ++ o2) (e1 ++ e2) w.
Proof. unfold extend. simpl. rewrite !app_assoc. reflexivity. Qed.

Lemma extend_lookup (objs : list table) (es : list element) (w : World)
    (d : ref) (t : table) :
  nth_error (store w) d = Some t ->
  nth_error (store (extend objs es w)) d = Some t.
Proof.
  intros H. unfold extend. simpl. rewrite nth_error_app1; [exact H|].
  apply nth_error_Some. congruence.
Qed.

Lemma alike_ret (A : Type) (a : A) : alike (fun _ => ret a).
Proof.
  intros w1 w2 d1 d2 t _ _. exists (Ok a), [], [].
  rewrite !extend_nil. split; reflexivity.
Qed.

Lemma alike_lift (A : Type) (x : outcome A) : alike (fun _ => lift x).
Proof.
  intros w1 w2 d1 d2 t _ _. exists x, [], [].
  rewrite !extend_nil. split; reflexivity.
Qed.

Lemma alike_stop (A : Type) : alike (fun _ => stop A).
Proof.
  intros w1 w2 d1 d2 t _ _. exists Stop, [], [].
  rewrite !extend_nil. split; reflexivity.
Qed.

Lemma emit_extend (e : element) (w : World) : emit e w = (Ok tt, extend [] [e] w).
Proof. unfold emit, extend. rewrite app_nil_r. reflexivity. Qed.

Lemma alike_emit (e : element) : alike (fun _ => emit e).
Proof.
  intros w1 w2 d1 d2 t _ _. exists (Ok tt), [], [e].
  rewrite !emit_extend. split; reflexivity.
Qed.

Lemma alike_rows_of : alike (fun df => rows_of df).
Proof.
  intros w1 w2 d1 d2 t H1 H2. exists (Ok t), [], [].
  rewrite !extend_nil, (rows_of_run _ _ _ H1), (rows_of_run _ _ _ H2).
  split; reflexivity.
Qed.

Lemma alike_bind (A B : Type) (f : ref -> M A) (k : A -> ref -> M B) :
  alike f -> (forall a, alike (k a)) ->
  alike (fun df => bind (f df) (fun a => k a df)).
Proof.
  intros Hf Hk w1 w2 d1 d2 t H1 H2.
  destruct (Hf w1 w2 d1 d2 t H1 H2) as (o & objs & es & E1 & E2).
  unfold bind. rewrite E1, E2. destruct o as [a| |e].
  - destruct (Hk a (extend objs es w1) (extend objs es w2) d1 d2 t
                (extend_lookup _ _ _ _ _ H1) (extend_lookup _ _ _ _ _ H2))
      as (o' & objs' & es' & F1 & F2).
    exists o', (objs ++ objs'), (es ++ es').
    rewrite F1, F2, !extend_extend. split; reflexivity.
  - exists Stop, objs, es. split; reflexivity.
  - exists (Raise e), objs, es. split; reflexivity.
Qed.

(** A new object made from the rows of [df] and read at once. *)
Lemma alike_isin_read (A : Type) (c : column) (l : list cell) (k : table -> ref -> M A) :
  (forall cp, alike (k cp)) ->
  alike (fun df => bind (getitem_isin df c l)
                     (fun r => bind (rows_of r) (fun cp => k cp df))).
Proof.
  intros Hk w1 w2 d1 d2 t H1 H2.
  set (cp := filter (fun r => existsb (py_eqb (get c r)) l) t).
  assert (G : forall w d, nth_error (store w) d = Some t ->
                bind (getitem_isin d c l)
                  (fun r => bind (rows_of r) (fun x => k x d)) w
                = k cp d (extend [cp] [] w)).
  { intros w d H.
    assert (E : extend [cp] [] w
                = {| file := file w; random := random w; drawn := drawn w;
                     cache := cache w; store := store w ++ [cp]; page := page w |}).
    { unfold extend. rewrite app_nil_r. reflexivity. }
    assert (R : getitem_isin d c l w = (Ok (List.length (store w)), extend [cp] [] w)).
    { unfold getitem_isin. rewrite (@bind_step _ _ _ _ _ _ _ (rows_of_run _ _ _ H)).
      rewrite E. reflexivity. }
    rewrite (@bind_step _ _ _ _ _ _ _ R).
    assert (L : nth_error (store (extend [cp] [] w)) (List.length (store w)) = Some cp).
    { unfold extend. simpl. apply nth_error_last. }
    rewrite (@bind_step _ _ _ _ _ _ _ (rows_of_run _ _ _ L)). reflexivity. }
  rewrite (G w1 d1 H1), (G w2 d2 H2).
  destruct (Hk cp (extend [cp] [] w1) (extend [cp] [] w2) d1 d2 t
              (extend_lookup _ _ _ _ _ H1) (extend_lookup _ _ _ _ _ H2))
    as (o & objs & es & F1 & F2).
  exists o, ([cp] ++ objs), ([] ++ es).
  rewrite F1, F2, !extend_extend. split; reflexivity.
Qed.

Ltac alike_step :=
  cbv beta zeta;
  match goal with
  | |- alike (fun d => bind (getitem_isin d _ _) _) => apply alike_isin_read; intros ?
  | |- alike (fun d => bind _ _) => apply alike_bind; [|intros ?]
  | |- alike (fun _ => emit _) => apply alike_emit
  | |- alike (fun _ => ret _) => apply alike_ret
  | |- alike (fun _ => lift _) => apply alike_lift
  | |- alike (fun _ => stop _) => apply alike_stop
  | |- alike rows_of => apply alike_rows_of
  | |- alike (fun d => rows_of d) => apply alike_rows_of
  | |- alike (fun _ => match ?x with _ => _ end) => destruct x
  end.

Lemma alike_create_sales_by_location : alike create_sales_by_location.
Proof. unfold create_sales_by_location. repeat alike_step. Qed.

Lemma alike_create_event_comparison : alike create_event_comparison.
Proof. unfold create_event_comparison. repeat alike_step. Qed.

Lemma alike_create_product_performance : alike create_product_performance.
Proof. unfold create_product_performance. repeat alike_step. Qed.

Lemma alike_create_top_characters : alike create_top_characters.
Proof. unfold create_top_characters. repeat alike_step. Qed.

Lemma alike_create_daily_performance : alike create_daily_performance.
Proof. unfold create_daily_performance. repeat alike_step. Qed.

Lemma alike_top_card (gradient heading : string) (name : key -> list piece)
    (s : list (key * Z)) :
  alike (fun _ => top_card gradient heading name s).
Proof. unfold top_card. repeat alike_step. Qed.

Lemma alike_create_overview_metrics : alike create_overview_metrics.
Proof.
  unfold create_overview_metrics.
  repeat first [apply alike_top_card | alike_step].
Qed.

Lemma alike_create_character_analysis : alike create_character_analysis.
Proof. unfold create_character_analysis. repeat alike_step. Qed.

Lemma alike_create_detailed_analysis : alike create_detailed_analysis.
Proof. unfold create_detailed_analysis. repeat alike_step. Qed.

Lemma alike_check_not_empty : alike check_not_empty.
Proof. unfold check_not_empty. repeat alike_step. Qed.

Lemma alike_visualizations : alike visualizations.
Proof.
  unfold visualizations.
  repeat first
    [ apply alike_create_overview_metrics | apply alike_create_sales_by_location
    | apply alike_create_daily_performance | apply alike_create_event_comparison
    | apply alike_create_product_performance | apply alike_create_top_characters
    | apply alike_create_character_analysis | apply alike_create_detailed_analysis
    | alike_step ].
Qed.

Lemma alike_data_insights : alike data_insights.
Proof. unfold data_insights. repeat alike_step. Qed.

Lemma alike_export_options (sel : Selection) :
  alike (fun df => export_options df sel).
Proof. unfold export_options. repeat alike_step. Qed.

(** X12.  What [main] renders after the filters depends on the rows of
    the filtered view only (and, for the name of the first download, on
    the location and event selections): in any two worlds, for any two
    views with equal rows, the part of [main] from the empty check to the
    downloads has the same outcome, renders the same elements and adds
    objects with the same rows.  Two different selections that keep the
    same rows give the same dashboard. *)
Theorem rendering_depends_on_the_rows_only (sel : Selection) (w1 w2 : World)
    (d1 d2 : ref) (t : table) :
  nth_error (store w1) d1 = Some t ->
  nth_error (store w2) d2 = Some t ->
  exists o objs es,
    render d1 sel w1 = (o, extend objs es w1) /\
    render d2 sel w2 = (o, extend objs es w2).
Proof.
  assert (H : alike (fun df => render df sel)).
  { unfold render.
    repeat first
      [ apply alike_check_not_empty | apply alike_visualizations
      | apply alike_data_insights | apply alike_export_options
      | alike_step ]. }
  apply H.
Qed.

Lemma rendering_depends_on_the_rows_only_witness :
  nth_error (store demo_world) 0 = Some demo_rows /\
  nth_error (store demo_other_world) 1 = Some demo_rows /\
  exists o objs es,
    render 0%nat demo_selection demo_world = (o, extend objs es demo_world) /\
    render 1%nat demo_selection demo_other_world
      = (o, extend objs es demo_other_world).
Proof.
  split; [reflexivity|]. split; [reflexivity|].
  exact (rendering_depends_on_the_rows_only demo_selection demo_world
           demo_other_world 0%nat 1%nat demo_rows eq_refl eq_refl).
Defined.

(** ** The outcomes of a run *)

Lemma traverse_gentle (allowed : exn -> bool) (A B : Type) (f : A -> outcome B)
    (l : list A) :
  (forall a, In a l -> gentle allowed (f a)) -> gentle allowed (traverse f l).
Proof.
  induction l as [|a l IH]; intros H; simpl; [exact I|].
  pose proof (H a (or_introl eq_refl)) as Ha.
  assert (Hl : gentle allowed (traverse f l)).
  { apply IH. intros b Hb. apply H. right. exact Hb. }
  destruct (f a) as [b| |e]; [|exact Ha|exact Ha].
  destruct (traverse f l) as [bs| |e]; [exact I|exact Hl|exact Hl].
Qed.

(** The character summary fails only where joining the labels of a
    group fails. *)
Lemma char_analysis_gentle (allowed : exn -> bool) (t : table) :
  (forall k rows c, In (k, rows) (groupby [Series_character; Character_variant] t) ->
     In c [Location; Product_type] -> gentle allowed (join_unique (col c rows))) ->
  gentle allowed (char_analysis t).
Proof.
  intros H. unfold char_analysis.
  match goal with
  | |- gentle _ (match traverse ?f ?l with _ => _ end) =>
      assert (G : gentle allowed (traverse f l))
  end.
  { apply traverse_gentle. intros [k rows] Hg. cbn [fst snd].
    pose proof (H k rows Location Hg (or_introl eq_refl)) as H1.
    pose proof (H k rows Product_type Hg (or_intror (or_introl eq_refl))) as H2.
    destruct (join_unique (col Location rows)) as [a| |e]; [|exact H1|exact H1].
    destruct (join_unique (col Product_type rows)) as [b| |e];
      [exact I|exact H2|exact H2]. }
  destruct (traverse _ _) as [rows| |e]; [exact I|exact G|exact G].
Qed.

Lemma present_sorted_gentle (allowed : exn -> bool) (l : list cell) :
  gentle allowed (sorted (filter truthy_not_nan l)).
Proof. rewrite sorted_present by apply truthy_not_nan_present. exact I. Qed.

Section Careful.
Variable allowed : exn -> bool.
Variable df : ref.
Variable t : table.

Lemma careful_ret (A : Type) (a : A) : careful allowed df t (ret a).
Proof. intros w o w' H E. injection E as <- <-. split; [exact I|exact H]. Qed.

Lemma careful_lift (A : Type) (x : outcome A) :
  gentle allowed x -> careful allowed df t (lift x).
Proof. intros G w o w' H E. injection E as <- <-. split; [exact G|exact H]. Qed.

Lemma careful_emit (e : element) : careful allowed df t (emit e).
Proof. intros w o w' H E. injection E as <- <-. split; [exact I|exact H]. Qed.

Lemma careful_bind (A B : Type) (m : M A) (k : A -> M B) :
  careful allowed df t m -> (forall a, careful allowed df t (k a)) ->
  careful allowed df t (bind m k).
Proof.
  intros Hm Hk w o w' H E. apply bind_run in E.
  destruct E as [(a & w1 & E1 & E2)|[[E1 ->]|(e & E1 & ->)]].
  - destruct (Hm w _ w1 H E1) as [_ H1]. apply (Hk a w1 o w' H1 E2).
  - destruct (Hm w _ w' H E1) as [[] _].
  - apply (Hm w _ w' H E1).
Qed.

(** Reading the rows of [df] gives [t]. *)
Lemma careful_read (A : Type) (k : table -> M A) :
  careful allowed df t (k t) -> careful allowed df t (bind (rows_of df) k).
Proof.
  intros Hk w o w' H E.
  rewrite (@bind_step _ _ _ _ _ _ _ (rows_of_run _ _ _ H)) in E.
  apply (Hk w o w' H E).
Qed.

(** A new object made from the rows of [df] and read at once. *)
Lemma careful_new_read (A : Type) (make : M ref) (k : table -> M A) :
  (forall w, nth_error (store w) df = Some t ->
     exists t' w', make w = (Ok (List.length (store w)), w') /\
                   store w' = store w ++ [t']) ->
  (forall cp, careful allowed df t (k cp)) ->
  careful allowed df t (bind make (fun r => bind (rows_of r) k)).
Proof.
  intros Hmake Hk w o w' H E.
  destruct (Hmake w H) as (t' & w1 & R & S).
  rewrite (@bind_step _ _ _ _ _ _ _ R) in E.
  assert (L : nth_error (store w1) (List.length (store w)) = Some t').
  { rewrite S. apply nth_error_last. }
  rewrite (@bind_step _ _ _ _ _ _ _ (rows_of_run _ _ _ L)) in E.
  apply (Hk t' w1 o w'); [|exact E].
  rewrite S. rewrite nth_error_app1; [exact H|].
  apply nth_error_Some. congruence.
Qed.

Lemma make_getitem_eq (c : column) (v : cell) (w : World) :
  nth_error (store w) df = Some t ->
  exists t' w', getitem_eq df c v w = (Ok (List.length (store w)), w') /\
                store w' = store w ++ [t'].
Proof.
  intros H. destruct (getitem_eq_run _ _ _ c v H) as (w' & R & S & _).
  exists (select_eq c v t), w'. split; assumption.
Qed.

Lemma make_getitem_isin (c : column) (l : list cell) (w : World) :
  nth_error (store w) df = Some t ->
  exists t' w', getitem_isin df c l w = (Ok (List.length (store w)), w') /\
                store w' = store w ++ [t'].
Proof.
  intros H. unfold getitem_isin.
  rewrite (@bind_step _ _ _ _ _ _ _ (rows_of_run _ _ _ H)).
  eexists. eexists. split; reflexivity.
Qed.
End Careful.

Ltac careful_step :=
  cbv beta zeta;
  match goal with
  | |- careful _ ?d _ (bind (rows_of ?d) _) => apply careful_read
  | |- careful _ ?d _ (bind (getitem_isin ?d ?c ?l) _) =>
      apply careful_new_read; [apply make_getitem_isin|intros ?]
  | |- careful _ ?d _ (bind (getitem_eq ?d ?c ?v) _) =>
      apply careful_new_read; [apply make_getitem_eq|intros ?]
  | |- careful _ _ _ (bind _ _) => apply careful_bind; [|intros ?]
  | |- careful _ _ _ (emit _) => apply careful_emit
  | |- careful _ _ _ (ret _) => apply careful_ret
  | |- careful _ _ _ (lift (sorted (filter truthy_not_nan _))) =>
      apply careful_lift, present_sorted_gentle
  | |- careful _ _ _ (if ?b then _ else _) => destruct b
  | |- careful _ _ _ (match ?x with _ => _ end) => destruct x
  end.

Section Outcomes.
Variable allowed : exn -> bool.
Variable df : ref.
Variable t : table.

Lemma careful_selectbox (label_ : string) (options : list cell) (pick : nat) :
  careful allowed df t (selectbox label_ options pick).
Proof. unfold selectbox. repeat careful_step. Qed.

Lemma careful_options_of (c : column) :
  gentle allowed (sorted (unique (col c t))) ->
  careful allowed df t (options_of df c).
Proof.
  intros G. unfold options_of. careful_step. careful_step.
  - apply careful_lift, G.
  - careful_step.
Qed.

Lemma careful_present_options (values : list cell) :
  careful allowed df t (present_options values).
Proof. unfold present_options. rewrite present_values_cells. repeat careful_step. Qed.

Lemma careful_character_options (s : cell) :
  careful allowed df t (character_options df s).
Proof.
  unfold character_options.
  repeat first [apply careful_present_options | careful_step].
Qed.

Lemma careful_sidebar (u : Picks) :
  (forall c, In c [Location; Event_type; Day; Product_type] ->
     gentle allowed (sorted (unique (col c t)))) ->
  careful allowed df t (sidebar df u).
Proof.
  intros G. unfold sidebar.
  repeat first
    [ apply careful_selectbox
    | apply careful_options_of; apply G; simpl; tauto
    | apply careful_present_options | apply careful_character_options
    | careful_step ].
Qed.

Lemma careful_top_card (gradient heading : string) (name : key -> list piece)
    (s : list (key * Z)) :
  careful allowed df t (top_card gradient heading name s).
Proof. unfold top_card. destruct (idxmax s) as [[k v]|]; repeat careful_step. Qed.

Lemma careful_create_overview_metrics :
  careful allowed df t (create_overview_metrics df).
Proof.
  unfold create_overview_metrics.
  repeat first [apply careful_top_card | careful_step].
Qed.

Lemma careful_create_sales_by_location :
  careful allowed df t (create_sales_by_location df).
Proof. unfold create_sales_by_location. repeat careful_step. Qed.

Lemma careful_create_event_comparison :
  careful allowed df t (create_event_comparison df).
Proof. unfold create_event_comparison. repeat careful_step. Qed.

Lemma careful_create_product_performance :
  careful allowed df t (create_product_performance df).
Proof. unfold create_product_performance. repeat careful_step. Qed.

Lemma careful_create_top_characters :
  careful allowed df t (create_top_characters df).
Proof. unfold create_top_characters. repeat careful_step. Qed.

Lemma careful_create_daily_performance :
  careful allowed df t (create_daily_performance df).
Proof. unfold create_daily_performance. repeat careful_step. Qed.

Lemma careful_create_character_analysis :
  gentle allowed (char_analysis t) ->
  careful allowed df t (create_character_analysis df).
Proof.
  intros G. unfold create_character_analysis.
  careful_step; [careful_step|]. careful_step.
  careful_step; [apply careful_lift, G|].
  repeat careful_step.
Qed.

Lemma careful_create_detailed_analysis :
  careful allowed df t (create_detailed_analysis df).
Proof. unfold create_detailed_analysis. repeat careful_step. Qed.

Lemma careful_visualizations :
  gentle allowed (char_analysis t) ->
  careful allowed df t (visualizations df).
Proof.
  intros G. unfold visualizations.
  repeat first
    [ apply careful_create_overview_metrics | apply careful_create_sales_by_location
    | apply careful_create_daily_performance | apply careful_create_event_comparison
    | apply careful_create_product_performance | apply careful_create_top_characters
    | apply careful_create_character_analysis; exact G
    | apply careful_create_detailed_analysis
    | careful_step ].
Qed.

Lemma careful_data_insights : careful allowed df t (data_insights df).
Proof. unfold data_insights. repeat careful_step. Qed.

Lemma careful_export_options (sel : Selection) :
  careful allowed df t (export_options df sel).
Proof. unfold export_options. repeat careful_step. Qed.

Lemma careful_show_active_filters (l : list (list piece)) :
  careful allowed df t (show_active_filters l).
Proof. unfold show_active_filters. destruct l; repeat careful_step. Qed.
End Outcomes.

Lemma careful_apply_filters (allowed : exn -> bool) (df : ref) (t : table)
    (sel : Selection) :
  careful allowed df t (apply_filters df sel).
Proof.
  intros w o w' H E.
  destruct (apply_filters_run w df t sel H) as (fdf & act & w2 & R & _ & _ & Ev).
  rewrite R in E. injection E as <- <-. split; [exact I|].
  apply (evolves_lookup _ _ _ _ _ Ev H).
Qed.

(** When [filtered_view] returns, the view holds the matching rows of
    the table that [load_data] gave. *)
Lemma filtered_view_table (u : Picks) (w w' : World) (filtered_df : ref)
    (sel : Selection) :
  filtered_view u w = (Ok (filtered_df, sel), w') ->
  exists t shown,
    match cache w, file w with
    | Some entry, _ => entry = (t, shown)
    | None, Some lines => t = map read_record lines /\ shown = []
    | None, None =>
        t = sample_data (sample_quantities w) /\
        shown = [error file_not_found_text; warning sample_data_text]
    end /\
    nth_error (store w') filtered_df = Some (filter (matches sel) t).
Proof.
  intros H.
  destruct (filtered_view_load u w w' _ H)
    as (t & shown & w1 & _ & Ht & _ & _ & Hcase & Hrest).
  destruct (filtered_view_result u w w' filtered_df sel H) as (t' & Ht' & Hf & _).
  exists t, shown. split; [exact Hcase|].
  pose proof (keeps_after_load (List.length (store w)) u w1 _ w' Hrest) as Ev.
  pose proof (evolves_lookup _ _ _ _ _ Ev Ht) as Ht2.
  rewrite Ht2 in Ht'. injection Ht' as <-. exact Hf.
Qed.

(** How a run of [main] ends, given which exceptions sorting the values
    of a dropdown and joining the labels of a group may raise on the
    table that [load_data] gives. *)
Lemma main_outcome (allowed : exn -> bool) (u : Picks) (w w' : World)
    (o : outcome unit) :
  (forall t shown,
     match cache w, file w with
     | Some entry, _ => entry = (t, shown)
     | None, Some lines => t = map read_record lines /\ shown = []
     | None, None =>
         t = sample_data (sample_quantities w) /\
         shown = [error file_not_found_text; warning sample_data_text]
     end ->
     (forall c, In c [Location; Event_type; Day; Product_type] ->
        gentle allowed (sorted (unique (col c t)))) /\
     (forall sel, gentle allowed (char_analysis (filter (matches sel) t)))) ->
  main u w = (o, w') ->
  (exists e, o = Raise e /\ allowed e = true) \/
  exists filtered_df sel w1 view,
    filtered_view u w = (Ok (filtered_df, sel), w1) /\
    nth_error (store w1) filtered_df = Some view /\
    ((view = [] /\ o = Stop /\ w' = rendering [warning no_match_text] w1) \/
     (view <> [] /\ o = Ok tt)).
Proof.
  intros Hyp H. unfold main in H. apply bind_run in H.
  assert (Hfv : forall o1 w1, filtered_view u w = (o1, w1) -> gentle allowed o1).
  { intros o1 w1 E.
    destruct (filtered_view_load u w w1 _ E)
      as (t & shown & w0 & _ & Ht & _ & _ & Hcase & Hrest).
    destruct (Hyp t shown Hcase) as [Hs _].
    assert (C : careful allowed (List.length (store w)) t
                  (sel <- sidebar (List.length (store w)) u ;;
                   st <- apply_filters (List.length (store w)) sel ;;
                   show_active_filters (snd st) ;;
                   ret (fst st, sel))).
    { apply careful_bind; [apply careful_sidebar, Hs|]. intros sel.
      apply careful_bind; [apply careful_apply_filters|]. intros st.
      apply careful_bind; [apply careful_show_active_filters|]. intros _.
      apply careful_ret. }
    apply (C w0 o1 w1 Ht Hrest). }
  destruct H as [([fdf sel] & w1 & E1 & E2)|[[E1 ->]|(e & E1 & ->)]].
  - cbn [fst snd] in E2.
    destruct (filtered_view_table u w w1 fdf sel E1) as (t & shown & Hcase & Hview).
    destruct (Hyp t shown Hcase) as [_ Hc]. specialize (Hc sel).
    unfold render, check_not_empty in E2.
    destruct (filter (matches sel) t) as [|r view] eqn:F.
    + right. exists fdf, sel, w1, []. split; [exact E1|]. split; [exact Hview|].
      left. split; [reflexivity|].
      unfold bind at 1 in E2. unfold bind at 1 in E2.
      rewrite (rows_of_run _ _ _ Hview) in E2.
      rewrite emit_step in E2. unfold stop in E2.
      injection E2 as <- <-. split; reflexivity.
    + unfold bind at 1 in E2. unfold bind at 1 in E2.
      rewrite (rows_of_run _ _ _ Hview) in E2. unfold ret at 1 in E2.
      assert (C : careful allowed fdf (r :: view)
                    (visualizations fdf ;; data_insights fdf ;;
                     export_options fdf sel)).
      { apply careful_bind; [apply careful_visualizations, Hc|]. intros _.
        apply careful_bind; [apply careful_data_insights|]. intros _.
        apply careful_export_options. }
      destruct (C w1 o w' Hview E2) as [G _].
      destruct o as [[]| |e].
      * right. exists fdf, sel, w1, (r :: view). split; [exact E1|].
        split; [exact Hview|]. right. split; [discriminate|reflexivity].
      * destruct G.
      * left. exists e. split; [reflexivity|exact G].
  - destruct (Hfv _ _ E1).
  - left. exists e. split; [reflexivity|]. apply (Hfv _ _ E1).
Qed.

(** X13.  [st.stop()] is reached by the empty check only: a run of
    [main] that ends in a stop has read the dropdowns and built a
    filtered view without rows, and the warning is the last element it
    rendered. *)
Theorem main_stops_only_on_an_empty_view (u : Picks) (w w' : World) :
  main u w = (Stop, w') ->
  exists filtered_df sel w1,
    filtered_view u w = (Ok (filtered_df, sel), w1) /\
    nth_error (store w1) filtered_df = Some [] /\
    w' = rendering [warning no_match_text] w1.
Proof.
  intros H.
  destruct (main_outcome any_exception u w w' Stop) as [(e & He & _)|Hr];
    [|exact H|discriminate He|].
  - intros t shown _. split.
    + intros c _. unfold sorted. destruct (_ && _); [reflexivity|exact I].
    + intros sel. apply char_analysis_gentle. intros k rows c _ _.
      unfold join_unique. destruct (existsb _ _); [reflexivity|exact I].
  - destruct Hr as (fdf & sel & w1 & view & E & L & [(-> & _ & ->)|(_ & Ho)]);
      [|discriminate Ho].
    exists fdf, sel, w1. split; [exact E|]. split; [exact L|reflexivity].
Qed.

Lemma main_stops_only_on_an_empty_view_witness :
  exists w',
    main demo_picks_nothing demo_file_world = (Stop, w') /\
    exists filtered_df sel w1,
      filtered_view demo_picks_nothing demo_file_world
        = (Ok (filtered_df, sel), w1) /\
      nth_error (store w1) filtered_df = Some [] /\
      w' = rendering [warning no_match_text] w1.
Proof.
  destruct (main demo_picks_nothing demo_file_world) as [[[]| |e] w'] eqn:E;
    [vm_compute in E; discriminate E| |vm_compute in E; discriminate E].
  exists w'. split; [reflexivity|].
  exact (main_stops_only_on_an_empty_view demo_picks_nothing demo_file_world w' E).
Defined.

Lemma filled_col (t : table) (c : column) :
  filled t -> In c [Location; Event_type; Day; Product_type] ->
  existsb is_nan (unique (col c t)) = false.
Proof.
  intros H Hc. apply no_nan_existsb. intros x Hx. apply -> unique_In in Hx.
  unfold col in Hx. apply in_map_iff in Hx. destruct Hx as (r & <- & Hr).
  apply (H r c Hr Hc).
Qed.

(** X14.  On a table in which no row misses its location, event type,
    day or product type the sidebar does not fail.  It renders its
    header and then the six dropdowns, in the order location, event
    type, day, series, character, product type; each offers 'All'
    followed by the sorted distinct values of its column (for the series
    and the character the values that pass the test of the
    comprehension, for the character those of the rows of the selected
    series), and returns its picked entry.  The only object it makes is
    the table of the rows of a selected series. *)
Theorem sidebar_reads_six_dropdowns (w : World) (df : ref) (t : table) (u : Picks) :
  nth_error (store w) df = Some t ->
  filled t ->
  exists sel w' series variants,
    sidebar df u w = (Ok sel, w') /\
    series = All :: sort_by cell_leb
                      (filter truthy_not_nan (unique (col Series_character t))) /\
    variants = All :: sort_by cell_leb
                        (filter truthy_not_nan
                           (unique (col Character_variant
                                      (if py_neqb (selected_anime sel) All
                                       then select_eq Series_character
                                              (selected_anime sel) t
                                       else t)))) /\
    page w' = page w ++
      [sidebar_header "Filters";
       sidebar_selectbox "Select Location"
         (All :: sort_by cell_leb (unique (col Location t)));
       sidebar_selectbox "Select Event Type"
         (All :: sort_by cell_leb (unique (col Event_type t)));
       sidebar_selectbox "Select Day"
         (All :: sort_by cell_leb (unique (col Day t)));
       sidebar_selectbox "Select Anime/Series" series;
       sidebar_selectbox "Select Character" variants;
       sidebar_selectbox "Select Product Type"
         (All :: sort_by cell_leb (unique (col Product_type t)))] /\
    sel = {| selected_location :=
               nth (pick_location u)
                   (All :: sort_by cell_leb (unique (col Location t))) All;
             selected_event :=
               nth (pick_event u)
                   (All :: sort_by cell_leb (unique (col Event_type t))) All;
             selected_day :=
               nth (pick_day u)
                   (All :: sort_by cell_leb (unique (col Day t))) All;
             selected_anime := nth (pick_anime u) series All;
             selected_character := nth (pick_character u) variants All;
             selected_product :=
               nth (pick_product u)
                   (All :: sort_by cell_leb (unique (col Product_type t))) All |} /\
    store w' = store w ++
      (if py_neqb (selected_anime sel) All
       then [select_eq Series_character (selected_anime sel) t] else []).
Proof.
  intros Ht Hf.
  assert (C : careful no_exception df t (sidebar df u)).
  { apply careful_sidebar. intros c Hc. unfold sorted.
    rewrite (filled_col t c Hf Hc). exact I. }
  destruct (sidebar df u w) as [[sel| |e] w'] eqn:E.
  - destruct (sidebar_run df u w w' sel t Ht E) as (Hsel & Hpage & Hstore).
    cbv zeta in Hsel, Hpage, Hstore.
    assert (Ha : selected_anime sel
                 = nth (pick_anime u)
                     (All :: sort_by cell_leb
                               (filter truthy_not_nan
                                  (unique (col Series_character t)))) All)
      by (rewrite Hsel; reflexivity).
    exists sel, w'. eexists. eexists.
    split; [reflexivity|]. split; [reflexivity|]. split; [reflexivity|].
    split; [rewrite Ha; exact Hpage|].
    split; [rewrite Ha; exact Hsel|rewrite Ha; exact Hstore].
  - destruct (C w _ w' Ht E) as [[] _].
  - destruct (C w _ w' Ht E) as [G _]. discriminate G.
Qed.

Lemma sidebar_reads_six_dropdowns_witness :
  nth_error (store demo_world) 0 = Some demo_rows /\
  filled demo_rows /\
  exists sel w',
    sidebar 0%nat demo_picks_series demo_world = (Ok sel, w') /\
    selected_anime sel = Str "JJK" /\
    selected_character sel = Str "Fish" /\
    List.length (page w') = 7%nat.
Proof.
  assert (Hf : filled demo_rows).
  { intros r c [<-|[<-|[<-|[]]]] [<-|[<-|[<-|[<-|[]]]]]; discriminate. }
  split; [reflexivity|]. split; [exact Hf|].
  destruct (sidebar_reads_six_dropdowns demo_world 0%nat demo_rows demo_picks_series
              eq_refl Hf)
    as (sel & w' & series & variants & E & -> & -> & Hp & Hs & _).
  exists sel, w'. split; [exact E|].
  split; [rewrite Hs; reflexivity|].
  split; [|rewrite Hp; reflexivity].
  rewrite Hs. cbn [selected_character selected_anime]. 
  rewrite Hs. reflexivity.
Defined.

(** ** The page configuration *)

Lemma keeps_not_config_after_load (df : ref) (u : Picks) :
  keeps not_config
    (r <- (sel <- sidebar df u ;;
           st <- apply_filters df sel ;;
           show_active_filters (snd st) ;;
           ret (fst st, sel)) ;;
     render (fst r) (snd r)).
Proof.
  unfold sidebar, options_of, selectbox, character_options, present_options,
    apply_filters, apply_filter, show_active_filters, render, check_not_empty,
    visualizations, data_insights, export_options, create_overview_metrics,
    top_card, create_sales_by_location, create_event_comparison,
    create_product_performance, create_top_characters, create_daily_performance,
    create_character_analysis, create_detailed_analysis.
  repeat first
    [ apply keeps_copy | apply keeps_getitem_eq | apply keeps_getitem_isin
    | progress cbv zeta | keeps_step ].
Qed.

Lemma bind_same (A B : Type) (m m' : M A) (f : A -> M B) (w w1 : World) :
  m w = m' w1 -> bind m f w = bind m' f w1.
Proof. intros H. unfold bind. rewrite H. reflexivity. Qed.

(** X16.  A run of the script configures the page first and only once:
    the first element it renders is [set_page_config], and nothing
    rendered after it, whatever the selections, the data and the
    outcome, is another page configuration. *)
Theorem page_is_configured_first_and_once (u : Picks) (w w' : World)
    (o : outcome unit) :
  consistent w ->
  script u w = (o, w') ->
  exists rest,
    page w' = page w ++
      set_page_config "Convention Sales Dashboard" "wide" "expanded" :: rest /\
    forallb not_config rest = true.
Proof.
  intros Hc H. unfold script in H. rewrite !emit_step in H.
  match type of H with
  | main u ?W = _ => set (w0 := W) in *
  end.
  destruct (filtered_view u w0) as [o1 w2] eqn:E1.
  assert (E0 := E1).
  unfold filtered_view in E1. rewrite emit_step in E1. fold main_header in E1.
  destruct (load_data_run (rendering [main_header] w0)) as (t & shown & Hrun & Hcase).
  match type of Hrun with _ = (_, ?W) => set (w1 := W) in * end.
  rewrite (@bind_step _ _ _ _ _ _ _ Hrun) in E1.
  assert (Hshown : shown = [] \/
                   shown = [error file_not_found_text; warning sample_data_text]).
  { apply (consistent_loaded (rendering [main_header] w0) t shown); [exact Hc|exact Hcase]. }
  assert (Hrest : (r <- (sel <- sidebar (List.length (store w0)) u ;;
                         st <- apply_filters (List.length (store w0)) sel ;;
                         show_active_filters (snd st) ;;
                         ret (fst st, sel)) ;;
                   render (fst r) (snd r)) w1 = (o, w')).
  { rewrite <- H. unfold main. symmetry. apply bind_same. rewrite E0.
    symmetry. exact E1. }
  destruct (keeps_not_config_after_load _ u w1 o w' Hrest)
    as (_ & _ & _ & _ & _ & (es & Hp & Hes)).
  exists ([markdown [Lit "<style> .main-header .metric-card .section-header </style>"];
           main_header] ++ shown ++ es).
  split.
  - rewrite Hp. subst w1 w0. cbn [page rendering].
    rewrite <- !app_assoc. reflexivity.
  - cbn [app forallb not_config main_header andb]. rewrite forallb_app, Hes.
    destruct Hshown as [->| ->]; reflexivity.
Qed.

Lemma page_is_configured_first_and_once_witness :
  consistent demo_file_world /\
  exists o w' rest,
    script demo_picks_london demo_file_world = (o, w') /\
    page w' = page demo_file_world ++
      set_page_config "Convention Sales Dashboard" "wide" "expanded" :: rest /\
    forallb not_config rest = true.
Proof.
  assert (Hc : consistent demo_file_world) by exact I.
  split; [exact Hc|].
  destruct (script demo_picks_london demo_file_world) as [o w'] eqn:E.
  destruct (page_is_configured_first_and_once demo_picks_london demo_file_world
              w' o Hc E) as (rest & H1 & H2).
  exists o, w', rest. split; [reflexivity|]. split; [exact H1|exact H2].
Defined.

(** ** The heat map of create_character_analysis *)








(** ** The regional table of create_overview_metrics *)

(** The groups of a table grouped by one column. *)
Lemma groupby_single_In (c : column) (t : table) (k : key) (rows : table) :
  In (k, rows) (groupby [c] t) <->
  exists g, k = [g] /\ (exists r, In r t /\ get c r = Str g) /\
            rows = select_eq c (Str g) t.
Proof.
  split.
  - intros Hin.
    destruct (groupby_key_of _ _ _ _ Hin) as (r & Hr & Hk).
    simpl in Hk. destruct (get c r) as [g|] eqn:Hg; [|discriminate].
    injection Hk as <-. exists g. split; [reflexivity|]. split; [eauto|].
    apply groupby_In in Hin. destruct Hin as [_ ->].
    apply filter_ext. intros x. apply has_key_single.
  - intros (g & -> & (r & Hr & Hg) & ->).
    apply groupby_In. split.
    + intros Hnil.
      assert (Hin : In r (select_eq c (Str g) t)).
      { apply filter_In. split; [exact Hr|]. rewrite Hg. simpl. apply String.eqb_refl. }
      rewrite Hnil in Hin. destruct Hin.
    + apply filter_ext. intros x. symmetry. apply has_key_single.
Qed.

Lemma total_of_lengths (gs : groups) :
  total (map (fun g => Z.of_nat (List.length (snd g))) gs)
  = Z.of_nat (List.length (List.concat (map snd gs))).
Proof.
  induction gs as [|[k rows] gs IH]; simpl; [reflexivity|].
  rewrite length_app, Nat2Z.inj_add, IH. reflexivity.
Qed.

(** X18.  The regional table has one line per location that occurs in
    the table: the location, then the summed quantity, the rounded
    mean, the number of rows, and the numbers of distinct product types
    and series of the rows of that location.  The lines come by
    non-increasing total, and their row counts add up to the number of
    rows that have a location. *)
Theorem regional_table_has_a_line_per_location (t : table) :
  LocallySorted (fun a b => int_at 1 b <= int_at 1 a) (records (regional_stats t)) /\
  (forall rec,
     In rec (records (regional_stats t)) <->
     exists g, (exists r, In r t /\ location r = Str g) /\
       rec = [VStr g;
              VInt (sum64 (map quantity (select_eq Location (Str g) t)));
              VFloat (round2 (mean_of (map quantity (select_eq Location (Str g) t))));
              VInt (Z.of_nat (List.length (select_eq Location (Str g) t)));
              VInt (Z.of_nat (nunique (col Product_type (select_eq Location (Str g) t))));
              VInt (Z.of_nat (nunique (col Series_character
                                         (select_eq Location (Str g) t))))]) /\
  total (map (int_at 3) (records (regional_stats t)))
  = Z.of_nat (List.length (filter (complete [Location]) t)).
Proof.
  unfold regional_stats.
  match goal with
  | |- context [sort_values _ _ ?F] => set (f := F)
  end.
  split; [|split].
  - exact (sort_values_sorted "Total Sales" false f).
  - intros rec. split.
    + intros Hin.
      apply (Permutation_in _ (Permutation_sym (sort_values_perm _ _ _))) in Hin.
      unfold f in Hin. cbn [records] in Hin.
      apply in_map_iff in Hin. destruct Hin as ([k rows] & <- & Hin).
      apply groupby_single_In in Hin. destruct Hin as (g & -> & Hex & ->).
      exists g. split; [exact Hex|]. cbn [fst snd map app].
      rewrite length_map. reflexivity.
    + intros (g & Hex & ->).
      apply (Permutation_in _ (sort_values_perm _ _ _)).
      unfold f. cbn [records]. apply in_map_iff.
      exists ([g], select_eq Location (Str g) t). split.
      * cbn [fst snd map app]. rewrite length_map. reflexivity.
      * apply groupby_single_In. exists g. split; [reflexivity|].
        split; [exact Hex|reflexivity].
  - rewrite <- (total_perm _ _ (Permutation_map (int_at 3) (sort_values_perm _ _ f))).
    unfold f. cbn [records]. rewrite map_map.
    rewrite <- (Permutation_length (groupby_rows [Location] t)).
    rewrite <- total_of_lengths. f_equal. apply map_ext_in.
    intros [k rows] Hin. apply groupby_single_In in Hin.
    destruct Hin as (g & -> & _ & _). cbn [fst snd map app].
    unfold int_at. cbn [nth_error]. rewrite length_map. reflexivity.
Qed.
